(** * Cypress training suite: custom commands, page object, node tasks,
      hook suites and CI pipelines

    A shallow embedding of the parts of the repository that carry logic:

    - [JS]: the JavaScript values that fixtures, responses and schemas are
      made of, with property reads and truthiness;
    - [Cy]: the calls a command body issues on the [cy] object, as a
      writer/error monad;
    - [Commands]: the custom commands of the support file;
    - [LoginPage]: the page object;
    - [Sample]: fixtures and servers for the examples;
    - [Registry]: the [Cypress.Commands.add] registrations of the support file;
    - [Iframe]: [getIframeBody] and the retried query chain it is built from;
    - [Tasks]: the [clearDownloads] node task over a file system;
    - [Suites]: the hook demo suites and the closure variables they share;
    - [CI]: the Jenkins pipelines and the Windows batch script;
    - [FileTasks]: the node tasks [isFileExist], [deleteFile] and
      [getDownloadedFiles];
    - [MoreCommands]: [fillForm] and the [apiLogin] that simulates;
    - [Env]: the commands over [Cypress.env], and [loginWithEnv];
    - [Api], [ApiCommands]: [apiRequest], the CRUD wrappers, [apiLogin]
      with a token and [apiAuthRequest];
    - [IframeDocument]: [getIframeDocument];
    - [Artifacts]: what a build archives and publishes. *)

From Stdlib Require Import ZArith QArith List String Ascii Bool Lia.
From stdpp Require Import base option list strings gmap.

Local Open Scope Z_scope.
Local Set Warnings "-register-all".

(* ===================================================================== *)
(** ** JavaScript values *)
(* ===================================================================== *)

Module JS.

(** A value as [JSON.parse] and the runtime produce it.  Objects keep their
    own properties in insertion order (what [Object.entries] walks).
    [Host ty name] is an object or function the runtime provides, such as an
    inherited [toString]; [ty] is what [typeof] answers for it. *)
Inductive value : Type :=
| Undefined
| Null
| Bool (b : bool)
| Num (q : Q)
| Str (s : string)
| Arr (items : list value)
| Obj (props : list (string * value))
| Host (ty : string) (name : string).

(** Own property lookup in a property list. *)
Fixpoint own (props : list (string * value)) (k : string) : option value :=
  match props with
  | [] => None
  | (k', v) :: rest => if String.eqb k' k then Some v else own rest k
  end.

Definition keys (props : list (string * value)) : list string := map fst props.

(** [!v] is false exactly for the truthy values. *)
Definition truthy (v : value) : bool :=
  match v with
  | Undefined | Null => false
  | Bool b => b
  | Num q => negb (Qnum q =? 0)
  | Str s => negb (String.eqb s "")
  | Arr _ | Obj _ | Host _ _ => true
  end.

Definition nullish (v : value) : bool :=
  match v with Undefined | Null => true | _ => false end.

Definition typeof (v : value) : string :=
  match v with
  | Undefined => "undefined"
  | Null => "object"
  | Bool _ => "boolean"
  | Num _ => "number"
  | Str _ => "string"
  | Arr _ | Obj _ => "object"
  | Host ty _ => ty
  end.

Definition isArray (v : value) : bool :=
  match v with Arr _ => true | _ => false end.

(** [v !== undefined] *)
Definition is_undefined (v : value) : bool :=
  match v with Undefined => true | _ => false end.

Section Runtime.

(** What a value answers for a name that is not one of its own data
    properties: members inherited from the prototype chain, the [length]
    of arrays and strings, and so on.  This table belongs to the
    JavaScript runtime, not to the repository, so the commands are
    verified for every such table. *)
Variable runtime_member : value -> string -> option value.

(** [v[k]] on a value that is neither [undefined] nor [null]. *)
Definition member (v : value) (k : string) : value :=
  match v with
  | Obj props =>
      match own props k with
      | Some x => x
      | None => default Undefined (runtime_member v k)
      end
  | _ => default Undefined (runtime_member v k)
  end.

(** [k in Object(v)] *)
Definition has_member (v : value) (k : string) : bool :=
  match v with
  | Obj props =>
      match own props k with
      | Some _ => true
      | None => bool_decide (is_Some (runtime_member v k))
      end
  | _ => bool_decide (is_Some (runtime_member v k))
  end.

End Runtime.

(** The members every object inherits from [Object.prototype]. *)
Definition object_prototype : list string :=
  [ "constructor"; "hasOwnProperty"; "isPrototypeOf"; "propertyIsEnumerable";
    "toLocaleString"; "toString"; "valueOf"; "__proto__";
    "__defineGetter__"; "__defineSetter__"; "__lookupGetter__";
    "__lookupSetter__" ].

(** A runtime table that knows [Object.prototype] only; the examples on
    plain objects run with it. *)
Definition plain_runtime (v : value) (k : string) : option value :=
  match v with
  | Obj _ =>
      if bool_decide (k ∈ object_prototype)
      then Some (Host (if String.eqb k "__proto__" then "object" else "function") k)
      else None
  | _ => None
  end.

End JS.

(* ===================================================================== *)
(** ** Calls on the [cy] object *)
(* ===================================================================== *)

Module Cy.

Import JS.

(** The options object handed to [cy.request]. *)
Record request := {
  method : string;
  url : list value;   (* the pieces of the URL string, as for [Log] *)
  body : option value;
  failOnStatusCode : bool
}.

Record response := {
  status : Z;
  rbody : value
}.

(** One call on [cy] or on a chain, with its arguments.  A log message is
    kept as the pieces of its template literal. *)
Inductive call : Type :=
| Fixture (name : string)
| Log (pieces : list value)
| Visit (url : value)
| Get (selector : value)
| First
| Should (chainer : string) (args : list value)
| Clear
| Type_ (text : value) (log : bool)
| Click
| Wrap (subject : value)
| As (alias : string)
| Request (r : request)
| Its (path : string)
| WrapResponse (r : response).

Inductive error : Type :=
| Error (msg : string)              (* throw new Error(msg) *)
| TypeError (key : string)          (* property read on undefined or null *)
| AssertionError (actual expected : value)  (* a failed chai expectation *)
| CypressError (what : string).     (* a cy command that failed *)

(** A command body: the calls it issued, and how it ended. *)
Definition M (A : Type) : Type := list call * (error + A).

Definition ret {A} (a : A) : M A := ([], inr a).

Definition bind {A B} (m : M A) (f : A -> M B) : M B :=
  match m with
  | (t, inl e) => (t, inl e)
  | (t, inr a) => let '(t', r) := f a in (t ++ t', r)
  end.

Definition emit (c : call) : M unit := ([c], inr tt).

Definition throw {A} (e : error) : M A := ([], inl e).

Definition calls {A} (m : M A) : list call := fst m.
Definition outcome {A} (m : M A) : error + A := snd m.

Definition thrown {A} (m : M A) : option error :=
  match snd m with inl e => Some e | inr _ => None end.

(** The login steps among the calls: visiting, typing and clicking. *)
Definition is_step (c : call) : bool :=
  match c with
  | Visit _ | Type_ _ _ | Click => true
  | _ => false
  end.

Definition steps (cs : list call) : list call := filter (fun c => is_step c = true) cs.

Definition is_visit (c : call) : bool :=
  match c with Visit _ => true | _ => false end.

(** The HTTP requests among the calls. *)
Definition requests (cs : list call) : list request :=
  omap (fun c => match c with Request r => Some r | _ => None end) cs.

End Cy.

Declare Scope cy_scope.
Delimit Scope cy_scope with cy.
Notation "x <- m ;; k" := (Cy.bind m (fun x => k))
  (at level 100, m at next level, right associativity) : cy_scope.
Notation "m ;; k" := (Cy.bind m (fun _ => k))
  (at level 100, right associativity) : cy_scope.

(* ===================================================================== *)
(** ** The custom commands of the support file *)
(* ===================================================================== *)

Module Commands.

Import JS Cy.
Local Open Scope cy_scope.

(** The double quote of the error messages. *)
Definition dq : string := String "034"%char EmptyString.

Section Env.

Variable runtime_member : value -> string -> option value.

(** The fixture files: [cy.fixture(name)] yields the parsed JSON, and the
    command fails when there is no such file. *)
Variable fixtures : string -> option value.

(** The server behind [cy.request]. *)
Variable server : request -> response.

(** [v.k] / [v[k]]: a [TypeError] on [undefined] and [null]. *)
Definition prop (v : value) (k : string) : M value :=
  if nullish v then throw (TypeError k) else ret (member runtime_member v k).

Definition fixture (name : string) : M value :=
  emit (Fixture name) ;;
  match fixtures name with
  | Some data => ret data
  | None => throw (CypressError "fixture not found")
  end.

(** [cy.request(options)]: with [failOnStatusCode] set, a status outside
    2xx and 3xx fails the command. *)
Definition ok_status (s : Z) : bool := (200 <=? s) && (s <? 400).

Definition cy_request (r : request) : M response :=
  emit (Request r) ;;
  let resp := server r in
  if failOnStatusCode r && negb (ok_status (status resp))
  then throw (CypressError "request failed on status code")
  else ret resp.

(** [expect(actual).to.eq(expected)] on numbers. *)
Definition expect_eq (actual expected : Z) : M unit :=
  if actual =? expected then ret tt
  else throw (AssertionError (Num (inject_Z actual)) (Num (inject_Z expected))).

Definition missing_user_message (userType : string) : string :=
  "User type " +:+ dq +:+ userType +:+ dq +:+ " not found in fixture data".

(** [Cypress.Commands.add('login', (userType = 'standard') => ...)] *)
Definition login (userType : option string) : M unit :=
  let userType := default "standard" userType in
  data <- fixture "customCommandData" ;;
  users <- prop data "users" ;;
  user <- prop users userType ;;
  loginPage <- prop data "loginPage" ;;
  selectors <- prop loginPage "selectors" ;;
  if negb (truthy user) then throw (Error (missing_user_message userType))
  else
    username <- prop user "username" ;;
    emit (Log [Str "🔐 Logging in as: "; Str userType; Str " ("; username; Str ")"]) ;;
    loginPage' <- prop data "loginPage" ;;
    page_url <- prop loginPage' "url" ;;
    emit (Visit page_url) ;;
    usernameInput <- prop selectors "usernameInput" ;;
    emit (Get usernameInput) ;;
    emit (Should "be.visible" []) ;;
    emit Clear ;;
    username <- prop user "username" ;;
    emit (Type_ username true) ;;
    passwordInput <- prop selectors "passwordInput" ;;
    emit (Get passwordInput) ;;
    emit (Should "be.visible" []) ;;
    emit Clear ;;
    password <- prop user "password" ;;
    emit (Type_ password false) ;;
    submitButton <- prop selectors "submitButton" ;;
    emit (Get submitButton) ;;
    emit (Should "be.visible" []) ;;
    emit (Should "not.be.disabled" []) ;;
    emit Click ;;
    emit (Wrap user) ;;
    emit (As "currentUser").

(** [Cypress.Commands.add('apiGetAndValidate', (url, expectedStatus = 200) => ...)] *)
Definition apiGetAndValidate (url : string) (expectedStatus : option Z) : M response :=
  let expectedStatus := default 200 expectedStatus in
  emit (Log [Str "🌐 GET: "; Str url]) ;;
  response <- cy_request {| method := "GET"; url := [Str url]; body := None;
                            failOnStatusCode := false |} ;;
  expect_eq (status response) expectedStatus ;;
  emit (Log [Str "✓ Status: "; Num (inject_Z (status response))]) ;;
  emit (WrapResponse response) ;;
  ret response.

(** [Cypress.Commands.add('apiPostAndValidate', (url, body, expectedStatus = 201) => ...)] *)
Definition apiPostAndValidate (url : string) (body : value)
    (expectedStatus : option Z) : M response :=
  let expectedStatus := default 201 expectedStatus in
  emit (Log [Str "🌐 POST: "; Str url]) ;;
  response <- cy_request {| method := "POST"; url := [Str url]; body := Some body;
                            failOnStatusCode := false |} ;;
  expect_eq (status response) expectedStatus ;;
  emit (Log [Str "✓ Status: "; Num (inject_Z (status response))]) ;;
  emit (WrapResponse response) ;;
  ret response.

(** The [schema] argument of [validateSchema]:
    [{ requiredFields: [...], types: {...} }], either part optional. *)
Record schema := {
  requiredFields : option (list string);
  types : option (list (string * string))
}.

(** [expect(item, ...).to.have.property(field)]: chai refuses an
    [undefined] or [null] target, and otherwise asks [field in Object(item)]. *)
Definition expect_property (item : value) (field : string) : M unit :=
  if nullish item then throw (AssertionError item (Str field))
  else if has_member runtime_member item field then ret tt
  else throw (AssertionError item (Str field)).

(** [expect(typeof v, ...).to.eq(expectedType)] *)
Definition expect_typeof (v : value) (expectedType : string) : M unit :=
  if String.eqb (typeof v) expectedType then ret tt
  else throw (AssertionError (Str (typeof v)) (Str expectedType)).

(** [xs.forEach(f)] for a callback that may throw. *)
Fixpoint forEach {A} (xs : list A) (f : A -> M unit) : M unit :=
  match xs with
  | [] => ret tt
  | x :: rest => f x ;; forEach rest f
  end.

(** [Array.isArray(data) ? data[0] : data] *)
Definition itemToValidate (data : value) : value :=
  match data with
  | Arr items => default Undefined (head items)
  | _ => data
  end.

Definition check_required (item : value) (fields : list string) : M unit :=
  forEach fields (fun field => expect_property item field).

Definition check_types (item : value) (tys : list (string * string)) : M unit :=
  forEach tys (fun '(field, expectedType) =>
    v <- prop item field ;;
    if negb (is_undefined v) then expect_typeof v expectedType else ret tt).

(** [Cypress.Commands.add('validateSchema', { prevSubject: true }, (response, schema) => ...)] *)
Definition validateSchema (response : response) (schema : schema) : M Cy.response :=
  let requiredFields := default [] (requiredFields schema) in
  let types := default [] (types schema) in
  let data := rbody response in
  emit (Log [Str "🔍 Validating Response Schema"]) ;;
  let item := itemToValidate data in
  check_required item requiredFields ;;
  check_types item types ;;
  emit (Log [Str "✅ Schema validation passed"]) ;;
  emit (WrapResponse response) ;;
  ret response.

End Env.

(** The options object of the two validating helpers. *)
Definition get_options (url : string) : request :=
  {| method := "GET"; url := [Str url]; body := None; failOnStatusCode := false |}.

Definition post_options (url : string) (payload : value) : request :=
  {| method := "POST"; url := [Str url]; body := Some payload;
     failOnStatusCode := false |}.

End Commands.

(* ===================================================================== *)
(** ** The login page object *)
(* ===================================================================== *)

Module LoginPage.

Import JS Cy.
Local Open Scope cy_scope.

Definition dq := Commands.dq.

(** [key="name"] inside an attribute selector. *)
Definition attr (key name : string) : string :=
  "[" +:+ key +:+ "=" +:+ dq +:+ name +:+ dq +:+ "]".

Definition usernameSelector : string :=
  attr "data-testid" "username" +:+ ", #username, input" +:+ attr "name" "username"
  +:+ ", input" +:+ attr "type" "email".

Definition passwordSelector : string :=
  attr "data-testid" "password" +:+ ", #password, input" +:+ attr "name" "password"
  +:+ ", input" +:+ attr "type" "password".

Definition loginButtonSelector : string :=
  attr "data-testid" "login-button" +:+ ", button" +:+ attr "type" "submit"
  +:+ ", input" +:+ attr "type" "submit" +:+ ", .login-btn, #login-btn".

Section Env.

Variable runtime_member : value -> string -> option value.
Variable fixtures : string -> option value.

(** The locator getters: [cy.get(...).first()]. *)
Definition usernameInput : M unit := emit (Get (Str usernameSelector)) ;; emit First.
Definition passwordInput : M unit := emit (Get (Str passwordSelector)) ;; emit First.
Definition loginButton : M unit := emit (Get (Str loginButtonSelector)) ;; emit First.

(** [visit(url = '/login')] *)
Definition visit (url : option string) : M unit :=
  emit (Visit (Str (default "/login" url))).

Definition enterUsername (username : value) : M unit :=
  usernameInput ;; emit Clear ;; emit (Type_ username true).

Definition enterPassword (password : value) : M unit :=
  passwordInput ;; emit Clear ;; emit (Type_ password false).

Definition clickLoginButton : M unit := loginButton ;; emit Click.

Definition login (username password : value) : M unit :=
  enterUsername username ;;
  enterPassword password ;;
  clickLoginButton.

Definition missing_user_message (userType : string) : string :=
  "User type " +:+ dq +:+ userType +:+ dq +:+ " not found in loginCredentials fixture".

(** [loginWithFixture(userType = 'validUser')] *)
Definition loginWithFixture (userType : option string) : M unit :=
  let userType := default "validUser" userType in
  credentials <- Commands.fixture fixtures "loginCredentials" ;;
  user <- Commands.prop runtime_member credentials userType ;;
  if negb (truthy user) then throw (Error (missing_user_message userType))
  else
    username <- Commands.prop runtime_member user "username" ;;
    password <- Commands.prop runtime_member user "password" ;;
    login username password.

End Env.

End LoginPage.

(* ===================================================================== *)
(** ** Sample fixtures *)
(* ===================================================================== *)

Module Sample.

Import JS Cy.

Definition student : value :=
  Obj [("username", Str "student"); ("password", Str "Password123")].

(** The users of a [customCommandData.json]: two complete ones and one
    entry that is [null]. *)
Definition users : list (string * value) :=
  [ ("admin", student); ("standard", student); ("guest", Null) ].

Definition customCommandData : value :=
  Obj [ ("users", Obj users);
        ("loginPage",
         Obj [ ("url", Str "https://practicetestautomation.com/practice-test-login/");
               ("selectors",
                Obj [ ("usernameInput", Str "#username");
                      ("passwordInput", Str "#password");
                      ("submitButton", Str "#submit") ]) ]) ].

(** The users of a [loginCredentials.json]. *)
Definition credentials : list (string * value) :=
  [ ("validUser", student); ("guest", Null) ].

Definition loginCredentials : value := Obj credentials.

Definition fixtures (name : string) : option value :=
  if String.eqb name "customCommandData" then Some customCommandData
  else if String.eqb name "loginCredentials" then Some loginCredentials
  else None.

(** A server that answers every request with 404 and an empty object. *)
Definition not_found (r : request) : response :=
  {| status := 404; rbody := Obj [] |}.

(** A server in the manner of JSONPlaceholder: a [POST] is answered with
    201 and a new id, everything else with 200 and a one-element list. *)
Definition placeholder (r : request) : response :=
  if String.eqb (method r) "POST"
  then {| status := 201; rbody := Obj [("id", Num (inject_Z 11))] |}
  else {| status := 200; rbody := Arr [Obj [("id", Num (inject_Z 1))]] |}.

End Sample.

(* ===================================================================== *)
(** ** Command registration *)
(* ===================================================================== *)

Module Registry.

(** A registration: the command name and the source line of the
    [Cypress.Commands.add] call that carries its definition. *)
Definition registration : Type := string * nat.

(** The [Cypress.Commands.add] calls of the command-library support file, in
    file order. *)
Definition support_file : list registration :=
  [
    ("login", 58%nat); ("verifyLoginSuccess", 104%nat); ("verifyLoginError", 128%nat);
    ("fillForm", 151%nat); ("apiLogin", 174%nat); ("shouldBeVisibleAndContain", 203%nat);
    ("typeAndVerify", 219%nat); ("clickAndWait", 236%nat); ("forceClick", 258%nat);
    ("takeScreenshotWithLabel", 277%nat); ("withTimeout", 297%nat); ("clearAllData", 315%nat);
    ("logTestInfo", 334%nat); ("waitForElementToDisappear", 350%nat); ("getRandomItem", 364%nat);
    ("checkLink", 379%nat); ("apiGetAndValidate", 407%nat); ("apiPostAndValidate", 429%nat);
    ("apiRequest", 478%nat); ("apiLogin", 536%nat); ("apiAuthRequest", 566%nat);
    ("validateSchema", 604%nat); ("validateHeaders", 640%nat); ("apiCreate", 659%nat);
    ("apiRead", 670%nat); ("apiUpdate", 681%nat); ("apiPatch", 692%nat);
    ("apiDelete", 703%nat); ("getIframeBody", 738%nat); ("getIframeDocument", 755%nat);
    ("typeInTinyMce", 770%nat); ("typeInIframe", 794%nat); ("clickInIframe", 811%nat);
    ("uploadFile", 828%nat); ("verifyDownload", 855%nat); ("interceptAndMock", 878%nat);
    ("waitForApi", 910%nat); ("uploadFile", 939%nat); ("verifyDownloadedFile", 952%nat);
    ("clearDownloadsFolder", 971%nat); ("getEnvVariable", 991%nat); ("verifyEnvVariable", 1008%nat);
    ("checkFeatureFlag", 1020%nat); ("logEnvironmentInfo", 1031%nat); ("makeApiRequest", 1051%nat)
  ].

(** The calls of the shorter edition of the file,
    [cypress/support/commands.js]. *)
Definition commands_js : list registration :=
  [
    ("login", 58%nat); ("verifyLoginSuccess", 104%nat); ("verifyLoginError", 128%nat);
    ("fillForm", 151%nat); ("apiLogin", 174%nat); ("shouldBeVisibleAndContain", 203%nat);
    ("typeAndVerify", 219%nat); ("clickAndWait", 236%nat); ("forceClick", 258%nat);
    ("takeScreenshotWithLabel", 277%nat); ("withTimeout", 297%nat); ("clearAllData", 315%nat);
    ("logTestInfo", 334%nat); ("waitForElementToDisappear", 350%nat); ("getRandomItem", 364%nat);
    ("checkLink", 379%nat); ("apiGetAndValidate", 407%nat); ("apiPostAndValidate", 429%nat)
  ].

Definition names (regs : list registration) : list string := map fst regs.

Fixpoint count (name : string) (regs : list registration) : nat :=
  match regs with
  | [] => 0%nat
  | (n, _) :: rest => ((if String.eqb n name then 1 else 0) + count name rest)%nat
  end.

(** [Cypress.Commands.add(name, fn)] on a name that user code added before
    replaces the earlier definition. *)
Definition add (reg : gmap string nat) (r : registration) : gmap string nat :=
  <[ r.1 := r.2 ]> reg.

(** Loading the file runs its registrations top to bottom. *)
Definition load (regs : list registration) : gmap string nat :=
  foldl add ∅ regs.

(** What [cy.<name>(...)] dispatches to once the file is loaded. *)
Definition dispatch (regs : list registration) (name : string) : option nat :=
  load regs !! name.

End Registry.

(* ===================================================================== *)
(** ** Iframe access *)
(* ===================================================================== *)

Module Iframe.

(** The part of the DOM the iframe commands look at. *)
Record body_element := {
  body_id : nat;
  ownerDocument : nat;          (* the document the element belongs to *)
  childNodes : nat              (* how many child nodes it has *)
}.

Record document := {
  doc_id : nat;
  body : option body_element    (* [null] while the document is being parsed *)
}.

Record element := {
  el_id : nat;
  contentDocument : option document   (* set on same-origin iframes only *)
}.

(** The page at one instant: its own document, and what a selector finds
    in it, in document order. *)
Record page := {
  main_document : nat;
  select : string -> list element
}.

(** [cy.get(selector)]: passes once the selector finds something. *)
Definition get (p : page) (selector : string) : option (list element) :=
  match select p selector with
  | [] => None
  | found => Some found
  end.

(** [.its('0.contentDocument.body')]: passes once every step of the path is
    there. *)
Definition its_0_contentDocument_body (subject : list element) : option body_element :=
  match subject with
  | [] => None
  | first :: _ =>
      match contentDocument first with
      | None => None
      | Some doc => body doc
      end
  end.

(** [.should('not.be.empty')] on an element. *)
Definition not_be_empty (b : body_element) : bool :=
  negb (Nat.eqb (childNodes b) 0).

(** One attempt of the chain [get -> its -> should] against the page as it
    is now. *)
Definition attempt (p : page) (iframeSelector : string) : option body_element :=
  match get p iframeSelector with
  | None => None
  | Some subject =>
      match its_0_contentDocument_body subject with
      | None => None
      | Some b => if not_be_empty b then Some b else None
      end
  end.

(** The retry loop: the chain is tried again on every tick until it passes
    or the command timeout runs out.  [timeline i] is the page at tick
    [now + i]. *)
Fixpoint retry (timeout : nat) (now : nat) (timeline : nat -> page)
    (iframeSelector : string) : option (nat * body_element) :=
  match timeout with
  | O => None
  | S remaining =>
      match attempt (timeline now) iframeSelector with
      | Some b => Some (now, b)
      | None => retry remaining (S now) timeline iframeSelector
      end
  end.

(** [Cypress.Commands.add('getIframeBody', (iframeSelector) => ...)]:
    the tick at which the chain passed and the subject it yields, wrapped
    by [.then(cy.wrap)].  The [cy.log] line in front of the chain has no
    part in what is yielded and is not recorded here. *)
Definition getIframeBody (timeout : nat) (timeline : nat -> page)
    (iframeSelector : string) : option (nat * body_element) :=
  retry timeout 0 timeline iframeSelector.

(** A page whose editor frame appears at tick 1 and is filled at tick 2. *)
Definition editor_body (children : nat) : body_element :=
  {| body_id := 7; ownerDocument := 1; childNodes := children |}.

Definition editor_frame (children : nat) : element :=
  {| el_id := 3;
     contentDocument := Some {| doc_id := 1; body := Some (editor_body children) |} |}.

Definition editor_timeline (tick : nat) : page :=
  {| main_document := 0;
     select := fun selector =>
       if String.eqb selector "#mce_0_ifr" then
         match tick with
         | 0 => []
         | 1 => [editor_frame 0]
         | _ => [editor_frame 2]
         end%nat
       else [] |}.


End Iframe.

(* ===================================================================== *)
(** ** Node tasks *)
(* ===================================================================== *)

Module Tasks.

(** What the downloads folder holds: regular files and directories. *)
Inductive kind : Type := File | Dir.

#[global] Instance kind_eq_dec : EqDecision kind.
Proof. solve_decision. Defined.

(** A path is the list of its segments; the file system maps the paths
    that exist to what is there. *)
Abbreviation path := (list string).
Abbreviation fs := (gmap (list string) kind).

Inductive errno : Type := ENOENT | ENOTDIR | EISDIR.

(** A task body: it may change the file system, and returns or throws. *)
Definition T (A : Type) : Type := fs -> fs * (errno + A).

Definition ret {A} (a : A) : T A := fun s => (s, inr a).

Definition bind {A B} (m : T A) (f : A -> T B) : T B :=
  fun s => match m s with
           | (s', inl e) => (s', inl e)
           | (s', inr a) => f a s'
           end.

(** [path.join(dirPath, file)] *)
Definition join (dirPath : path) (file : string) : path := dirPath ++ [file].

(** [fs.existsSync(p)] *)
Definition existsSync (p : path) : T bool :=
  fun s => (s, inr (bool_decide (is_Some (s !! p)))).

(** The name under which [q] sits directly inside [dirPath], if it does. *)
Definition child_name (dirPath q : path) : option string :=
  match last q with
  | Some name => if bool_decide (q = join dirPath name) then Some name else None
  | None => None
  end.

(** The entries directly inside [dirPath]. *)
Definition entries (s : fs) (dirPath : path) : list string :=
  omap (fun '(q, _) => child_name dirPath q) (map_to_list s).

(** [fs.readdirSync(p)] *)
Definition readdirSync (p : path) : T (list string) :=
  fun s => match s !! p with
           | Some Dir => (s, inr (entries s p))
           | Some File => (s, inl ENOTDIR)
           | None => (s, inl ENOENT)
           end.

(** [fs.statSync(p).isFile()] *)
Definition statSync_isFile (p : path) : T bool :=
  fun s => match s !! p with
           | Some k => (s, inr (bool_decide (k = File)))
           | None => (s, inl ENOENT)
           end.

(** [fs.unlinkSync(p)] *)
Definition unlinkSync (p : path) : T unit :=
  fun s => match s !! p with
           | Some File => (delete p s, inr tt)
           | Some Dir => (s, inl EISDIR)
           | None => (s, inl ENOENT)
           end.

(** [files.forEach(f)] *)
Fixpoint forEach (files : list string) (f : string -> T unit) : T unit :=
  match files with
  | [] => ret tt
  | file :: rest => bind (f file) (fun _ => forEach rest f)
  end.

(** The callback of the loop: unlink the entry when it is a regular file. *)
Definition clear_entry (dirPath : path) (file : string) : T unit :=
  let filePath := join dirPath file in
  bind (statSync_isFile filePath) (fun isFile =>
  if isFile then unlinkSync filePath else ret tt).

(** The [clearDownloads(dirPath)] task of [setupNodeEvents]. *)
Definition clearDownloads (dirPath : path) : T nat :=
  bind (existsSync dirPath) (fun there =>
  if negb there then ret 0%nat
  else
    bind (readdirSync dirPath) (fun files =>
    bind (forEach files (clear_entry dirPath))
         (fun _ => ret (length files)))).

(** [q] is a regular file directly inside [dirPath]. *)
Definition is_file_inside (s : fs) (dirPath q : path) : bool :=
  match child_name dirPath q, s !! q with
  | Some _, Some File => true
  | _, _ => false
  end.

(** A downloads folder with one file, and one subdirectory that holds
    another file. *)
Definition downloads : path := ["cypress"; "downloads"].

Definition sample_fs : fs :=
  <[ ["cypress"] := Dir ]>
  (<[ downloads := Dir ]>
  (<[ join downloads "report.pdf" := File ]>
  (<[ join downloads "archive" := Dir ]>
  (<[ join (join downloads "archive") "old.csv" := File ]> ∅)))).

End Tasks.

(* ===================================================================== *)
(** ** Hook demo suites *)
(* ===================================================================== *)

Module Suites.

Import JS Cy.
Local Open Scope cy_scope.

(** *** The runner *)

(** The variables a [describe] block declares with [let] are its state; hooks
    and tests are closures over them.  A body that throws leaves the
    variables as they were, since every body here assigns last. *)
Section Runner.

Context {St : Type}.

Record test := {
  title : string;
  run : St -> M St
}.

Record suite := {
  initial : St;
  before_ : St -> M St;
  beforeEach : St -> M St;
  afterEach : St -> M St;
  after_ : St -> M St;
  tests : list test
}.

(** What one test did: the calls of its [beforeEach], of its own body and
    of its [afterEach], and the error it failed with, if any. *)
Record report := {
  of_test : string;
  setup_calls : list call;
  body_calls : list call;
  cleanup_calls : list call;
  failure : option error
}.

Definition state_after (s : St) (m : M St) : St :=
  match snd m with inr s' => s' | inl _ => s end.

(** What running [t] from the state [s] reports: [beforeEach], the body
    unless the hook failed, then [afterEach]. *)
Definition report_at (su : suite) (t : test) (s : St) : report :=
  let setup := beforeEach su s in
  match snd setup with
  | inl e =>
      {| of_test := title t; setup_calls := fst setup; body_calls := [];
         cleanup_calls := fst (afterEach su s); failure := Some e |}
  | inr s1 =>
      let body := run t s1 in
      let cleanup := afterEach su (state_after s1 body) in
      {| of_test := title t; setup_calls := fst setup;
         body_calls := fst body; cleanup_calls := fst cleanup;
         failure := match thrown body with
                    | Some e => Some e
                    | None => thrown cleanup
                    end |}
  end.

(** The state [t] leaves behind, and whether a hook failed around it. *)
Definition state_past (su : suite) (t : test) (s : St) : St * bool :=
  let setup := beforeEach su s in
  match snd setup with
  | inl _ => (state_after s (afterEach su s), true)
  | inr s1 =>
      let s2 := state_after s1 (run t s1) in
      let cleanup := afterEach su s2 in
      (state_after s2 cleanup, match snd cleanup with inl _ => true | inr _ => false end)
  end.

(** Tests run in order.  A failing test does not stop the others; a
    failing [beforeEach] or [afterEach] fails the current test and skips
    the rest of the block. *)
Fixpoint run_tests (su : suite) (s : St) (ts : list test) : list report * St :=
  match ts with
  | [] => ([], s)
  | t :: rest =>
      let r := report_at su t s in
      let '(s', hook_failed) := state_past su t s in
      if hook_failed then ([r], s')
      else let '(rs, s'') := run_tests su s' rest in (r :: rs, s'')
  end.

(** A run of the block with the tests [ts]: the reports of the tests that
    ran and the calls of the [after] hook.  When [before] fails no test
    runs; [after] runs in every case. *)
Definition run_suite (su : suite) (ts : list test) : list report * list call :=
  let setup := before_ su (initial su) in
  match snd setup with
  | inl _ => ([], fst (after_ su (initial su)))
  | inr s0 =>
      let '(rs, s) := run_tests su s0 ts in
      (rs, fst (after_ su s))
  end.

Definition reports (su : suite) (ts : list test) : list report := fst (run_suite su ts).
Definition teardown (su : suite) (ts : list test) : list call := snd (run_suite su ts).


End Runner.

Arguments test : clear implicits.
Arguments suite : clear implicits.

(** *** Expectations used by the suites *)

Section Env.

Variable runtime_member : value -> string -> option value.
Variable server : request -> response.

Definition request (method : string) (url : list value) (body : option value)
    : M response :=
  Commands.cy_request server
    {| method := method; url := url; body := body; failOnStatusCode := true |}.

(** [.its('status').should('eq', n)] *)
Definition its_status_should_eq (r : response) (n : Z) : M unit :=
  emit (Its "status") ;; emit (Should "eq" [Num (inject_Z n)]) ;;
  Commands.expect_eq (status r) n.

Definition is_number (v : value) (n : Z) : bool :=
  match v with Num q => Qeq_bool q (inject_Z n) | _ => false end.

(** [.its('body').should('have.property', name, n)] *)
Definition its_body_should_have_property (r : response) (name : string) (n : Z)
    : M unit :=
  emit (Its "body") ;;
  emit (Should "have.property" [Str name; Num (inject_Z n)]) ;;
  if nullish (rbody r) then throw (AssertionError (rbody r) (Str name))
  else if has_member runtime_member (rbody r) name
          && is_number (member runtime_member (rbody r) name) n
  then ret tt
  else throw (AssertionError (rbody r) (Str name)).

(** [expect(body).to.be.an('array').and.have.length.greaterThan(0)] *)
Definition expect_nonempty_array (v : value) : M unit :=
  match v with
  | Arr (_ :: _) => ret tt
  | _ => throw (AssertionError v (Str "array"))
  end.

Definition jsonplaceholder : string := "https://jsonplaceholder.typicode.com".

(** *** [describe('API Hooks Demo (JSONPlaceholder)')] with [createdUserId] *)

Definition users_before (createdUserId : value) : M value :=
  emit (Log [Str "before(): suite-level setup for API tests"]) ;; ret createdUserId.

Definition users_beforeEach (createdUserId : value) : M value :=
  emit (Log [Str "beforeEach(): nothing heavy here; API is stateless for demo"]) ;;
  ret createdUserId.

Definition users_afterEach (createdUserId : value) : M value :=
  emit (Log [Str "afterEach(): per-test cleanup (if needed)"]) ;; ret createdUserId.

Definition users_after (createdUserId : value) : M value :=
  emit (Log [Str "after(): clean up users if created"]) ;;
  if truthy createdUserId then
    r <- request "DELETE" [Str (jsonplaceholder +:+ "/users/"); createdUserId] None ;;
    its_status_should_eq r 200 ;;
    ret createdUserId
  else ret createdUserId.

Definition lists_users (createdUserId : value) : M value :=
  response <- request "GET" [Str (jsonplaceholder +:+ "/users")] None ;;
  Commands.expect_eq (status response) 200 ;;
  expect_nonempty_array (rbody response) ;;
  ret createdUserId.

Definition training_user : value :=
  Obj [("name", Str "Training User"); ("username", Str "trainuser");
       ("email", Str "train@example.com")].

Definition creates_a_user (createdUserId : value) : M value :=
  r <- request "POST" [Str (jsonplaceholder +:+ "/users")] (Some training_user) ;;
  Commands.expect_eq (status r) 201 ;;
  Commands.expect_property runtime_member (rbody r) "id" ;;
  id <- Commands.prop runtime_member (rbody r) "id" ;;
  ret id.

Definition training_user_updated : value :=
  Obj [("name", Str "Training User Updated"); ("username", Str "trainuserupdated");
       ("email", Str "trainupdated@example.com")].

Definition updates_a_user (createdUserId : value) : M value :=
  let id := Num (inject_Z 2) in
  r <- request "PUT" [Str (jsonplaceholder +:+ "/users/"); id]
         (Some training_user_updated) ;;
  its_status_should_eq r 200 ;;
  ret createdUserId.

Definition test_lists_users : test value :=
  {| title := "lists users"; run := lists_users |}.
Definition test_creates_a_user : test value :=
  {| title := "creates a user and captures its id"; run := creates_a_user |}.
Definition test_updates_a_user : test value :=
  {| title := "updates a user (PUT)"; run := updates_a_user |}.

(** [createdUserId] once the test that creates has run from [s]. *)
Definition stored (s : value) : value :=
  state_after s (creates_a_user s).



Definition users_suite : suite value :=
  {| initial := Undefined;
     before_ := users_before;
     beforeEach := users_beforeEach;
     afterEach := users_afterEach;
     after_ := users_after;
     tests := [test_lists_users; test_creates_a_user; test_updates_a_user] |}.

(** *** [describe('API Hooks Demo (JSONPlaceholder)')] with [newPostId] *)

Definition posts_before (newPostId : value) : M value :=
  emit (Log [Str "before(): suite setup - nothing heavy"]) ;; ret newPostId.

Definition posts_beforeEach (newPostId : value) : M value :=
  emit (Log [Str "beforeEach(): ensure API is reachable"]) ;;
  r <- request "GET" [Str (jsonplaceholder +:+ "/posts/1")] None ;;
  its_status_should_eq r 200 ;;
  ret newPostId.

Definition posts_afterEach (newPostId : value) : M value :=
  emit (Log [Str "afterEach(): no per-test cleanup required for this fake API"]) ;;
  ret newPostId.

Definition posts_after (newPostId : value) : M value :=
  emit (Log [Str "after(): reminder - JSONPlaceholder fakes writes only"]) ;;
  ret newPostId.

Definition reads_a_single_resource (newPostId : value) : M value :=
  r <- request "GET" [Str (jsonplaceholder +:+ "/posts/1")] None ;;
  its_body_should_have_property r "id" 1 ;;
  ret newPostId.

Definition my_post : value :=
  Obj [("title", Str "My Post"); ("body", Str "Hello from training");
       ("userId", Num (inject_Z 1))].

Definition creates_a_post (newPostId : value) : M value :=
  r <- request "POST" [Str (jsonplaceholder +:+ "/posts")] (Some my_post) ;;
  Commands.expect_eq (status r) 201 ;;
  Commands.expect_property runtime_member (rbody r) "id" ;;
  id <- Commands.prop runtime_member (rbody r) "id" ;;
  ret id.

Definition updated_post (id : value) : value :=
  Obj [("id", id); ("title", Str "Updated"); ("body", Str "Updated body");
       ("userId", Num (inject_Z 1))].

Definition updates_a_post (newPostId : value) : M value :=
  let id := Num (inject_Z 1) in
  r <- request "PUT" [Str (jsonplaceholder +:+ "/posts/"); id] (Some (updated_post id)) ;;
  its_status_should_eq r 200 ;;
  ret newPostId.

Definition lists_nested_resources (newPostId : value) : M value :=
  response <- request "GET" [Str (jsonplaceholder +:+ "/posts/1/comments")] None ;;
  Commands.expect_eq (status response) 200 ;;
  expect_nonempty_array (rbody response) ;;
  ret newPostId.

Definition posts_suite : suite value :=
  {| initial := Undefined;
     before_ := posts_before;
     beforeEach := posts_beforeEach;
     afterEach := posts_afterEach;
     after_ := posts_after;
     tests := [ {| title := "reads a single resource"; run := reads_a_single_resource |};
                {| title := "creates a post (faked server write)"; run := creates_a_post |};
                {| title := "updates a post (PUT, faked)"; run := updates_a_post |};
                {| title := "lists nested resources (comments for post 1)";
                   run := lists_nested_resources |} ] |}.

End Env.

End Suites.

(* ===================================================================== *)
(** ** CI: Jenkins pipelines and the batch script *)
(* ===================================================================== *)

Module CI.

(** *** Syntax *)

(** A word of a command line: literal text with Groovy ([${x}] inside a
    double-quoted Groovy string) and shell ([${X}] inside the script)
    substitutions.  [Quoted x] is a Groovy [${x}] written between escaped
    double quotes, [\"${x}\"], in the text of a [sh] or [bat] step:
    Groovy splices the value into the script between two double quotes,
    and the shell that runs the script parses the result. *)
Inductive piece : Type :=
| Lit (s : string)
| Groovy (var : string)
| Env (var : string)
| Quoted (var : string).

Definition word : Type := list piece.

Definition lit (s : string) : word := [Lit s].
Definition words (ss : list string) : list word := map lit ss.

(** The tests that guard a branch. *)
Inductive cond : Type :=
| IsUnix                                   (* isUnix() *)
| ParamIs (name value : string)            (* params.NAME == 'value' *)
| ParamNonBlank (name : string)            (* params.NAME?.trim() *)
| And (a b : cond)                         (* a && b *)
| FileExists (path : string)               (* fileExists('path') *)
| TestF (path : string)                    (* [ -f path ] *)
| TestD (path : string)                    (* [ -d path ] *)
| LsFinds (pattern : string)               (* ls pattern >/dev/null 2>&1 *)
| IfExist (path : string).                 (* if exist path *)

(** Statements of a shell or batch script. *)
Inductive sh : Type :=
| Exec (argv : list word)                  (* an external command *)
| Call (argv : list word)                  (* call <command>, in a batch script *)
| Say (msg : string)                       (* echo *)
| True_                                    (* true *)
| SetOptions (flags : string)              (* set -euxo pipefail *)
| Test (c : cond)                          (* [ ... ] used as a command *)
| OrElse (a b : sh)                        (* a || b *)
| AndThen (a b : sh)                       (* a && b *)
| IfThenElse (c : cond) (t e : list sh).

(** Steps of a stage. *)
Inductive step : Type :=
| Echo (msg : word)
| CheckoutScm
| Sh (script : list sh)
| Bat (script : list sh)
| SetVar (var : string) (param : string)   (* def x = params.P, and x = params.P *)
| IfG (c : cond) (t e : list step)         (* if (c) { t } else { e } inside script { } *)
| ArchiveArtifacts (artifacts : string)
| PublishHTML (reportDir reportFiles : string).

Record stage := {
  stage_name : string;
  steps : list step
}.

Record pipeline := {
  environment : list (string * string);
  stages : list stage;
  post_always : list step;
  post_success : list step;
  post_failure : list step
}.

(** *** The files *)

Definition mochawesome_options : string :=
  "reportDir=cypress/reports/mochawesome,overwrite=false,html=true,json=true".

(** The pipeline with build parameters ([SPEC_FILE], [CUSTOM_SPECS]). *)
Definition jenkinsfile_params : pipeline :=
  {| environment := [("CI", "true");
                     ("CYPRESS_CACHE_FOLDER", "${WORKSPACE}/.cypress-cache")];
     stages :=
       [ {| stage_name := "Checkout";
            steps := [Echo (lit "Checking out source code..."); CheckoutScm] |};
         {| stage_name := "Install Dependencies";
            steps :=
              [Echo (lit "Installing npm dependencies...");
               IfG IsUnix
                 [Sh [OrElse (Exec (words ["npm"; "ci"])) (Exec (words ["npm"; "install"]))]]
                 [Bat [OrElse (Exec (words ["npm"; "ci"])) (Exec (words ["npm"; "install"]))]]] |};
         {| stage_name := "Verify Cypress";
            steps :=
              [Echo (lit "Verifying Cypress installation...");
               IfG IsUnix
                 [Sh [Exec (words ["npx"; "cypress"; "verify"])]]
                 [Bat [Exec (words ["npx"; "cypress"; "verify"])]]] |};
         {| stage_name := "Run Cypress Tests";
            steps :=
              [SetVar "specsToRun" "SPEC_FILE";
               IfG (And (ParamIs "SPEC_FILE" "CUSTOM") (ParamNonBlank "CUSTOM_SPECS"))
                 [SetVar "specsToRun" "CUSTOM_SPECS"] [];
               Echo [Lit "Running Cypress tests: "; Groovy "specsToRun"];
               IfG IsUnix
                 [Sh [Exec (words ["npx"; "cypress"; "run"; "--spec"] ++ [[Quoted "specsToRun"]]
                            ++ words ["--reporter"; "mochawesome"; "--reporter-options";
                                      mochawesome_options])]]
                 [Bat [Exec (words ["npx"; "cypress"; "run"; "--spec"] ++ [[Quoted "specsToRun"]]
                             ++ words ["--reporter"; "mochawesome"; "--reporter-options";
                                       mochawesome_options])]]] |} ];
     post_always :=
       [Echo (lit "Archiving test artifacts...");
        ArchiveArtifacts "cypress/videos/**/*.mp4";
        ArchiveArtifacts "cypress/screenshots/**/*.png";
        ArchiveArtifacts "cypress/reports/**/*"];
     post_success := [Echo (lit "All Cypress tests passed successfully!")];
     post_failure := [Echo (lit "Some tests failed. Check the reports and screenshots.")] |}.

(** The NodeJS-tool pipeline of the [Jenkinsfile] without parameters. *)
Definition jenkinsfile_nodejs : pipeline :=
  {| environment := [("CI", "true");
                     ("CYPRESS_CACHE_FOLDER", "${WORKSPACE}/.cypress-cache")];
     stages :=
       [ {| stage_name := "Checkout";
            steps := [Echo (lit "Checking out source code..."); CheckoutScm] |};
         {| stage_name := "Install Dependencies";
            steps :=
              [Echo (lit "Installing npm dependencies...");
               IfG IsUnix
                 [Sh [OrElse (Exec (words ["npm"; "ci"])) (Exec (words ["npm"; "install"]))]]
                 [Bat [OrElse (Exec (words ["npm"; "ci"])) (Exec (words ["npm"; "install"]))]]] |};
         {| stage_name := "Verify Cypress";
            steps :=
              [Echo (lit "Verifying Cypress installation...");
               IfG IsUnix
                 [Sh [Exec (words ["npx"; "cypress"; "verify"])]]
                 [Bat [Exec (words ["npx"; "cypress"; "verify"])]]] |};
         {| stage_name := "Run Cypress Tests";
            steps :=
              [Echo (lit "Running Cypress tests...");
               IfG IsUnix
                 [Sh [Exec (words ["npx"; "cypress"; "run"; "--reporter"; "mochawesome";
                                   "--reporter-options"; mochawesome_options])]]
                 [Bat [Exec (words ["npx"; "cypress"; "run"; "--reporter"; "mochawesome";
                                    "--reporter-options"; mochawesome_options])]]] |};
         {| stage_name := "Run Day 4 Tests Only";
            steps :=
              [Echo (lit "Running Day 4 CI/CD demo tests...");
               IfG IsUnix
                 [Sh [Exec (words ["npx"; "cypress"; "run"; "--spec"; "cypress/e2e/Day4/*.cy.js"])]]
                 [Bat [Exec (words ["npx"; "cypress"; "run"; "--spec"; "cypress/e2e/Day4/*.cy.js"])]]] |} ];
     post_always :=
       [Echo (lit "Archiving test artifacts...");
        ArchiveArtifacts "cypress/videos/**/*.mp4";
        ArchiveArtifacts "cypress/screenshots/**/*.png";
        ArchiveArtifacts "cypress/reports/**/*"];
     post_success := [Echo (lit "All Cypress tests passed successfully!")];
     post_failure := [Echo (lit "Some tests failed. Check the reports and screenshots.")] |}.

(** [npx cypress run] as the Docker pipeline and the batch script spell it. *)
Definition cypress_run_json (baseUrl : word) : sh :=
  Exec (words ["npx"; "cypress"; "run"; "--config"]
        ++ [[Lit "baseUrl="] ++ baseUrl ++ [Lit ",video=true"]]
        ++ words ["--reporter"; "mochawesome"; "--reporter-options";
                  "html=false,json=true,reportDir=cypress/reports"]).

(** The Docker-agent pipeline of the [Jenkinsfile]. *)
Definition jenkinsfile_docker : pipeline :=
  {| environment := [("BASE_URL", "https://example.com");
                     ("NODE_OPTIONS", "--max_old_space_size=4096")];
     stages :=
       [ {| stage_name := "Checkout"; steps := [CheckoutScm] |};
         {| stage_name := "Install Dependencies";
            steps :=
              [Sh [SetOptions "-euxo pipefail";
                   IfThenElse (TestF "package-lock.json")
                     [Exec (words ["npm"; "ci"])]
                     [Exec (words ["npm"; "install"])]]] |};
         {| stage_name := "Run Cypress (Headless + JSON reports)";
            steps :=
              [Sh [SetOptions "-euxo pipefail"; cypress_run_json [Env "BASE_URL"]]] |};
         {| stage_name := "Merge & Generate HTML (Mochawesome)";
            steps :=
              [Sh [SetOptions "-euxo pipefail";
                   IfThenElse (LsFinds "cypress/reports/*.json")
                     [Exec (words ["npx"; "mochawesome-merge"; "cypress/reports/*.json";
                                   ">"; "cypress/reports/merged.json"]);
                      Exec (words ["npx"; "marge"; "cypress/reports/merged.json";
                                   "-o"; "cypress/reports"; "--inline"])]
                     [Say "No Mochawesome JSON reports found to merge."]]] |};
         {| stage_name := "Diagnostics (list files)";
            steps :=
              [Sh [Say "Workspace: $(pwd)";
                   Say "Tree under cypress/:";
                   OrElse (AndThen (Test (TestD "cypress"))
                                   (Exec (words ["ls"; "-la"; "cypress"]))) True_;
                   OrElse (AndThen (Test (TestD "cypress"))
                                   (Exec (words ["find"; "cypress"; "-maxdepth"; "3";
                                                 "-type"; "f"; "-print"]))) True_]] |};
         {| stage_name := "Publish Reports & Artifacts";
            steps :=
              [IfG (FileExists "cypress/reports/mochawesome.html")
                 [PublishHTML "cypress/reports" "mochawesome.html"]
                 [Echo (lit "No mochawesome.html found to publish.")];
               ArchiveArtifacts "cypress/videos/**";
               ArchiveArtifacts "cypress/screenshots/**";
               ArchiveArtifacts "cypress/reports/**"] |} ];
     post_always := [Echo (lit "Build finished; artifacts uploaded.")];
     post_success := [Echo (lit "✅ Cypress pipeline succeeded.")];
     post_failure := [Echo (lit "❌ Cypress pipeline failed. Check reports/videos.")] |}.

(** The install step of the batch script. *)
Definition batch_install : sh :=
  IfThenElse (IfExist "package-lock.json")
    [Say "Found package-lock.json > running npm ci"; Exec (words ["npm"; "ci"])]
    [Say "No package-lock.json > running npm install"; Exec (words ["npm"; "install"])].

(** The Windows batch script.  [REM] lines, [setlocal] and [endlocal] do
    nothing the history records.  Three lines start their command with
    [call]; all other commands are started without. *)
Definition batch_script : list sh :=
  [ Say "=== START Install/Run/Report ===";
    Say "=== Node and NPM versions ===";
    Exec (words ["node"; "-v"]);
    Exec (words ["npm"; "-v"]);
    batch_install;
    OrElse (Call (words ["npm"; "ls"; "mochawesome"]))
           (Exec (words ["npm"; "i"; "-D"; "mochawesome"]));
    OrElse (Call (words ["npm"; "ls"; "mochawesome-merge"]))
           (Exec (words ["npm"; "i"; "-D"; "mochawesome-merge"]));
    OrElse (Call (words ["npm"; "ls"; "mochawesome-report-generator"]))
           (Exec (words ["npm"; "i"; "-D"; "mochawesome-report-generator"]));
    cypress_run_json [Lit "https://example.com"];
    IfThenElse (IfExist "cypress\reports\*.json")
      [Exec (words ["npx"; "mochawesome-merge"; "cypress\reports\*.json";
                    ">"; "cypress\reports\merged.json"]);
       Exec (words ["npx"; "marge"; "cypress\reports\merged.json";
                    "-o"; "cypress\reports"; "--inline"])]
      [Say "No Mochawesome JSON reports found to merge."];
    Say "Workspace: %cd%";
    IfThenElse (IfExist "cypress")
      [Say "=== File tree under cypress ==="; Exec (words ["dir"; "cypress"; "/s"; "/b"])]
      [Say "No cypress folder found in workspace."];
    Exec (words ["mkdir"; "cypress\reports"]);
    Exec (words ["echo"; "dummy"; ">"; "cypress\reports\_dummy.txt"]);
    Say "=== END Install/Run/Report ===" ].

Definition jenkins_pipelines : list pipeline :=
  [jenkinsfile_docker; jenkinsfile_nodejs; jenkinsfile_params].

(** Scripts and steps nest through lists, so their induction principles
    carry [Forall] over the branches. *)
Section NestedInduction.

Variable P : sh -> Prop.
Hypothesis P_Exec : forall argv, P (Exec argv).
Hypothesis P_Call : forall argv, P (Call argv).
Hypothesis P_Say : forall msg, P (Say msg).
Hypothesis P_True : P True_.
Hypothesis P_SetOptions : forall flags, P (SetOptions flags).
Hypothesis P_Test : forall c, P (Test c).
Hypothesis P_OrElse : forall a b, P a -> P b -> P (OrElse a b).
Hypothesis P_AndThen : forall a b, P a -> P b -> P (AndThen a b).
Hypothesis P_IfThenElse : forall c t e, Forall P t -> Forall P e -> P (IfThenElse c t e).

Fixpoint sh_nested_ind (s : sh) : P s :=
  match s with
  | Exec argv => P_Exec argv
  | Call argv => P_Call argv
  | Say msg => P_Say msg
  | True_ => P_True
  | SetOptions flags => P_SetOptions flags
  | Test c => P_Test c
  | OrElse a b => P_OrElse a b (sh_nested_ind a) (sh_nested_ind b)
  | AndThen a b => P_AndThen a b (sh_nested_ind a) (sh_nested_ind b)
  | IfThenElse c t e =>
      P_IfThenElse c t e
        ((fix all (l : list sh) : Forall P l :=
            match l with
            | [] => @List.Forall_nil sh P
            | x :: rest => @List.Forall_cons sh P x rest (sh_nested_ind x) (all rest)
            end) t)
        ((fix all (l : list sh) : Forall P l :=
            match l with
            | [] => @List.Forall_nil sh P
            | x :: rest => @List.Forall_cons sh P x rest (sh_nested_ind x) (all rest)
            end) e)
  end.

Variable Q : step -> Prop.
Hypothesis Q_Echo : forall msg, Q (Echo msg).
Hypothesis Q_CheckoutScm : Q CheckoutScm.
Hypothesis Q_Sh : forall script, Q (Sh script).
Hypothesis Q_Bat : forall script, Q (Bat script).
Hypothesis Q_SetVar : forall x p, Q (SetVar x p).
Hypothesis Q_IfG : forall c t e, Forall Q t -> Forall Q e -> Q (IfG c t e).
Hypothesis Q_ArchiveArtifacts : forall a, Q (ArchiveArtifacts a).
Hypothesis Q_PublishHTML : forall d f, Q (PublishHTML d f).

Fixpoint step_nested_ind (s : step) : Q s :=
  match s with
  | Echo msg => Q_Echo msg
  | CheckoutScm => Q_CheckoutScm
  | Sh script => Q_Sh script
  | Bat script => Q_Bat script
  | SetVar x p => Q_SetVar x p
  | IfG c t e =>
      Q_IfG c t e
        ((fix all (l : list step) : Forall Q l :=
            match l with
            | [] => @List.Forall_nil step Q
            | x :: rest => @List.Forall_cons step Q x rest (step_nested_ind x) (all rest)
            end) t)
        ((fix all (l : list step) : Forall Q l :=
            match l with
            | [] => @List.Forall_nil step Q
            | x :: rest => @List.Forall_cons step Q x rest (step_nested_ind x) (all rest)
            end) e)
  | ArchiveArtifacts a => Q_ArchiveArtifacts a
  | PublishHTML d f => Q_PublishHTML d f
  end.

End NestedInduction.

(** *** Reading the syntax *)

(** The conditions of the [if] statements of a script, outermost first. *)
Fixpoint sh_if_conditions (s : sh) : list cond :=
  match s with
  | OrElse a b | AndThen a b => sh_if_conditions a ++ sh_if_conditions b
  | IfThenElse c t e =>
      c :: flat_map sh_if_conditions t ++ flat_map sh_if_conditions e
  | _ => []
  end.

(** The commands whose exit status decides whether the right-hand side of
    a [||] or [&&] runs. *)
Fixpoint sh_exit_guards (s : sh) : list sh :=
  match s with
  | OrElse a b | AndThen a b => a :: sh_exit_guards a ++ sh_exit_guards b
  | IfThenElse c t e => flat_map sh_exit_guards t ++ flat_map sh_exit_guards e
  | _ => []
  end.

(** The command lines a script can run. *)
Fixpoint sh_commands (s : sh) : list (list word) :=
  match s with
  | Exec argv | Call argv => [argv]
  | OrElse a b | AndThen a b => sh_commands a ++ sh_commands b
  | IfThenElse c t e => flat_map sh_commands t ++ flat_map sh_commands e
  | _ => []
  end.

Fixpoint step_if_conditions (s : step) : list cond :=
  match s with
  | Sh script | Bat script => flat_map sh_if_conditions script
  | IfG c t e => c :: flat_map step_if_conditions t ++ flat_map step_if_conditions e
  | _ => []
  end.

Fixpoint step_exit_guards (s : step) : list sh :=
  match s with
  | Sh script | Bat script => flat_map sh_exit_guards script
  | IfG c t e => flat_map step_exit_guards t ++ flat_map step_exit_guards e
  | _ => []
  end.

Fixpoint step_commands (s : step) : list (list word) :=
  match s with
  | Sh script | Bat script => flat_map sh_commands script
  | IfG c t e => flat_map step_commands t ++ flat_map step_commands e
  | _ => []
  end.

Fixpoint step_has (p : step -> bool) (s : step) : bool :=
  p s || match s with
         | IfG c t e => existsb (step_has p) t || existsb (step_has p) e
         | _ => false
         end.

Definition all_steps (p : pipeline) : list step :=
  flat_map steps (stages p) ++ post_always p ++ post_success p ++ post_failure p.

Definition pipeline_commands (p : pipeline) : list (list word) :=
  flat_map step_commands (all_steps p).

Definition if_conditions (p : pipeline) : list cond :=
  flat_map step_if_conditions (all_steps p).

Definition exit_guards (p : pipeline) : list sh :=
  flat_map step_exit_guards (all_steps p).

(** A condition that only asks whether a file or directory is there. *)
Fixpoint existence_check (c : cond) : bool :=
  match c with
  | FileExists _ | TestF _ | TestD _ | LsFinds _ | IfExist _ => true
  | And a b => existence_check a && existence_check b
  | IsUnix | ParamIs _ _ | ParamNonBlank _ => false
  end.

(** An exit status that only says whether a file or directory is there. *)
Definition existence_guard (s : sh) : bool :=
  match s with
  | Test c => existence_check c
  | _ => false
  end.

(** Does the command line start with these literal words? *)
Fixpoint starts_with (prefix : list string) (argv : list word) : bool :=
  match prefix, argv with
  | [], _ => true
  | p :: ps, [Lit s] :: rest => String.eqb p s && starts_with ps rest
  | _, _ => false
  end.

Definition is_checkout (s : step) : bool :=
  match s with CheckoutScm => true | _ => false end.
Definition is_archive (s : step) : bool :=
  match s with ArchiveArtifacts _ => true | _ => false end.

Definition stage_runs (prefix : list string) (st : stage) : bool :=
  existsb (starts_with prefix) (flat_map step_commands (steps st)).

(** What a stage is for, read off its steps. *)
Inductive stage_kind : Type :=
| Checkout | Install | Verify | Run | Report | Archive | Other.

#[global] Instance stage_kind_eq_dec : EqDecision stage_kind.
Proof. solve_decision. Defined.

Definition kind_of (st : stage) : stage_kind :=
  if existsb (step_has is_checkout) (steps st) then Checkout
  else if stage_runs ["npm"; "ci"] st || stage_runs ["npm"; "install"] st then Install
  else if stage_runs ["npx"; "cypress"; "verify"] st then Verify
  else if stage_runs ["npx"; "cypress"; "run"] st then Run
  else if stage_runs ["npx"; "marge"] st || stage_runs ["npx"; "mochawesome-merge"] st
       then Report
  else if existsb (step_has is_archive) (steps st) then Archive
  else Other.

Definition stage_kinds (p : pipeline) : list stage_kind := map kind_of (stages p).

(** The order the interface description gives. *)
Definition described_order : list stage_kind :=
  [Checkout; Install; Verify; Run; Report; Archive].

(** *** Running a build *)

Inductive action : Type :=
| Entered (stage : string)
| Echoed (msg : string)
| CheckedOut
| Ran (argv : list string)
| Archived (artifacts : string)
| Published (reportFiles : string).

Definition history : Type := list action.

Inductive entry : Type := RegularFile | Directory.

(** How a script statement ended.  [handed_over] says that a batch script
    started another batch file without [call]: [cmd] then goes on with
    what is left of the line or block it has already read, and does not
    come back to the script. *)
Record status := { ok : bool; aborted : bool; handed_over : bool }.

Definition pass : status := {| ok := true; aborted := false; handed_over := false |}.

(** The agent a build runs on.  What is on disk and whether a command
    succeeds may depend on everything the build did so far.  The agent
    also decides which options its [/bin/sh] takes ([set_ok flags]: does
    [set flags] go through; [dash] has no [-o pipefail]), which command
    names are batch files ([npm] and [npx] are, where Node is installed
    the usual way on Windows), and what its shell makes of a line that
    lies outside the part of the shell's syntax modelled below
    ([injected]: the commands run and how the line ended). *)
Record world := {
  unix : bool;
  param : string -> string;
  scm_ok : history -> bool;
  stat : history -> string -> option entry;     (* a path or a glob pattern *)
  succeeds : history -> list string -> bool;
  set_ok : string -> bool;
  batch_file : string -> bool;
  injected : history -> string -> list (list string) * status
}.

Definition lookup_var (vars : list (string * string)) (x : string) : string :=
  match find (fun kv => String.eqb (fst kv) x) vars with
  | Some kv => snd kv
  | None => ""
  end.

(** [s.trim()] is truthy: some character is above the space. *)
Definition nonblank (s : string) : bool :=
  existsb (fun c => (32 <? nat_of_ascii c)%nat) (list_ascii_of_string s).

(** [params.NAME == 'value'] and [params.NAME?.trim()] *)
Definition param_is (w : world) (name value : string) : bool :=
  String.eqb (param w name) value.

Definition param_nonblank (w : world) (name : string) : bool :=
  nonblank (param w name).

(** *** What the shell makes of a spliced value *)

(** The two shells: [/bin/sh] behind the [sh] step, [cmd.exe] behind the
    [bat] step and the batch script. *)
Inductive shell : Type := Posix | Cmd.

Definition shell_of (w : world) : shell := if unix w then Posix else Cmd.

Definition dquote : ascii := "034"%char.

(** A value between double quotes, as Groovy writes it into the script. *)
Definition quote (v : string) : string :=
  String dquote (v +:+ String dquote EmptyString).

Definition blank (c : ascii) : bool :=
  Ascii.eqb c " " || Ascii.eqb c "009".

(** Characters that stand for themselves outside quotes, in either shell:
    letters, digits and a few marks.  Every other character outside quotes
    puts the line outside the part of the syntax modelled here. *)
Definition bare_ordinary (c : ascii) : bool :=
  let n := nat_of_ascii c in
  ((48 <=? n) && (n <=? 57) || (65 <=? n) && (n <=? 90) || (97 <=? n) && (n <=? 122)
   || existsb (Ascii.eqb c) ["/"; "."; "_"; "-"; ":"; "+"; "@"]%char)%nat.

(** Characters that keep their literal value between double quotes: the
    printable ASCII characters other than the double quote itself and, in
    [sh], [$], the backquote and the backslash; in [cmd], [%], [!], [^] and
    the backslash (which the program's own argument parser reads in front
    of a quote). *)
Definition quoted_ordinary (sh : shell) (c : ascii) : bool :=
  let n := nat_of_ascii c in
  ((32 <=? n) && (n <=? 126))%nat && negb (Ascii.eqb c dquote) &&
  negb (existsb (Ascii.eqb c)
          match sh with
          | Posix => ["$"; "`"; "\"]%char
          | Cmd => ["%"; "!"; "^"; "\"]%char
          end).

(** A value that can stand between double quotes as it is. *)
Definition plain (sh : shell) (v : string) : bool :=
  forallb (quoted_ordinary sh) (list_ascii_of_string v).

Definition close_word (cur : option (list ascii)) : list string :=
  match cur with
  | Some cs => [string_of_list_ascii cs]
  | None => []
  end.

(** The words of a stretch of script text: blanks separate words outside
    quotes, and a double quote opens or closes a quoted part of the word
    it stands in.  [cur] is the word being read, if any.  The answer is
    [None] when the text runs into syntax that is not modelled (an
    expansion, an operator, an escape, a quote left open, or in [cmd] two
    quotes in a row). *)
Fixpoint lex (sh : shell) (quoted : bool) (cur : option (list ascii))
    (text : list ascii) : option (list string) :=
  match text with
  | [] => if quoted then None else Some (close_word cur)
  | c :: rest =>
      if quoted then
        if Ascii.eqb c dquote then
          match sh, rest with
          | Cmd, c' :: _ =>
              if Ascii.eqb c' dquote then None else lex sh false cur rest
          | _, _ => lex sh false cur rest
          end
        else if quoted_ordinary sh c
             then lex sh true (Some (default [] cur ++ [c])) rest
             else None
      else
        if blank c then option_map (app (close_word cur)) (lex sh false None rest)
        else if Ascii.eqb c dquote then lex sh true (Some (default [] cur)) rest
        else if bare_ordinary c
             then lex sh false (Some (default [] cur ++ [c])) rest
             else None
  end.

Definition words_of_text (sh : shell) (text : string) : option (list string) :=
  lex sh false None (list_ascii_of_string text).

Definition is_quoted (p : piece) : bool :=
  match p with Quoted _ => true | _ => false end.

(** A command line into which no value is spliced between quotes. *)
Definition quote_free (argv : list word) : bool :=
  forallb (fun wd => negb (existsb is_quoted wd)) argv.

Section Build.

Variable w : world.
Variable envs : list (string * string).

(** What the existence tests ask of the disk. *)
Definition present (h : history) (path : string) : bool :=
  match stat w h path with Some _ => true | None => false end.

Definition regular_file (h : history) (path : string) : bool :=
  match stat w h path with Some RegularFile => true | _ => false end.

Definition directory (h : history) (path : string) : bool :=
  match stat w h path with Some Directory => true | _ => false end.

Fixpoint holds (c : cond) (h : history) : bool :=
  match c with
  | IsUnix => unix w
  | ParamIs name value => param_is w name value
  | ParamNonBlank name => param_nonblank w name
  | And a b => holds a h && holds b h
  | FileExists path | IfExist path | LsFinds path => present h path
  | TestF path => regular_file h path
  | TestD path => directory h path
  end.

(** The text of a word once the substitutions are made. *)
Definition resolve (vars : list (string * string)) (wd : word) : string :=
  String.concat ""
    (map (fun p => match p with
                   | Lit s => s
                   | Groovy x => lookup_var vars x
                   | Env x => lookup_var envs x
                   | Quoted x => quote (lookup_var vars x)
                   end) wd).

(** The words the shell reads where the script has the word [wd]: the
    word itself, unless a value is spliced into it between quotes: then
    they are what the shell makes of the spliced text.  In the scripts the
    spliced word has a blank on either side. *)
Definition words_of (sh : shell) (vars : list (string * string)) (wd : word)
    : option (list string) :=
  if existsb is_quoted wd then words_of_text sh (resolve vars wd)
  else Some [resolve vars wd].

Fixpoint spliced_argv (sh : shell) (vars : list (string * string)) (argv : list word)
    : option (list string) :=
  match argv with
  | [] => Some []
  | wd :: rest =>
      match words_of sh vars wd, spliced_argv sh vars rest with
      | Some a, Some b => Some (a ++ b)
      | _, _ => None
      end
  end.

(** The words of a command line: as written when nothing is spliced
    into it between quotes, and as the shell reads them otherwise. *)
Definition argv_of (sh : shell) (vars : list (string * string)) (argv : list word)
    : option (list string) :=
  if quote_free argv then Some (map (resolve vars) argv)
  else spliced_argv sh vars argv.

(** The word with its values in place and the quotes around them gone. *)
Definition value_of (vars : list (string * string)) (wd : word) : string :=
  String.concat ""
    (map (fun p => match p with
                   | Lit s => s
                   | Groovy x | Quoted x => lookup_var vars x
                   | Env x => lookup_var envs x
                   end) wd).

(** Every spliced word of the line is a quoted value and nothing else,
    and the value can stand between quotes as it is. *)
Definition splice_plain (sh : shell) (vars : list (string * string))
    (argv : list word) : bool :=
  forallb (fun wd => match wd with
                     | [Quoted x] => plain sh (lookup_var vars x)
                     | _ => negb (existsb is_quoted wd)
                     end) argv.

(** The line as the shell receives it. *)
Definition line_text (vars : list (string * string)) (argv : list word) : string :=
  String.concat " " (map (resolve vars) argv).

(** Does [cmd] hand the script over to the command? *)
Definition hands_over (sh : shell) (called : bool) (a : list string) : bool :=
  match sh with
  | Posix => false
  | Cmd => negb called && batch_file w (default "" (head a))
  end.

(** One command line. *)
Definition run_line (vars : list (string * string)) (sh : shell)
    (errexit called : bool) (argv : list word) (h : history) : history * status :=
  match argv_of sh vars argv with
  | Some a =>
      let good := succeeds w h a in
      (h ++ [Ran a],
       {| ok := good; aborted := errexit && negb good;
          handed_over := hands_over sh called a |})
  | None =>
      let '(cmds, st) := injected w h (line_text vars argv) in
      (h ++ map Ran cmds, st)
  end.

(** The status after a statement that follows others in a line or
    block: once handed over, always handed over. *)
Definition after_status (before st : status) : status :=
  {| ok := ok st; aborted := aborted st;
     handed_over := handed_over before || handed_over st |}.

(** The statements of a block in order; an aborting statement ends the
    script.  A block that [cmd] has read is run to its end also after the
    script was handed over.  The status is that of the last statement
    run. *)
Definition seq_sh (run : sh -> history -> history * status)
    : list sh -> history -> status -> history * status :=
  fix go script h last :=
    match script with
    | [] => (h, last)
    | s :: rest =>
        let '(h1, st) := run s h in
        let st := after_status last st in
        if aborted st then (h1, st) else go rest h1 st
    end.

(** The statements of the script itself in order: the script ends with a
    statement that aborts, and with one that hands it over. *)
Definition seq_lines (run : sh -> history -> history * status)
    : list sh -> history -> status -> history * status :=
  fix go script h last :=
    match script with
    | [] => (h, last)
    | s :: rest =>
        let '(h1, st) := run s h in
        if aborted st || handed_over st then (h1, st) else go rest h1 st
    end.

(** One statement.  A failing command aborts under [errexit] unless it is
    the left-hand side of [||] or [&&].  [set] with options the shell does
    not know ends the script whether [errexit] is on or not. *)
Fixpoint eval_sh (vars : list (string * string)) (shl : shell) (errexit : bool)
    (s : sh) (h : history) : history * status :=
  match s with
  | Exec argv => run_line vars shl errexit false argv h
  | Call argv => run_line vars shl errexit true argv h
  | Say msg => (h ++ [Echoed msg], pass)
  | True_ => (h, pass)
  | SetOptions flags =>
      if set_ok w flags then (h, pass)
      else (h, {| ok := false; aborted := true; handed_over := false |})
  | Test c =>
      let good := holds c h in
      (h, {| ok := good; aborted := errexit && negb good; handed_over := false |})
  | OrElse a b =>
      let '(h1, st) := eval_sh vars shl false a h in
      if aborted st then (h1, st)
      else if ok st then (h1, after_status st pass)
      else let '(h2, st2) := eval_sh vars shl errexit b h1 in (h2, after_status st st2)
  | AndThen a b =>
      let '(h1, st) := eval_sh vars shl false a h in
      if aborted st then (h1, st)
      else if ok st
      then let '(h2, st2) := eval_sh vars shl errexit b h1 in (h2, after_status st st2)
      else (h1, after_status st {| ok := false; aborted := false; handed_over := false |})
  | IfThenElse c t e =>
      seq_sh (eval_sh vars shl errexit) (if holds c h then t else e) h pass
  end.

Definition eval_script (vars : list (string * string)) (shl : shell) (errexit : bool)
    (script : list sh) (h : history) : history * status :=
  seq_lines (eval_sh vars shl errexit) script h pass.

(** Steps in order, up to the first one that fails. *)
Definition seq_steps
    (run : step -> list (string * string) -> history ->
           list (string * string) * history * bool)
    : list step -> list (string * string) -> history ->
      list (string * string) * history * bool :=
  fix go l vars h :=
    match l with
    | [] => (vars, h, true)
    | s :: rest =>
        let '(vars1, h1, good) := run s vars h in
        if good then go rest vars1 h1 else (vars1, h1, false)
    end.

(** One step.  Jenkins starts [sh] scripts with [-xe]; a [bat] script
    fails when its last command does. *)
Fixpoint eval_step (s : step) (vars : list (string * string)) (h : history)
    : list (string * string) * history * bool :=
  match s with
  | Echo msg => (vars, h ++ [Echoed (resolve vars msg)], true)
  | CheckoutScm => (vars, h ++ [CheckedOut], scm_ok w h)
  | Sh script =>
      let '(h1, st) := eval_script vars Posix true script h in (vars, h1, ok st)
  | Bat script =>
      let '(h1, st) := eval_script vars Cmd false script h in (vars, h1, ok st)
  | SetVar x p => ((x, param w p) :: vars, h, true)
  | IfG c t e => seq_steps eval_step (if holds c h then t else e) vars h
  | ArchiveArtifacts a => (vars, h ++ [Archived a], true)
  | PublishHTML _ f => (vars, h ++ [Published f], true)
  end.

Definition eval_steps := seq_steps eval_step.

Definition eval_stage (st : stage) (h : history) : history * bool :=
  let '(_, h1, good) := eval_steps (steps st) [] (h ++ [Entered (stage_name st)]) in
  (h1, good).

(** Stages in order; after a failed stage the remaining ones are skipped. *)
Fixpoint eval_stages (l : list stage) (h : history) : history * bool :=
  match l with
  | [] => (h, true)
  | st :: rest =>
      let '(h1, good) := eval_stage st h in
      if good then eval_stages rest h1 else (h1, false)
  end.

End Build.

(** A build of a pipeline: the stages, then [post]: [always] first, then
    [success] or [failure]. *)
Definition build (w : world) (p : pipeline) : history :=
  let envs := environment p in
  let '(h1, good) := eval_stages w envs (stages p) [] in
  let '(_, h2, _) := eval_steps w envs (post_always p) [] h1 in
  let '(_, h3, _) := eval_steps w envs (if good then post_success p else post_failure p) [] h2 in
  h3.

(** A run of the batch script, which has no [errexit]. *)
Definition run_batch (w : world) : history :=
  fst (eval_script w [] [] Cmd false batch_script []).

Definition commands (h : history) : list (list string) :=
  omap (fun a => match a with Ran argv => Some argv | _ => None end) h.

(** The stages a build went into, in order. *)
Definition entered (h : history) : list string :=
  omap (fun a => match a with Entered name => Some name | _ => None end) h.

(** The [npm ci] and [npm install] commands of a history. *)
Definition is_install (argv : list string) : bool :=
  match argv with
  | ["npm"; "ci"] | ["npm"; "install"] => true
  | _ => false
  end.

Definition installs (h : history) : list (list string) :=
  filter (fun argv => is_install argv = true) (commands h).

(** The spec the parameterised pipeline hands to the runner. *)
Definition chosen_specs (w : world) : string :=
  if param_is w "SPEC_FILE" "CUSTOM" && param_nonblank w "CUSTOM_SPECS"
  then param w "CUSTOM_SPECS"
  else param w "SPEC_FILE".

(** The history at the moment a script of the install stage starts. *)
Definition before_install_docker : history :=
  [Entered "Checkout"; CheckedOut; Entered "Install Dependencies"].

Definition before_install_nodejs : history :=
  [Entered "Checkout"; Echoed "Checking out source code..."; CheckedOut;
   Entered "Install Dependencies"; Echoed "Installing npm dependencies..."].

Definition before_install_batch : history :=
  [Echoed "=== START Install/Run/Report ==="; Echoed "=== Node and NPM versions ===";
   Ran ["node"; "-v"]; Ran ["npm"; "-v"]].

(** The invocations of the test runner: [npx cypress run ...]. *)
Definition is_runner (argv : list string) : bool :=
  match argv with
  | "npx" :: "cypress" :: "run" :: _ => true
  | _ => false
  end.

Definition runner_invocations (h : history) : list (list string) :=
  filter (fun argv => is_runner argv = true) (commands h).

(** The option names of an invocation: after [npx cypress run] the words
    come in pairs, an option and its value. *)
Fixpoint option_names (l : list string) : list string :=
  match l with
  | name :: _ :: rest => name :: option_names rest
  | rest => rest
  end.

Definition flags (argv : list string) : list string := option_names (drop 3 argv).

Definition described_flags : list string := ["--spec"; "--reporter"; "--env"].

Definition used_flags : list string :=
  ["--spec"; "--reporter"; "--reporter-options"; "--config"].

Definition subset (xs ys : list string) : bool :=
  forallb (fun x => existsb (String.eqb x) ys) xs.

Definition has_flag (flag : string) (argv : list string) : bool :=
  existsb (String.eqb flag) (flags argv).

(** The build up to and including its [n]-th stage, and the batch script
    up to and including its [n]-th statement. *)
Definition build_through (w : world) (p : pipeline) (n : nat) : history :=
  fst (eval_stages w (environment p) (take n (stages p)) []).

Definition batch_through (w : world) (n : nat) : history :=
  fst (eval_script w [] [] Cmd false (take n batch_script) []).

(** What this repository's CI files do with the runner's options: an
    invocation names the specs or the reporter, and uses no option outside
    [used_flags]. *)
Definition invocation_ok (argv : list string) : bool :=
  (has_flag "--spec" argv || has_flag "--reporter" argv)
  && subset (flags argv) used_flags
  && negb (has_flag "--env" argv).

(** What the interface description says of every invocation. *)
Definition invocation_as_described (argv : list string) : bool :=
  has_flag "--spec" argv && has_flag "--reporter" argv
  && subset (flags argv) described_flags.

(** The runner invocation of the parameterised pipeline for given specs. *)
Definition run_with_specs (specs : string) : list string :=
  ["npx"; "cypress"; "run"; "--spec"; specs; "--reporter"; "mochawesome";
   "--reporter-options"; mochawesome_options].

(** A stretch of history that enters no stage and in which every command
    was run by a command line of [cmds]; when no value is spliced into
    that line between quotes, the command is the line with its
    substitutions filled in somehow. *)
Definition made_of (envs : list (string * string))
    (cmds : list (list word)) (extra : history) : Prop :=
  entered extra = [] /\
  Forall (fun a => exists argv vars,
            In argv cmds /\
            (quote_free argv = true -> a = map (resolve envs vars) argv))
         (commands extra).

(** An agent on which everything works and nothing is on disk yet: its
    shell takes every option, no command is a batch file, and a line
    outside the modelled syntax runs nothing. *)
Definition fresh_agent (on_unix : bool) (params : string -> string) : world :=
  {| unix := on_unix;
     param := params;
     scm_ok := fun _ => true;
     stat := fun _ _ => None;
     succeeds := fun _ _ => true;
     set_ok := fun _ => true;
     batch_file := fun _ => false;
     injected := fun _ _ => ([], pass) |}.

(** The same agent with [dash] for [/bin/sh], as in the Debian images:
    [set -o pipefail] is refused. *)
Definition dash_agent (params : string -> string) : world :=
  {| unix := true;
     param := params;
     scm_ok := fun _ => true;
     stat := fun _ _ => None;
     succeeds := fun _ _ => true;
     set_ok := fun flags => negb (String.eqb flags "-euxo pipefail");
     batch_file := fun _ => false;
     injected := fun _ _ => ([], pass) |}.

(** A Windows agent with Node installed the usual way: [npm] and [npx]
    are batch files. *)
Definition windows_agent (params : string -> string) : world :=
  {| unix := false;
     param := params;
     scm_ok := fun _ => true;
     stat := fun _ _ => None;
     succeeds := fun _ _ => true;
     set_ok := fun _ => true;
     batch_file := fun name => String.eqb name "npm" || String.eqb name "npx";
     injected := fun _ _ => ([], pass) |}.

End CI.

(* ===================================================================== *)
(** ** The other node tasks *)
(* ===================================================================== *)

Module FileTasks.

Import Tasks.

(** [isFileExist(filePath) { return fs.existsSync(filePath) || null }] *)
Definition isFileExist (filePath : path) : T JS.value :=
  bind (existsSync filePath) (fun there =>
  ret (if there then JS.Bool true else JS.Null)).

(** [deleteFile(filePath)] *)
Definition deleteFile (filePath : path) : T string :=
  bind (existsSync filePath) (fun there =>
  if there then bind (unlinkSync filePath) (fun _ => ret "deleted")
  else ret "not found").

(** [getDownloadedFiles(dirPath)] *)
Definition getDownloadedFiles (dirPath : path) : T (list string) :=
  bind (existsSync dirPath) (fun there =>
  if there then readdirSync dirPath else ret []).

(** The file system a task leaves behind. *)
Definition after {A} (m : T A) (s : fs) : fs := fst (m s).

End FileTasks.

(* ===================================================================== *)
(** ** More commands of the support file *)
(* ===================================================================== *)

Module MoreCommands.

Import JS Cy.
Local Open Scope cy_scope.

Definition dq := Commands.dq.

(** What was typed, and whether the command log shows it. *)
Definition typed (cs : list call) : list (value * bool) :=
  omap (fun c => match c with Type_ text log => Some (text, log) | _ => None end) cs.

(** The selectors handed to [cy.get]. *)
Definition gets (cs : list call) : list value :=
  omap (fun c => match c with Get selector => Some selector | _ => None end) cs.

(** The pieces of all log messages. *)
Definition logged (cs : list call) : list value :=
  flat_map (fun c => match c with Log pieces => pieces | _ => [] end) cs.

(** [Cypress.Commands.add('fillForm', (formData) => ...)]: [formData] as
    [Object.entries] walks it. *)
Definition fill_field (entry : string * value) : M unit :=
  let '(selector, value) := entry in
  emit (Get (Str selector)) ;;
  emit (Should "be.visible" []) ;;
  emit Clear ;;
  emit (Type_ value true) ;;
  emit (Log [Str ("  ✓ Filled " +:+ dq); Str selector; Str (dq +:+ " with " +:+ dq);
             value; Str dq]).

Definition fillForm (formData : list (string * value)) : M unit :=
  emit (Log [Str "📝 Filling form with provided data"]) ;;
  Commands.forEach formData fill_field.

Section Env.

Variable runtime_member : value -> string -> option value.
Variable fixtures : string -> option value.
Variable server : request -> response.

(** [Cypress.Commands.add('apiLogin', (userType = 'standard') => ...)], the
    definition of [cypress/support/commands.js] and the first one of the
    command library.  [cy.request] is called without [failOnStatusCode],
    which is then on. *)
Definition apiLogin (userType : option string) : M unit :=
  let userType := default "standard" userType in
  data <- Commands.fixture fixtures "customCommandData" ;;
  users <- Commands.prop runtime_member data "users" ;;
  user <- Commands.prop runtime_member users userType ;;
  emit (Log [Str "🌐 API Login as: "; Str userType]) ;;
  apiEndpoints <- Commands.prop runtime_member data "apiEndpoints" ;;
  users_url <- Commands.prop runtime_member apiEndpoints "users" ;;
  response <- Commands.cy_request server
                {| method := "GET"; url := [users_url]; body := None;
                   failOnStatusCode := true |} ;;
  Commands.expect_eq (status response) 200 ;;
  emit (Log [Str "✓ API authentication simulated"]).

End Env.

End MoreCommands.

(* ===================================================================== *)
(** ** Commands over [Cypress.env] *)
(* ===================================================================== *)

Module Env.

Import JS Cy.
Local Open Scope cy_scope.

Definition dq := Commands.dq.

(** The variables [Cypress.env] holds. *)
Abbreviation store := (gmap string value).

(** [Cypress.env(name)]: [undefined] for a name that is not set. *)
Definition env (vars : store) (name : string) : value :=
  default Undefined (vars !! name).

(** [Cypress.env(name, v)] *)
Definition set_env (vars : store) (name : string) (v : value) : store :=
  <[name := v]> vars.

(** [v !== null] is false exactly here. *)
Definition is_null (v : value) : bool :=
  match v with Null => true | _ => false end.

(** A parameter declared with [= null]: a missing argument and
    [undefined] take the default. *)
Definition or_null (arg : option value) : value :=
  match arg with
  | None | Some Undefined => Null
  | Some v => v
  end.

(** [v === true] *)
Definition is_true (v : value) : bool :=
  match v with Bool true => true | _ => false end.

(** [Cypress.Commands.add('getEnvVariable', (varName, defaultValue = null) => ...)] *)
Definition getEnvVariable (vars : store) (varName : string)
    (defaultValue : option value) : M value :=
  let defaultValue := or_null defaultValue in
  let value := env vars varName in
  if is_undefined value && negb (is_null defaultValue) then
    emit (Log [Str ("Environment variable " +:+ dq); Str varName;
               Str (dq +:+ " not set, using default: "); defaultValue]) ;;
    emit (Wrap defaultValue) ;;
    ret defaultValue
  else
    emit (Log [Str ("Environment variable " +:+ dq); Str varName;
               Str (dq +:+ ": "); value]) ;;
    emit (Wrap value) ;;
    ret value.

Section Runtime.

Variable runtime_member : value -> string -> option value.
Variable server : request -> response.

(** [Cypress.Commands.add('checkFeatureFlag', (flagName) => ...)] *)
Definition checkFeatureFlag (vars : store) (flagName : string) : M value :=
  let featureFlags :=
    if truthy (env vars "featureFlags") then env vars "featureFlags" else Obj [] in
  flag <- Commands.prop runtime_member featureFlags flagName ;;
  let isEnabled := is_true flag in
  emit (Log [Str ("Feature flag " +:+ dq); Str flagName; Str (dq +:+ " is ");
             Str (if isEnabled then "enabled" else "disabled")]) ;;
  emit (Wrap (Bool isEnabled)) ;;
  ret (Bool isEnabled).

(** [Cypress.Commands.add('makeApiRequest', (endpoint, method = 'GET', body = null) => ...)].
    The URL is [apiBaseUrl + endpoint], kept as its two pieces. *)
Definition makeApiRequest (vars : store) (endpoint : string)
    (method : option string) (body : option value) : M response :=
  let method := default "GET" method in
  let body := or_null body in
  let apiBaseUrl := env vars "apiBaseUrl" in
  let url := [apiBaseUrl; Str endpoint] in
  emit (Log ([Str "Making "; Str method; Str " request to: "] ++ url)) ;;
  Commands.cy_request server
    {| Cy.method := method; Cy.url := url;
       Cy.body := if truthy body then Some body else None;
       Cy.failOnStatusCode := false |}.

(** [loginWithEnv()] of the login page object. *)
Definition loginWithEnv (vars : store) : M unit :=
  let username := env vars "LOGIN_USERNAME" in
  let password := env vars "LOGIN_PASSWORD" in
  if negb (truthy username) || negb (truthy password) then
    throw (Error "LOGIN_USERNAME and LOGIN_PASSWORD environment variables must be set")
  else LoginPage.login username password.

End Runtime.

End Env.

(* ===================================================================== *)
(** ** The API request helpers *)
(* ===================================================================== *)

Module Api.

Import JS.

(** Header values are kept as the pieces of their string, as log messages
    are. *)
Abbreviation headers_map := (gmap string (list value)).

(** An options object, as [cy.apiRequest] takes it and as [cy.request]
    takes it; a field that is not there is [None]. *)
Record options := {
  method : option string;
  url : value;
  body : option value;
  headers : option headers_map;
  qs : option (list (string * value));
  timeout : option Z;
  failOnStatusCode : option bool
}.

(** The calls of these commands: those of [Cy], and [cy.request] with a
    full options object. *)
Inductive call : Type :=
| Base (c : Cy.call)
| Sent (o : options).

Definition M (A : Type) : Type := list call * (Cy.error + A).

Definition ret {A} (a : A) : M A := ([], inr a).

Definition bind {A B} (m : M A) (f : A -> M B) : M B :=
  match m with
  | (t, inl e) => (t, inl e)
  | (t, inr a) => let '(t', r) := f a in (t ++ t', r)
  end.

Definition emit (c : Cy.call) : M unit := ([Base c], inr tt).

(** A body written over the calls of [Cy]. *)
Definition lift {A} (m : Cy.M A) : M A := (map Base (fst m), snd m).

Definition calls {A} (m : M A) : list call := fst m.
Definition outcome {A} (m : M A) : Cy.error + A := snd m.

Definition thrown {A} (m : M A) : option Cy.error :=
  match snd m with inl e => Some e | inr _ => None end.

(** The options of the requests among the calls. *)
Definition sent (cs : list call) : list options :=
  omap (fun c => match c with Sent o => Some o | _ => None end) cs.

End Api.

Declare Scope api_scope.
Delimit Scope api_scope with api.
Notation "x <- m ;; k" := (Api.bind m (fun x => k))
  (at level 100, m at next level, right associativity) : api_scope.
Notation "m ;; k" := (Api.bind m (fun _ => k))
  (at level 100, right associativity) : api_scope.

Module ApiCommands.

Import JS Api.
Local Open Scope api_scope.

Abbreviation Log := Cy.Log.
Abbreviation status := Cy.status.
Abbreviation rbody := Cy.rbody.

(** ASCII upper-casing, for the examples. *)
Definition ascii_upper (s : string) : string :=
  string_of_list_ascii
    (map (fun c => let n := nat_of_ascii c in
                   if (97 <=? n)%nat && (n <=? 122)%nat then ascii_of_nat (n - 32) else c)
         (list_ascii_of_string s)).

Section Env.

Variable runtime_member : value -> string -> option value.

(** [String.prototype.toUpperCase], which belongs to the runtime. *)
Variable toUpperCase : string -> string.

(** The server behind [cy.request], and the time it takes to answer. *)
Variable server : options -> Cy.response.
Variable duration : options -> Z.

(** [cy.request(options)]: [failOnStatusCode] is on unless switched off. *)
Definition request (o : options) : M Cy.response :=
  let resp := server o in
  if default true (failOnStatusCode o) && negb (Commands.ok_status (status resp))
  then ([Sent o], inl (Cy.CypressError "request failed on status code"))
  else ([Sent o], inr resp).

(** [{ 'Content-Type': 'application/json', 'Accept': 'application/json' }] *)
Definition default_headers : headers_map :=
  {[ "Content-Type" := [Str "application/json"];
     "Accept" := [Str "application/json"] ]}.

(** [['POST', 'PUT', 'PATCH'].includes(method.toUpperCase())] *)
Definition supports_body (method : string) : bool :=
  existsb (String.eqb (toUpperCase method)) ["POST"; "PUT"; "PATCH"].

(** The [requestConfig] that [apiRequest] builds.  In
    [{ ...defaults, ...headers }] the caller's headers come last and win. *)
Definition requestConfig (o : options) : options :=
  let method := default "GET" (method o) in
  let body := Env.or_null (body o) in
  let headers := default ∅ (headers o) in
  let qs := default [] (qs o) in
  let timeout := default 30000 (timeout o) in
  let failOnStatusCode := default false (failOnStatusCode o) in
  {| method := Some method;
     url := url o;
     headers := Some (headers ∪ default_headers);
     failOnStatusCode := Some failOnStatusCode;
     timeout := Some timeout;
     body := if truthy body && supports_body method then Some body else None;
     qs := match qs with [] => None | _ :: _ => Some qs end |}.

(** [Cypress.Commands.add('apiRequest', (options) => ...)] *)
Definition apiRequest (o : options) : M Cy.response :=
  emit (Log [Str "📡 API "; Str (default "GET" (method o)); Str ": "; url o]) ;;
  response <- request (requestConfig o) ;;
  emit (Log [Str "✅ Response Status: "; Num (inject_Z (status response))]) ;;
  emit (Log [Str "⏱️ Response Time: "; Num (inject_Z (duration (requestConfig o)));
             Str "ms"]) ;;
  emit (Cy.WrapResponse response) ;;
  ret response.

(** The options object of [apiLogin]. *)
Definition login_options (email password : value) (authEndpoint : string) : options :=
  {| method := Some "POST"; url := Str authEndpoint;
     body := Some (Obj [("email", email); ("password", password)]);
     headers := None; qs := None; timeout := None;
     failOnStatusCode := Some false |}.

(** [Cypress.Commands.add('apiLogin', (email, password, authEndpoint = ...) => ...)],
    the second registration of the name: the variables it leaves and the
    subject it yields. *)
Definition apiLogin (vars : Env.store) (email password : value)
    (authEndpoint : option string) : M (Env.store * value) :=
  let authEndpoint := default "https://reqres.in/api/login" authEndpoint in
  emit (Log [Str "🔐 API Login: "; email]) ;;
  response <- request (login_options email password authEndpoint) ;;
  let failed :=
    emit (Log [Str "❌ Login failed - Status: "; Num (inject_Z (status response))]) ;;
    let subject := Obj [("success", Bool false); ("error", rbody response)] in
    emit (Cy.Wrap subject) ;;
    ret (vars, subject) in
  if status response =? 200 then
    token <- lift (Commands.prop runtime_member (rbody response) "token") ;;
    if truthy token then
      stored <- lift (Commands.prop runtime_member (rbody response) "token") ;;
      let vars := Env.set_env vars "authToken" stored in
      emit (Log [Str "✅ Login successful - Token stored"]) ;;
      token <- lift (Commands.prop runtime_member (rbody response) "token") ;;
      let subject := Obj [("success", Bool true); ("token", token)] in
      emit (Cy.Wrap subject) ;;
      ret (vars, subject)
    else failed
  else failed.

(** [{ Authorization: `Bearer ${token}` }] or [{}] *)
Definition authHeaders (token : value) : headers_map :=
  if truthy token then {[ "Authorization" := [Str "Bearer "; token] ]} else ∅.

(** [Cypress.Commands.add('apiAuthRequest', (options) => ...)] *)
Definition apiAuthRequest (vars : Env.store) (o : options) : M Cy.response :=
  let token := Env.env vars "authToken" in
  (if negb (truthy token)
   then emit (Log [Str "⚠️ No auth token found - Proceeding without authentication"])
   else ret tt) ;;
  apiRequest
    {| method := method o; url := url o; body := body o;
       headers := Some (default ∅ (headers o) ∪ authHeaders token);
       qs := qs o; timeout := timeout o; failOnStatusCode := failOnStatusCode o |}.

(** The CRUD wrappers.  An argument that is not passed is [None]. *)
Definition apiCreate (url : value) (data : option value) (headers : option headers_map)
    : M Cy.response :=
  emit (Log [Str "📝 CREATE: "; url]) ;;
  apiRequest {| method := Some "POST"; url := url; body := data;
                headers := Some (default ∅ headers);
                qs := None; timeout := None; failOnStatusCode := None |}.

Definition apiRead (url : value) (queryParams : option (list (string * value)))
    (headers : option headers_map) : M Cy.response :=
  emit (Log [Str "📖 READ: "; url]) ;;
  apiRequest {| method := Some "GET"; url := url; body := None;
                headers := Some (default ∅ headers);
                qs := Some (default [] queryParams);
                timeout := None; failOnStatusCode := None |}.

Definition apiUpdate (url : value) (data : option value) (headers : option headers_map)
    : M Cy.response :=
  emit (Log [Str "✏️ UPDATE (PUT): "; url]) ;;
  apiRequest {| method := Some "PUT"; url := url; body := data;
                headers := Some (default ∅ headers);
                qs := None; timeout := None; failOnStatusCode := None |}.

Definition apiPatch (url : value) (data : option value) (headers : option headers_map)
    : M Cy.response :=
  emit (Log [Str "🔧 PATCH: "; url]) ;;
  apiRequest {| method := Some "PATCH"; url := url; body := data;
                headers := Some (default ∅ headers);
                qs := None; timeout := None; failOnStatusCode := None |}.

Definition apiDelete (url : value) (headers : option headers_map) : M Cy.response :=
  emit (Log [Str "🗑️ DELETE: "; url]) ;;
  apiRequest {| method := Some "DELETE"; url := url; body := None;
                headers := Some (default ∅ headers);
                qs := None; timeout := None; failOnStatusCode := None |}.

(** [cy.apiLogin(email, password)] followed by [cy.apiAuthRequest(options)]. *)
Definition login_then_request (vars : Env.store) (email password : value)
    (o : options) : M Cy.response :=
  logged_in <- apiLogin vars email password None ;;
  apiAuthRequest (fst logged_in) o.

End Env.

End ApiCommands.

(* ===================================================================== *)
(** ** The iframe document *)
(* ===================================================================== *)

Module IframeDocument.

Import Iframe.

(** [.its('0.contentDocument')]: passes once the first element has a
    document.  The [.should('exist')] that follows holds of every
    document. *)
Definition its_0_contentDocument (subject : list element) : option document :=
  match subject with
  | [] => None
  | first :: _ => contentDocument first
  end.

(** One attempt of the chain [get -> its -> should]. *)
Definition attempt (p : page) (iframeSelector : string) : option document :=
  match get p iframeSelector with
  | None => None
  | Some subject => its_0_contentDocument subject
  end.

Fixpoint retry (timeout : nat) (now : nat) (timeline : nat -> page)
    (iframeSelector : string) : option (nat * document) :=
  match timeout with
  | O => None
  | S remaining =>
      match attempt (timeline now) iframeSelector with
      | Some d => Some (now, d)
      | None => retry remaining (S now) timeline iframeSelector
      end
  end.

(** [Cypress.Commands.add('getIframeDocument', (iframeSelector) => ...)] *)
Definition getIframeDocument (timeout : nat) (timeline : nat -> page)
    (iframeSelector : string) : option (nat * document) :=
  retry timeout 0 timeline iframeSelector.

End IframeDocument.

(* ===================================================================== *)
(** ** What a build leaves behind *)
(* ===================================================================== *)

Module Artifacts.

Import CI.

(** The patterns a build archived, and the reports it published. *)
Definition archived (h : history) : list string :=
  omap (fun a => match a with Archived pattern => Some pattern | _ => None end) h.

Definition published (h : history) : list string :=
  omap (fun a => match a with Published files => Some files | _ => None end) h.

Definition echoed (h : history) : list string :=
  omap (fun a => match a with Echoed msg => Some msg | _ => None end) h.

(** The runner's command line in the Docker-agent pipeline and in the
    batch script. *)
Definition runner_argv : list string :=
  ["npx"; "cypress"; "run"; "--config"; "baseUrl=https://example.com,video=true";
   "--reporter"; "mochawesome"; "--reporter-options";
   "html=false,json=true,reportDir=cypress/reports"].

(** An agent on which the runner fails and everything else works. *)
Definition failing_tests (on_unix : bool) : world :=
  {| unix := on_unix;
     param := fun _ => "cypress/e2e/**/*.cy.js";
     scm_ok := fun _ => true;
     stat := fun _ _ => None;
     succeeds := fun _ argv => negb (is_runner argv);
     set_ok := fun _ => true;
     batch_file := fun _ => false;
     injected := fun _ _ => ([], pass) |}.

(** An agent on which [npm ci] and [npm install] fail. *)
Definition failing_install (on_unix : bool) : world :=
  {| unix := on_unix;
     param := fun _ => "cypress/e2e/**/*.cy.js";
     scm_ok := fun _ => true;
     stat := fun _ _ => None;
     succeeds := fun _ argv => negb (is_install argv);
     set_ok := fun _ => true;
     batch_file := fun _ => false;
     injected := fun _ _ => ([], pass) |}.

End Artifacts.

(* ===================================================================== *)
(** * Properties *)
(* ===================================================================== *)

(** ** Login by fixture entry *)

Section LoginFacts.

Import JS Cy.

Variable runtime_member : value -> string -> option value.
Variable fixtures : string -> option value.

Lemma prop_own (props : list (string * value)) (k : string) (v : value) :
  own props k = Some v ->
  Commands.prop runtime_member (Obj props) k = ret v.
Proof. intros H. unfold Commands.prop, member. simpl. now rewrite H. Qed.

Lemma prop_defined (v : value) (k : string) :
  nullish v = false ->
  Commands.prop runtime_member v k = ret (member runtime_member v k).
Proof. intros H. unfold Commands.prop. now rewrite H. Qed.

Lemma truthy_not_nullish (v : value) : truthy v = true -> nullish v = false.
Proof. now destruct v. Qed.

(** A name that is neither an own key nor known to the runtime reads as
    [undefined], which is falsy. *)
Lemma member_absent (props : list (string * value)) (k : string) :
  own props k = None ->
  runtime_member (Obj props) k = None ->
  member runtime_member (Obj props) k = Undefined.
Proof. intros H1 H2. unfold member. now rewrite H1, H2. Qed.

Lemma own_not_key (props : list (string * value)) (k : string) :
  ~ In k (keys props) -> own props k = None.
Proof.
  induction props as [|[k' v] rest IH]; simpl; intros H; [reflexivity|].
  destruct (String.eqb_spec k' k) as [->|Hne].
  - exfalso. apply H. now left.
  - apply IH. intros Hin. apply H. now right.
Qed.

(** An entry that is an object is truthy. *)
Lemma member_object (props : list (string * value)) (k : string)
    (fields : list (string * value)) :
  own props k = Some (Obj fields) ->
  truthy (member runtime_member (Obj props) k) = true.
Proof. intros H. unfold member. now rewrite H. Qed.

Variables (data : list (string * value)) (users : list (string * value)).
Variables (loginPage : value) (credentials : list (string * value)).

Hypothesis customCommandData :
  fixtures "customCommandData" = Some (Obj data).
Hypothesis data_users : own data "users" = Some (Obj users).
Hypothesis data_loginPage : own data "loginPage" = Some loginPage.
Hypothesis loginPage_there : nullish loginPage = false.
Hypothesis selectors_there :
  nullish (member runtime_member loginPage "selectors") = false.
Hypothesis loginCredentials :
  fixtures "loginCredentials" = Some (Obj credentials).

(** What [cy.login(userType)] does, by the value the users map holds for
    [userType]. *)
Lemma login_by_entry (userType : string) :
  let user := member runtime_member (Obj users) userType in
  let selectors := member runtime_member loginPage "selectors" in
  Commands.login runtime_member fixtures (Some userType) =
  if truthy user then
    ([ Fixture "customCommandData";
       Log [Str "🔐 Logging in as: "; Str userType; Str " (";
            member runtime_member user "username"; Str ")"];
       Visit (member runtime_member loginPage "url");
       Get (member runtime_member selectors "usernameInput");
       Should "be.visible" []; Clear;
       Type_ (member runtime_member user "username") true;
       Get (member runtime_member selectors "passwordInput");
       Should "be.visible" []; Clear;
       Type_ (member runtime_member user "password") false;
       Get (member runtime_member selectors "submitButton");
       Should "be.visible" []; Should "not.be.disabled" []; Click;
       Wrap user; As "currentUser" ], inr tt)
  else
    ([Fixture "customCommandData"],
     inl (Error (Commands.missing_user_message userType))).
Proof.
  intros user selectors. unfold Commands.login, Commands.fixture.
  rewrite customCommandData. cbn [default from_option id bind emit ret app].
  rewrite (prop_own _ _ _ data_users). cbn [bind ret app].
  rewrite (prop_defined (Obj users)) by reflexivity. cbn [bind ret app].
  rewrite (prop_own _ _ _ data_loginPage). cbn [bind ret app].
  rewrite (prop_defined loginPage "selectors") by assumption. cbn [bind ret app].
  fold user. fold selectors.
  destruct (truthy user) eqn:Huser; [|reflexivity].
  cbn [negb].
  rewrite !(prop_defined user) by (now apply truthy_not_nullish).
  rewrite (prop_defined loginPage "url") by assumption.
  rewrite !(prop_defined selectors) by assumption.
  reflexivity.
Qed.

(** What [LoginPage.loginWithFixture(userType)] does, by the value the
    credentials fixture holds for [userType]. *)
Lemma loginWithFixture_by_entry (userType : string) :
  let user := member runtime_member (Obj credentials) userType in
  LoginPage.loginWithFixture runtime_member fixtures (Some userType) =
  if truthy user then
    ([ Fixture "loginCredentials";
       Get (Str LoginPage.usernameSelector); First; Clear;
       Type_ (member runtime_member user "username") true;
       Get (Str LoginPage.passwordSelector); First; Clear;
       Type_ (member runtime_member user "password") false;
       Get (Str LoginPage.loginButtonSelector); First; Click ], inr tt)
  else
    ([Fixture "loginCredentials"],
     inl (Error (LoginPage.missing_user_message userType))).
Proof.
  intros user. unfold LoginPage.loginWithFixture, Commands.fixture.
  rewrite loginCredentials. cbn [default from_option id bind emit ret app].
  rewrite (prop_defined (Obj credentials)) by reflexivity. cbn [bind ret app].
  fold user.
  destruct (truthy user) eqn:Huser; [|reflexivity].
  cbn [negb].
  rewrite !(prop_defined user) by (now apply truthy_not_nullish).
  reflexivity.
Qed.

End LoginFacts.

(** C1 (amended).  [cy.login(userType)] and
    [LoginPage.loginWithFixture(userType)] look [userType] up in the users
    map of their fixture.  When the value found is falsy, which is the case
    for every name that is neither a key of the map nor a member the runtime
    supplies, they throw the error that names [userType], and the only call
    made before the throw is the fixture load.  When the value is truthy no
    such error is thrown; [cy.login] then visits the login page, types the
    user name, types the password and clicks submit, while
    [loginWithFixture] types the user name, types the password and clicks
    the login button without visiting any page. *)
Theorem login_commands_by_fixture_entry
    (runtime_member : JS.value -> string -> option JS.value)
    (fixtures : string -> option JS.value)
    (data users credentials : list (string * JS.value)) (loginPage : JS.value)
    (userType : string) :
  fixtures "customCommandData" = Some (JS.Obj data) ->
  JS.own data "users" = Some (JS.Obj users) ->
  JS.own data "loginPage" = Some loginPage ->
  JS.nullish loginPage = false ->
  JS.nullish (JS.member runtime_member loginPage "selectors") = false ->
  fixtures "loginCredentials" = Some (JS.Obj credentials) ->
  let by_command := Commands.login runtime_member fixtures (Some userType) in
  let by_page := LoginPage.loginWithFixture runtime_member fixtures (Some userType) in
  let user := JS.member runtime_member (JS.Obj users) userType in
  let credential := JS.member runtime_member (JS.Obj credentials) userType in
  (if JS.truthy user
   then Cy.thrown by_command = None /\
        Cy.steps (Cy.calls by_command) =
          [ Cy.Visit (JS.member runtime_member loginPage "url");
            Cy.Type_ (JS.member runtime_member user "username") true;
            Cy.Type_ (JS.member runtime_member user "password") false;
            Cy.Click ]
   else by_command =
          ([Cy.Fixture "customCommandData"],
           inl (Cy.Error ("User type " +:+ Commands.dq +:+ userType +:+ Commands.dq
                          +:+ " not found in fixture data"))))
  /\
  (if JS.truthy credential
   then Cy.thrown by_page = None /\
        Cy.steps (Cy.calls by_page) =
          [ Cy.Type_ (JS.member runtime_member credential "username") true;
            Cy.Type_ (JS.member runtime_member credential "password") false;
            Cy.Click ]
   else by_page =
          ([Cy.Fixture "loginCredentials"],
           inl (Cy.Error ("User type " +:+ Commands.dq +:+ userType +:+ Commands.dq
                          +:+ " not found in loginCredentials fixture"))))
  /\
  (~ In userType (JS.keys users) -> runtime_member (JS.Obj users) userType = None ->
   JS.truthy user = false)
  /\
  (~ In userType (JS.keys credentials) ->
   runtime_member (JS.Obj credentials) userType = None ->
   JS.truthy credential = false).
Proof.
  intros Hfx Hu Hlp Hlp' Hsel Hcred by_command by_page user credential.
  pose proof (login_by_entry runtime_member fixtures data users loginPage
                Hfx Hu Hlp Hlp' Hsel userType) as H1.
  pose proof (loginWithFixture_by_entry runtime_member fixtures credentials
                Hcred userType) as H2.
  cbv zeta in H1, H2. fold by_command user in H1. fold by_page credential in H2.
  repeat split.
  - destruct (JS.truthy user); rewrite H1; [split; reflexivity | reflexivity].
  - destruct (JS.truthy credential); rewrite H2; [split; reflexivity | reflexivity].
  - intros Ho Hr. unfold user. now rewrite member_absent by auto using own_not_key.
  - intros Ho Hr. unfold credential. now rewrite member_absent by auto using own_not_key.
Qed.

Lemma login_commands_by_fixture_entry_witness :
  Sample.fixtures "customCommandData" = Some Sample.customCommandData /\
  Cy.thrown (Commands.login JS.plain_runtime Sample.fixtures (Some "admin")) = None /\
  Cy.thrown (LoginPage.loginWithFixture JS.plain_runtime Sample.fixtures (Some "admin"))
    = Some (Cy.Error (LoginPage.missing_user_message "admin")).
Proof.
  split; [reflexivity|].
  destruct (login_commands_by_fixture_entry JS.plain_runtime Sample.fixtures
              _ _ _ _ "admin" eq_refl eq_refl eq_refl eq_refl eq_refl eq_refl)
    as (H1 & H2 & _).
  split.
  - exact (proj1 H1).
  - vm_compute in H2. exact (f_equal Cy.thrown H2).
Defined.

(** C1 as stated fails on the page object: for the key [validUser], which
    the credentials fixture has, [loginWithFixture] completes without ever
    visiting a page; and for the key [guest], which both fixtures have with
    the value [null], both commands throw the missing-user error. *)
Lemma login_present_key_counterexample :
  In "validUser" (JS.keys Sample.credentials) /\
  In "guest" (JS.keys Sample.credentials) /\ In "guest" (JS.keys Sample.users) /\
  Cy.thrown (LoginPage.loginWithFixture JS.plain_runtime Sample.fixtures
               (Some "validUser")) = None /\
  existsb Cy.is_visit
    (Cy.calls (LoginPage.loginWithFixture JS.plain_runtime Sample.fixtures
                 (Some "validUser"))) = false /\
  Cy.thrown (LoginPage.loginWithFixture JS.plain_runtime Sample.fixtures (Some "guest"))
    = Some (Cy.Error (LoginPage.missing_user_message "guest")) /\
  Cy.thrown (Commands.login JS.plain_runtime Sample.fixtures (Some "guest"))
    = Some (Cy.Error (Commands.missing_user_message "guest")).
Proof.
  repeat split; try reflexivity; simpl; tauto.
Qed.

(** Visiting is a step of its own on the page object: with [visit()] in
    front, the four steps are there. *)
Example visit_then_loginWithFixture :
  Cy.steps (Cy.calls (Cy.bind (LoginPage.visit None)
                        (fun _ => LoginPage.loginWithFixture JS.plain_runtime
                                    Sample.fixtures (Some "validUser")))) =
  [ Cy.Visit (JS.Str "/login"); Cy.Type_ (JS.Str "student") true;
    Cy.Type_ (JS.Str "Password123") false; Cy.Click ].
Proof. reflexivity. Qed.

(** A name that objects inherit is not a key of the users map and still
    passes the check: no missing-user error is thrown for [toString]. *)
Example login_inherited_name :
  ~ In "toString" (JS.keys Sample.users) /\
  Cy.thrown (Commands.login JS.plain_runtime Sample.fixtures (Some "toString")) = None.
Proof.
  split; [|reflexivity].
  simpl. intros [H|[H|[H|[]]]]; discriminate.
Qed.

(** The default user types. *)
Example login_default_user :
  Commands.login JS.plain_runtime Sample.fixtures None =
  Commands.login JS.plain_runtime Sample.fixtures (Some "standard").
Proof. reflexivity. Qed.

Example loginWithFixture_default_user :
  LoginPage.loginWithFixture JS.plain_runtime Sample.fixtures None =
  LoginPage.loginWithFixture JS.plain_runtime Sample.fixtures (Some "validUser").
Proof. reflexivity. Qed.

(** ** Validating API helpers *)

Section ApiFacts.

Import JS Cy.

Variable server : request -> response.

Lemma apiGetAndValidate_cases (url : string) (expectedStatus : option Z) :
  let response := server (Commands.get_options url) in
  Commands.apiGetAndValidate server url expectedStatus =
  if status response =? default 200 expectedStatus
  then ([ Log [Str "🌐 GET: "; Str url]; Request (Commands.get_options url);
          Log [Str "✓ Status: "; Num (inject_Z (status response))];
          WrapResponse response ], inr response)
  else ([ Log [Str "🌐 GET: "; Str url]; Request (Commands.get_options url) ],
        inl (AssertionError (Num (inject_Z (status response)))
                            (Num (inject_Z (default 200 expectedStatus))))).
Proof.
  intros response. unfold Commands.apiGetAndValidate, Commands.cy_request.
  fold (Commands.get_options url). fold response.
  cbn [failOnStatusCode Commands.get_options andb bind emit ret app].
  unfold Commands.expect_eq.
  destruct (status response =? default 200 expectedStatus); reflexivity.
Qed.

Lemma apiPostAndValidate_cases (url : string) (payload : value)
    (expectedStatus : option Z) :
  let response := server (Commands.post_options url payload) in
  Commands.apiPostAndValidate server url payload expectedStatus =
  if status response =? default 201 expectedStatus
  then ([ Log [Str "🌐 POST: "; Str url]; Request (Commands.post_options url payload);
          Log [Str "✓ Status: "; Num (inject_Z (status response))];
          WrapResponse response ], inr response)
  else ([ Log [Str "🌐 POST: "; Str url]; Request (Commands.post_options url payload) ],
        inl (AssertionError (Num (inject_Z (status response)))
                            (Num (inject_Z (default 201 expectedStatus))))).
Proof.
  intros response. unfold Commands.apiPostAndValidate, Commands.cy_request.
  fold (Commands.post_options url payload). fold response.
  cbn [failOnStatusCode Commands.post_options andb bind emit ret app].
  unfold Commands.expect_eq.
  destruct (status response =? default 201 expectedStatus); reflexivity.
Qed.

End ApiFacts.

(** C2.  [apiGetAndValidate(url, expectedStatus = 200)] and
    [apiPostAndValidate(url, body, expectedStatus = 201)] issue a single
    request, with [failOnStatusCode] off, and fail exactly when the status
    of the response differs from the expected one; when it is the expected
    one they yield the response, whatever the status class. *)
Theorem api_validate_fails_exactly_on_status_mismatch
    (server : Cy.request -> Cy.response) (url : string) (payload : JS.value)
    (expectedStatus : option Z) :
  let get := Commands.apiGetAndValidate server url expectedStatus in
  let post := Commands.apiPostAndValidate server url payload expectedStatus in
  let got := server (Commands.get_options url) in
  let posted := server (Commands.post_options url payload) in
  Cy.requests (Cy.calls get) = [Commands.get_options url] /\
  Cy.requests (Cy.calls post) = [Commands.post_options url payload] /\
  Cy.failOnStatusCode (Commands.get_options url) = false /\
  Cy.failOnStatusCode (Commands.post_options url payload) = false /\
  (Cy.thrown get <> None <-> Cy.status got <> default 200 expectedStatus) /\
  (Cy.thrown post <> None <-> Cy.status posted <> default 201 expectedStatus) /\
  (Cy.status got = default 200 expectedStatus <-> Cy.outcome get = inr got) /\
  (Cy.status posted = default 201 expectedStatus <-> Cy.outcome post = inr posted).
Proof.
  intros get post got posted.
  pose proof (apiGetAndValidate_cases server url expectedStatus) as Hg.
  pose proof (apiPostAndValidate_cases server url payload expectedStatus) as Hp.
  cbv zeta in Hg, Hp. fold get got in Hg. fold post posted in Hp.
  destruct (Z.eqb_spec (Cy.status got) (default 200 expectedStatus)) as [Eg|Ng];
  destruct (Z.eqb_spec (Cy.status posted) (default 201 expectedStatus)) as [Ep|Np];
    rewrite Hg, Hp; cbn; repeat split; try reflexivity; try easy.
Qed.

(** A 404 that was asked for passes; a 200 that was not asked for fails. *)
Example api_get_expected_404 :
  Cy.outcome (Commands.apiGetAndValidate Sample.not_found "/api/users/23" (Some 404))
  = inr {| Cy.status := 404; Cy.rbody := JS.Obj [] |}.
Proof. reflexivity. Qed.

Example api_get_default_200 :
  Cy.thrown (Commands.apiGetAndValidate Sample.not_found "/api/users/23" None)
  = Some (Cy.AssertionError (JS.Num (inject_Z 404)) (JS.Num (inject_Z 200))).
Proof. reflexivity. Qed.

Example api_post_default_201 :
  Cy.thrown (Commands.apiPostAndValidate Sample.placeholder "/posts" (JS.Obj []) None)
  = None /\
  Cy.thrown (Commands.apiPostAndValidate Sample.placeholder "/posts" (JS.Obj []) (Some 200))
  <> None.
Proof. split; [reflexivity | discriminate]. Qed.

(** ** Schema validation *)

Section MonadFacts.

Import Cy.

Lemma bind_ret_l {A B} (a : A) (f : A -> M B) : bind (ret a) f = f a.
Proof. unfold bind, ret. now destruct (f a). Qed.

Lemma bind_throw {A B} (e : error) (f : A -> M B) : bind (throw e) f = throw e.
Proof. reflexivity. Qed.

Lemma bind_assoc {A B C} (m : M A) (f : A -> M B) (g : B -> M C) :
  bind (bind m f) g = bind m (fun a => bind (f a) g).
Proof.
  destruct m as [t [e|a]]; [reflexivity|]. unfold bind.
  destruct (f a) as [t1 [e1|b]]; [reflexivity|].
  destruct (g b) as [t2 r]. now rewrite app_assoc.
Qed.

End MonadFacts.

Section SchemaFacts.

Import JS Cy.
Local Open Scope cy_scope.

Variable runtime_member : value -> string -> option value.

Local Abbreviation validateSchema := (Commands.validateSchema runtime_member).
Local Abbreviation check_types := (Commands.check_types runtime_member).
Local Abbreviation check_required := (Commands.check_required runtime_member).

(** An array body is judged by its first element alone. *)
Lemma validateSchema_first_element (st st' : Z) (x : value) (rest rest' : list value)
    (schema : Commands.schema) :
  thrown (validateSchema {| status := st; rbody := Arr (x :: rest) |} schema) =
  thrown (validateSchema {| status := st'; rbody := Arr (x :: rest') |} schema).
Proof.
  unfold Commands.validateSchema, thrown.
  cbn [rbody Commands.itemToValidate head default from_option id].
  destruct (check_required x _) as [t1 [e1|[]]]; [reflexivity|].
  destruct (check_types x _) as [t2 [e2|[]]]; reflexivity.
Qed.

(** What decides is the pair of checks on the item. *)
Lemma validateSchema_thrown (response : Cy.response) (schema : Commands.schema) :
  let item := Commands.itemToValidate (rbody response) in
  thrown (validateSchema response schema) =
  thrown (check_required item (default [] (Commands.requiredFields schema)) ;;
          check_types item (default [] (Commands.types schema))).
Proof.
  intros item. unfold Commands.validateSchema, thrown. fold item.
  destruct (check_required item _) as [t1 [e1|[]]]; [reflexivity|].
  destruct (check_types item _) as [t2 [e2|[]]]; reflexivity.
Qed.

(** A field that reads as [undefined] on the item adds nothing to the
    type checks. *)
Lemma check_types_skips_undefined (item : value) (field expectedType : string)
    (before_ after_ : list (string * string)) :
  nullish item = false ->
  member runtime_member item field = Undefined ->
  check_types item (before_ ++ (field, expectedType) :: after_) =
  check_types item (before_ ++ after_).
Proof.
  intros Hitem Hfield. unfold Commands.check_types.
  induction before_ as [|[f ty] rest IH].
  - cbn [app Commands.forEach]. unfold Commands.prop.
    rewrite Hitem, Hfield. rewrite bind_ret_l. cbn [is_undefined negb].
    now rewrite bind_ret_l.
  - cbn [app Commands.forEach]. now rewrite IH.
Qed.

(** On success the subject is handed on as it came. *)
Lemma validateSchema_yields_subject (response : Cy.response) (schema : Commands.schema) :
  match outcome (validateSchema response schema) with
  | inr yielded => yielded = response
  | inl _ => True
  end.
Proof.
  unfold Commands.validateSchema, outcome.
  destruct (Commands.check_required _ _ _) as [t1 [e1|[]]]; [exact I|].
  destruct (Commands.check_types _ _ _) as [t2 [e2|[]]]; [exact I|reflexivity].
Qed.

(** A loop passes exactly when every turn passes. *)
Lemma forEach_passes {A} (xs : list A) (f : A -> M unit) :
  thrown (Commands.forEach xs f) = None <-> Forall (fun x => thrown (f x) = None) xs.
Proof.
  induction xs as [|x rest IH]; cbn [Commands.forEach].
  - split; [constructor | reflexivity].
  - rewrite Forall_cons, <- IH. unfold thrown, bind.
    destruct (f x) as [t [e|[]]]; cbn [snd].
    + split; [discriminate | now intros [? _]].
    + destruct (Commands.forEach rest f) as [t' r]. cbn [snd]. tauto.
Qed.

(** A required field passes exactly when the item has it. *)
Lemma expect_property_passes (item : value) (field : string) :
  thrown (Commands.expect_property runtime_member item field) = None <->
  nullish item = false /\ has_member runtime_member item field = true.
Proof.
  unfold Commands.expect_property, thrown.
  destruct (nullish item); [split; [discriminate | now intros [? _]]|].
  destruct (has_member runtime_member item field); cbn; split;
    first [tauto | discriminate | now intros [_ ?]].
Qed.

(** A typed field passes exactly when it reads as [undefined] or has the
    type. *)
Lemma check_type_passes (item : value) (field expectedType : string) :
  thrown (v <- Commands.prop runtime_member item field ;;
          if negb (is_undefined v)
          then Commands.expect_typeof v expectedType else ret tt) = None <->
  nullish item = false /\
  (member runtime_member item field = Undefined \/
   typeof (member runtime_member item field) = expectedType).
Proof.
  unfold Commands.prop, thrown.
  destruct (nullish item); [split; [discriminate | now intros [? _]]|].
  rewrite bind_ret_l. unfold Commands.expect_typeof.
  destruct (member runtime_member item field) eqn:Hv; cbn [is_undefined negb];
    try (cbn; split; [now split; [|left] | reflexivity]);
    (destruct (String.eqb_spec (typeof (member runtime_member item field)) expectedType)
       as [Hty|Hty]; rewrite Hv in Hty; cbn [typeof] in Hty;
     [ apply String.eqb_eq in Hty; cbn [typeof]; rewrite Hty; cbn;
       apply String.eqb_eq in Hty; split; [now split; [|right] | reflexivity]
     | pose proof Hty as Hne; apply String.eqb_neq in Hty; cbn [typeof]; rewrite Hty; cbn;
       split; [discriminate | intros [_ [?|?]]; [discriminate | contradiction]] ]).
Qed.

(** The command passes exactly when the item has every required field and
    every typed field of it is [undefined] or of its type. *)
Lemma validateSchema_passes (response : Cy.response) (schema : Commands.schema) :
  let item := Commands.itemToValidate (rbody response) in
  thrown (validateSchema response schema) = None <->
  Forall (fun field => nullish item = false /\
                       has_member runtime_member item field = true)
         (default [] (Commands.requiredFields schema)) /\
  Forall (fun entry => nullish item = false /\
                       (member runtime_member item (fst entry) = Undefined \/
                        typeof (member runtime_member item (fst entry)) = snd entry))
         (default [] (Commands.types schema)).
Proof.
  intros item. rewrite validateSchema_thrown. fold item.
  assert (Hreq : thrown (check_required item (default [] (Commands.requiredFields schema)))
                 = None <->
                 Forall (fun field => nullish item = false /\
                                      has_member runtime_member item field = true)
                        (default [] (Commands.requiredFields schema))).
  { unfold Commands.check_required. rewrite forEach_passes.
    apply Forall_iff. intros field. apply expect_property_passes. }
  assert (Hty : thrown (check_types item (default [] (Commands.types schema))) = None <->
                Forall (fun entry => nullish item = false /\
                          (member runtime_member item (fst entry) = Undefined \/
                           typeof (member runtime_member item (fst entry)) = snd entry))
                       (default [] (Commands.types schema))).
  { unfold Commands.check_types. rewrite forEach_passes.
    apply Forall_iff. intros [field expectedType]. apply check_type_passes. }
  rewrite <- Hreq, <- Hty. unfold thrown, bind.
  destruct (check_required item _) as [t [e|[]]]; cbn [snd].
  - split; [discriminate | now intros [? _]].
  - destruct (check_types item _) as [t' r]. cbn [snd]. tauto.
Qed.

End SchemaFacts.

(** C9.  [validateSchema(response, schema)] validates one item.  When the
    body is an array, the verdict is the same whatever follows the first
    element; a field of [schema.types] that reads as [undefined] on the item
    can be dropped from the schema without changing anything the command
    does; and a successful validation yields the response it was given.
    The item is checked against both parts of the schema: the command
    passes exactly when the item has every field of [requiredFields] and
    every field of [types] reads on it as [undefined] or has the type
    listed, so a required field that the first element lacks, or a field
    of it with another type, fails the command. *)
Theorem validateSchema_validates_one_item
    (runtime_member : JS.value -> string -> option JS.value)
    (response : Cy.response) (required : option (list string))
    (field expectedType : string) (before_ after_ : list (string * string)) :
  JS.nullish (Commands.itemToValidate (Cy.rbody response)) = false ->
  JS.member runtime_member (Commands.itemToValidate (Cy.rbody response)) field
    = JS.Undefined ->
  (forall st st' x rest rest' schema,
     Cy.thrown (Commands.validateSchema runtime_member
                  {| Cy.status := st; Cy.rbody := JS.Arr (x :: rest) |} schema) =
     Cy.thrown (Commands.validateSchema runtime_member
                  {| Cy.status := st'; Cy.rbody := JS.Arr (x :: rest') |} schema)) /\
  (forall x rest, Commands.itemToValidate (JS.Arr (x :: rest)) = x) /\
  Commands.validateSchema runtime_member response
    {| Commands.requiredFields := required;
       Commands.types := Some (before_ ++ (field, expectedType) :: after_) |} =
  Commands.validateSchema runtime_member response
    {| Commands.requiredFields := required;
       Commands.types := Some (before_ ++ after_) |} /\
  (forall subject schema,
     match Cy.outcome (Commands.validateSchema runtime_member subject schema) with
     | inr yielded => yielded = subject
     | inl _ => True
     end) /\
  (forall subject schema,
     let item := Commands.itemToValidate (Cy.rbody subject) in
     Cy.thrown (Commands.validateSchema runtime_member subject schema) = None <->
     Forall (fun field => JS.nullish item = false /\
                          JS.has_member runtime_member item field = true)
            (default [] (Commands.requiredFields schema)) /\
     Forall (fun entry => JS.nullish item = false /\
                          (JS.member runtime_member item (fst entry) = JS.Undefined \/
                           JS.typeof (JS.member runtime_member item (fst entry))
                             = snd entry))
            (default [] (Commands.types schema))).
Proof.
  intros Hitem Hfield. split; [|split; [|split; [|split]]].
  - intros. apply validateSchema_first_element.
  - reflexivity.
  - unfold Commands.validateSchema.
    cbn [Commands.types Commands.requiredFields default from_option id].
    now rewrite (check_types_skips_undefined runtime_member _ field expectedType
                   before_ after_ Hitem Hfield).
  - intros. apply validateSchema_yields_subject.
  - intros. apply validateSchema_passes.
Qed.

Lemma validateSchema_validates_one_item_witness :
  JS.member JS.plain_runtime (JS.Obj [("id", JS.Num (inject_Z 1))]) "title"
    = JS.Undefined /\
  Commands.validateSchema JS.plain_runtime
    {| Cy.status := 200;
       Cy.rbody := JS.Arr [JS.Obj [("id", JS.Num (inject_Z 1))]; JS.Str "junk"] |}
    {| Commands.requiredFields := Some ["id"];
       Commands.types := Some ([("id", "number")] ++ ("title", "string") :: []) |} =
  Commands.validateSchema JS.plain_runtime
    {| Cy.status := 200;
       Cy.rbody := JS.Arr [JS.Obj [("id", JS.Num (inject_Z 1))]; JS.Str "junk"] |}
    {| Commands.requiredFields := Some ["id"];
       Commands.types := Some ([("id", "number")] ++ []) |}.
Proof.
  split; [reflexivity|].
  exact (proj1 (proj2 (proj2
    (validateSchema_validates_one_item JS.plain_runtime
       {| Cy.status := 200;
          Cy.rbody := JS.Arr [JS.Obj [("id", JS.Num (inject_Z 1))]; JS.Str "junk"] |}
       (Some ["id"]) "title" "string" [("id", "number")] [] eq_refl eq_refl)))).
Defined.

(** A list whose first element is fine passes although its second element
    is not even an object; the same list the other way round fails. *)
Example validateSchema_later_elements_ignored :
  let good := JS.Obj [("id", JS.Num (inject_Z 1)); ("title", JS.Str "t")] in
  let schema := {| Commands.requiredFields := Some ["id"; "title"];
                   Commands.types := Some [("id", "number"); ("title", "string")] |} in
  Cy.thrown (Commands.validateSchema JS.plain_runtime
               {| Cy.status := 200; Cy.rbody := JS.Arr [good; JS.Null] |} schema) = None /\
  Cy.thrown (Commands.validateSchema JS.plain_runtime
               {| Cy.status := 200; Cy.rbody := JS.Arr [JS.Null; good] |} schema) <> None.
Proof. split; [reflexivity | discriminate]. Qed.

(** A wrong type on a field that is there fails the validation. *)
Example validateSchema_type_mismatch :
  Cy.thrown (Commands.validateSchema JS.plain_runtime
               {| Cy.status := 200; Cy.rbody := JS.Obj [("id", JS.Str "1")] |}
               {| Commands.requiredFields := None;
                  Commands.types := Some [("id", "number")] |})
  = Some (Cy.AssertionError (JS.Str "string") (JS.Str "number")).
Proof. reflexivity. Qed.

(** ** Command registration *)

(** C8.  The support file registers [apiLogin] twice (lines 174 and 536) and
    [uploadFile] twice (lines 828 and 939), so its names are not registered
    exactly once each; after loading, either name dispatches to the later
    definition and the earlier one is unreachable. *)
Theorem support_file_registers_two_names_twice :
  Registry.count "apiLogin" Registry.support_file = 2%nat /\
  Registry.count "uploadFile" Registry.support_file = 2%nat /\
  ~ NoDup (Registry.names Registry.support_file) /\
  Registry.dispatch Registry.support_file "apiLogin" = Some 536%nat /\
  Registry.dispatch Registry.support_file "uploadFile" = Some 939%nat.
Proof.
  split; [reflexivity|]. split; [reflexivity|]. split.
  - apply (proj1 (bool_decide_eq_false _)). vm_compute. reflexivity.
  - split; vm_compute; reflexivity.
Qed.

(** Every other name of the file is registered once. *)
Lemma support_file_other_names_once (name : string) :
  In name (Registry.names Registry.support_file) ->
  name <> "apiLogin" -> name <> "uploadFile" ->
  Registry.count name Registry.support_file = 1%nat.
Proof.
  intros Hin H1 H2. simpl in Hin.
  repeat (destruct Hin as [<-|Hin]; [first [reflexivity | congruence]|]).
  destruct Hin.
Qed.

(** The shorter edition of the file has no duplicate. *)
Lemma commands_js_registers_each_name_once :
  NoDup (Registry.names Registry.commands_js).
Proof. apply (bool_decide_unpack _). vm_compute. reflexivity. Qed.

(** ** Iframe access *)

Section IframeFacts.

Import Iframe.

Variable timeline : nat -> page.
Variable iframeSelector : string.



End IframeFacts.




(** With a timeout that ends before the frame is filled the command fails. *)
Example getIframeBody_times_out :
  Iframe.getIframeBody 2 Iframe.editor_timeline "#mce_0_ifr" = None.
Proof. reflexivity. Qed.

(** ** Clearing the downloads folder *)

Section TaskFacts.

Import Tasks.

Lemma join_inj (dirPath : list string) (a b : string) :
  join dirPath a = join dirPath b -> a = b.
Proof. unfold join. intros H. apply app_inj_tail in H. tauto. Qed.

Lemma child_name_spec (dirPath q : list string) (name : string) :
  child_name dirPath q = Some name <-> q = join dirPath name.
Proof.
  unfold child_name. split.
  - destruct (last q) as [n|]; [|discriminate].
    case_bool_decide; [|discriminate]. now intros [= <-].
  - intros ->. unfold join. rewrite last_snoc.
    now rewrite bool_decide_eq_true_2.
Qed.

Lemma elem_of_entries (s : gmap (list string) kind) (dirPath : list string)
    (name : string) :
  name ∈ entries s dirPath <-> is_Some (s !! join dirPath name).
Proof.
  unfold entries. rewrite list_elem_of_omap. split.
  - intros ([q k] & Hin & Hname). apply elem_of_map_to_list in Hin.
    apply child_name_spec in Hname. subst q. now exists k.
  - intros [k Hk]. exists (join dirPath name, k). split.
    + now apply elem_of_map_to_list.
    + now apply child_name_spec.
Qed.

Lemma NoDup_omap_inj {A B} (f : A -> option B) (l : list A) :
  NoDup l ->
  (forall x y b, x ∈ l -> y ∈ l -> f x = Some b -> f y = Some b -> x = y) ->
  NoDup (omap f l).
Proof.
  induction 1 as [|x l Hx Hl IH]; intros Hinj; [constructor|].
  cbn [omap list_omap]. destruct (f x) as [b|] eqn:Hfx.
  - constructor.
    + rewrite list_elem_of_omap. intros (y & Hy & Hfy).
      assert (x = y) by (eapply Hinj; eauto; [left | now right]).
      now subst y.
    + apply IH. intros y z c Hy Hz. apply Hinj; now right.
  - apply IH. intros y z c Hy Hz. apply Hinj; now right.
Qed.

Lemma NoDup_entries (s : gmap (list string) kind) (dirPath : list string) :
  NoDup (entries s dirPath).
Proof.
  unfold entries. apply NoDup_omap_inj; [apply NoDup_map_to_list|].
  intros [q1 k1] [q2 k2] name H1 H2 Hn1 Hn2.
  apply child_name_spec in Hn1, Hn2. subst q1 q2.
  apply elem_of_map_to_list in H1, H2. congruence.
Qed.

(** One turn of the loop. *)
Lemma clear_entry_there (dirPath : list string) (file : string)
    (s : gmap (list string) kind) (k : kind) :
  s !! join dirPath file = Some k ->
  clear_entry dirPath file s =
  (match k with File => delete (join dirPath file) s | Dir => s end, inr tt).
Proof.
  intros Hk. unfold clear_entry, bind, statSync_isFile, unlinkSync, ret.
  rewrite Hk. destruct k; case_bool_decide; try congruence; now rewrite ?Hk.
Qed.

(** The loop over a list of distinct names that are all there: it ends
    without an error, the regular files among them are gone, and nothing
    else has changed. *)
Lemma forEach_clear_entry (dirPath : list string) (names : list string) :
  forall s : gmap (list string) kind,
  NoDup names ->
  (forall n, n ∈ names -> is_Some (s !! join dirPath n)) ->
  exists s' : gmap (list string) kind,
    forEach names (clear_entry dirPath) s = (s', inr tt) /\
    (forall n, n ∈ names -> s !! join dirPath n = Some File ->
               s' !! join dirPath n = None) /\
    (forall q, ~ (exists n, n ∈ names /\ q = join dirPath n /\ s !! q = Some File) ->
               s' !! q = s !! q).
Proof.
  induction names as [|n rest IH]; intros s Hnd Hall.
  - exists s. split; [reflexivity|]. split; [intros n Hn; inversion Hn | easy].
  - apply NoDup_cons in Hnd as [Hn Hrest].
    destruct (Hall n) as [k Hk]; [left|].
    set (s1 := match k with File => delete (join dirPath n) s | Dir => s end).
    assert (Hsub : forall q x, s1 !! q = Some x -> s !! q = Some x).
    { intros q x. unfold s1. destruct k; [|easy].
      rewrite lookup_delete_Some. tauto. }
    assert (Hother : forall m, m ∈ rest -> s1 !! join dirPath m = s !! join dirPath m).
    { intros m Hm. unfold s1. destruct k; [|reflexivity].
      apply lookup_delete_ne. intros Heq. apply join_inj in Heq. now subst m. }
    destruct (IH s1 Hrest) as (s' & Hrun & Hgone & Hkept).
    { intros m Hm. rewrite Hother by assumption. apply Hall. now right. }
    exists s'. split; [|split].
    + cbn [forEach]. unfold bind at 1.
      rewrite (clear_entry_there _ _ _ _ Hk). exact Hrun.
    + intros m Hm Hfile. apply elem_of_cons in Hm as [->|Hm].
      * rewrite Hkept.
        -- unfold s1. rewrite Hk in Hfile. injection Hfile as ->.
           apply lookup_delete_eq.
        -- intros (m & Hm & Heq & _). apply join_inj in Heq. now subst m.
      * apply Hgone; [assumption|]. now rewrite Hother.
    + intros q Hq. rewrite Hkept.
      * unfold s1. destruct k; [|reflexivity].
        apply lookup_delete_ne. intros <-. apply Hq.
        exists n. split; [left|]. now split.
      * intros (m & Hm & Heq & Hfile). apply Hq.
        exists m. split; [now right|]. split; [assumption|]. now apply Hsub.
Qed.

Lemma is_file_inside_spec (s : gmap (list string) kind) (dirPath q : list string) :
  is_file_inside s dirPath q = true <->
  exists n, n ∈ entries s dirPath /\ q = join dirPath n /\ s !! q = Some File.
Proof.
  unfold is_file_inside. split.
  - destruct (child_name dirPath q) as [n|] eqn:Hn; [|discriminate].
    apply child_name_spec in Hn. subst q.
    destruct (s !! join dirPath n) as [[|]|] eqn:Hq; try discriminate.
    intros _. exists n. split; [|now split].
    apply elem_of_entries. now rewrite Hq.
  - intros (n & _ & -> & Hfile).
    rewrite (proj2 (child_name_spec dirPath _ n) eq_refl). now rewrite Hfile.
Qed.

End TaskFacts.

(** C10.  [clearDownloads(dirPath)] returns 0 and leaves the file system
    alone when [dirPath] is not there.  When it is a directory, the task
    ends without an error; afterwards exactly the regular files directly
    inside it are gone and every other path, in particular every
    subdirectory with all it holds, is as before; and the number returned
    is the number of entries the directory had, subdirectories included. *)
Theorem clearDownloads_deletes_files_and_counts_entries
    (s : gmap (list string) Tasks.kind) (dirPath : list string) :
  match s !! dirPath with
  | None => Tasks.clearDownloads dirPath s = (s, inr 0%nat)
  | Some Tasks.Dir =>
      exists s' : gmap (list string) Tasks.kind,
        Tasks.clearDownloads dirPath s = (s', inr (length (Tasks.entries s dirPath))) /\
        NoDup (Tasks.entries s dirPath) /\
        (forall name, name ∈ Tasks.entries s dirPath <->
                      is_Some (s !! Tasks.join dirPath name)) /\
        (forall q, s' !! q = if Tasks.is_file_inside s dirPath q then None else s !! q) /\
        (forall name below, s !! Tasks.join dirPath name = Some Tasks.Dir ->
                            s' !! (Tasks.join dirPath name ++ below) =
                            s !! (Tasks.join dirPath name ++ below))
  | Some Tasks.File => Tasks.clearDownloads dirPath s = (s, inl Tasks.ENOTDIR)
  end.
Proof.
  destruct (s !! dirPath) as [[|]|] eqn:Hdir.
  - unfold Tasks.clearDownloads, Tasks.bind, Tasks.existsSync, Tasks.readdirSync.
    rewrite Hdir. rewrite bool_decide_eq_true_2 by eauto. cbn [negb].
    now rewrite Hdir.
  - destruct (forEach_clear_entry dirPath (Tasks.entries s dirPath) s
                (NoDup_entries s dirPath)) as (s' & Hrun & Hgone & Hkept).
    { intros n. apply elem_of_entries. }
    assert (Hall : forall q, s' !! q =
                     if Tasks.is_file_inside s dirPath q then None else s !! q).
    { intros q. destruct (Tasks.is_file_inside s dirPath q) eqn:Hq.
      - apply is_file_inside_spec in Hq as (n & Hn & -> & Hfile). now apply Hgone.
      - apply Hkept. intros (n & Hn & Heq & Hfile).
        assert (Tasks.is_file_inside s dirPath q = true)
          by (apply is_file_inside_spec; eauto).
        congruence. }
    exists s'. split; [|split; [apply NoDup_entries|split; [apply elem_of_entries|split]]].
    + unfold Tasks.clearDownloads, Tasks.bind at 1, Tasks.existsSync.
      rewrite bool_decide_eq_true_2 by eauto. cbn [negb].
      unfold Tasks.bind at 1, Tasks.readdirSync. rewrite Hdir.
      unfold Tasks.bind. now rewrite Hrun.
    + exact Hall.
    + intros name below Hsub. rewrite Hall.
      destruct (Tasks.is_file_inside s dirPath _) eqn:Hq; [|reflexivity].
      apply is_file_inside_spec in Hq as (n & _ & Heq & Hfile).
      unfold Tasks.join in Heq. rewrite <- app_assoc in Heq.
      apply app_inv_head in Heq. destruct below; [|destruct below; discriminate].
      injection Heq as ->. rewrite app_nil_r in Hfile. congruence.
  - unfold Tasks.clearDownloads, Tasks.bind, Tasks.existsSync.
    now rewrite Hdir.
Qed.

(** The count can exceed what was deleted: of the two entries of the
    sample folder only the file goes, and the subdirectory keeps its own
    file. *)
Example clearDownloads_counts_subdirectories :
  Tasks.clearDownloads Tasks.downloads Tasks.sample_fs =
    (delete (Tasks.join Tasks.downloads "report.pdf") Tasks.sample_fs, inr 2%nat) /\
  size Tasks.sample_fs = 5%nat /\
  size (delete (Tasks.join Tasks.downloads "report.pdf") Tasks.sample_fs) = 4%nat.
Proof. repeat split; vm_compute; reflexivity. Qed.

Example clearDownloads_missing_folder :
  Tasks.clearDownloads ["cypress"; "nowhere"] Tasks.sample_fs = (Tasks.sample_fs, inr 0%nat).
Proof. reflexivity. Qed.

(** ** Hook suites *)

Section RunnerFacts.

Import Cy Suites.

Context {St : Type}.
Variable su : suite St.

Lemma run_tests_single (t : test St) (s : St) :
  fst (run_tests su s [t]) = [report_at su t s].
Proof. simpl. now destruct (state_past su t s) as [s' []]. Qed.

Lemma run_tests_reports (ts : list (test St)) :
  forall s r, In r (fst (run_tests su s ts)) ->
              exists t s1, In t ts /\ r = report_at su t s1.
Proof.
  induction ts as [|t rest IH]; intros s r; simpl; [tauto|].
  destruct (state_past su t s) as [s' []]; simpl.
  - intros [<-|[]]. exists t, s. split; [now left | reflexivity].
  - destruct (run_tests su s' rest) as [rs s''] eqn:Hrest. simpl.
    intros [<-|Hin].
    + exists t, s. split; [now left | reflexivity].
    + destruct (IH s' r) as (t' & s1 & Ht' & Hr); [now rewrite Hrest|].
      exists t', s1. split; [now right | assumption].
Qed.




End RunnerFacts.

Section SuiteFacts.

Import JS Cy Suites.

Variable runtime_member : value -> string -> option value.
Variable server : Cy.request -> response.

Local Abbreviation users := (users_suite runtime_member server).
Local Abbreviation posts := (posts_suite runtime_member server).
















(** *** The variable of the users suite *)




Local Abbreviation stored := (stored runtime_member server).




End SuiteFacts.

Section TeardownFacts.

Import JS Cy Suites.

Variable runtime_member : value -> string -> option value.
Variable server : Cy.request -> response.




End TeardownFacts.




(** The reports themselves do not change when the tests are reordered. *)
Example users_reports_reordered :
  let users := Suites.users_suite JS.plain_runtime Sample.placeholder in
  Suites.reports users
    [Suites.test_creates_a_user JS.plain_runtime Sample.placeholder;
     Suites.test_lists_users Sample.placeholder]
  = rev (Suites.reports users
           [Suites.test_lists_users Sample.placeholder;
            Suites.test_creates_a_user JS.plain_runtime Sample.placeholder]).
Proof. reflexivity. Qed.

(** ** Builds *)

Section BuildFacts.

Import CI.

Variable w : world.
Variable envs : list (string * string).

Lemma made_of_nil (cmds : list (list word)) : made_of envs cmds [].
Proof. split; [reflexivity | constructor]. Qed.

Lemma made_of_app (cmds : list (list word)) (a b : history) :
  made_of envs cmds a -> made_of envs cmds b -> made_of envs cmds (a ++ b).
Proof.
  intros [Ea Ca] [Eb Cb]. split.
  - unfold entered in *. now rewrite omap_app, Ea, Eb.
  - unfold commands in *. rewrite omap_app. now apply Forall_app.
Qed.

Lemma made_of_incl (cmds cmds' : list (list word)) (a : history) :
  (forall argv, In argv cmds -> In argv cmds') ->
  made_of envs cmds a -> made_of envs cmds' a.
Proof.
  intros Hincl [Ea Ca]. split; [assumption|].
  eapply Forall_impl; [exact Ca|].
  intros x (argv & vars & Hin & Hx). exists argv, vars. split; [now apply Hincl | exact Hx].
Qed.

Lemma made_of_quiet (cmds : list (list word)) (a : action) :
  match a with Entered _ | Ran _ => False | _ => True end ->
  made_of envs cmds [a].
Proof. destruct a; intros H; try contradiction; split; (reflexivity || constructor). Qed.

Lemma made_of_left (cmds cmds' : list (list word)) (a : history) :
  made_of envs cmds a -> made_of envs (cmds ++ cmds') a.
Proof. apply made_of_incl. intros argv Hin. apply in_or_app. now left. Qed.

Lemma made_of_right (cmds cmds' : list (list word)) (a : history) :
  made_of envs cmds' a -> made_of envs (cmds ++ cmds') a.
Proof. apply made_of_incl. intros argv Hin. apply in_or_app. now right. Qed.

(** The commands a spliced line makes the shell run enter no stage. *)
Lemma entered_ran (cmds : list (list string)) : entered (map Ran cmds) = [].
Proof. induction cmds as [|c rest IH]; [reflexivity | exact IH]. Qed.

Lemma commands_ran (cmds : list (list string)) : commands (map Ran cmds) = cmds.
Proof.
  induction cmds as [|c rest IH]; [reflexivity|].
  cbn [map]. unfold commands in *. cbn [omap list_omap]. now rewrite IH.
Qed.

(** One command line adds the commands it runs, and they are its own. *)
Lemma run_line_extends (vars : list (string * string)) (shl : shell)
    (errexit called : bool) (argv : list word) (h : history) :
  exists extra,
    fst (run_line w envs vars shl errexit called argv h) = h ++ extra /\
    made_of envs [argv] extra.
Proof.
  unfold run_line, argv_of.
  destruct (quote_free argv) eqn:Hfree.
  - exists [Ran (map (resolve envs vars) argv)]. split; [reflexivity|].
    split; [reflexivity|]. repeat constructor. exists argv, vars.
    split; [now left | reflexivity].
  - destruct (spliced_argv envs shl vars argv) as [a|].
    + exists [Ran a]. split; [reflexivity|]. split; [reflexivity|].
      repeat constructor. exists argv, vars. split; [now left | congruence].
    + destruct (injected w h (line_text envs vars argv)) as [cmds st].
      exists (map Ran cmds). split; [reflexivity|]. split; [apply entered_ran|].
      rewrite commands_ran. apply Forall_forall. intros a _.
      exists argv, vars. split; [now left | congruence].
Qed.

(** What a script statement adds to the history. *)
Local Abbreviation sh_extends := (fun s : sh =>
  forall vars shl errexit h,
  exists extra, fst (eval_sh w envs vars shl errexit s h) = h ++ extra /\
                made_of envs (sh_commands s) extra).

Lemma seq_sh_extends (vars : list (string * string)) (shl : shell) (errexit : bool)
    (script : list sh) :
  Forall sh_extends script ->
  forall h last,
  exists extra,
    fst (seq_sh (eval_sh w envs vars shl errexit) script h last) = h ++ extra /\
    made_of envs (flat_map sh_commands script) extra.
Proof.
  induction 1 as [|s rest Hs Hrest IH]; intros h last.
  - exists []. split; [now rewrite app_nil_r | apply made_of_nil].
  - cbn [seq_sh flat_map].
    destruct (Hs vars shl errexit h) as (e1 & H1 & M1).
    destruct (eval_sh w envs vars shl errexit s h) as [h1 st]. cbn [fst] in H1. subst h1.
    destruct (aborted (after_status last st)).
    + exists e1. split; [reflexivity | now apply made_of_left].
    + destruct (IH (h ++ e1) (after_status last st)) as (e2 & H2 & M2).
      exists (e1 ++ e2). split; [now rewrite H2, app_assoc|].
      apply made_of_app; [now apply made_of_left | now apply made_of_right].
Qed.

Lemma seq_lines_extends (vars : list (string * string)) (shl : shell) (errexit : bool)
    (script : list sh) :
  Forall sh_extends script ->
  forall h last,
  exists extra,
    fst (seq_lines (eval_sh w envs vars shl errexit) script h last) = h ++ extra /\
    made_of envs (flat_map sh_commands script) extra.
Proof.
  induction 1 as [|s rest Hs Hrest IH]; intros h last.
  - exists []. split; [now rewrite app_nil_r | apply made_of_nil].
  - cbn [seq_lines flat_map].
    destruct (Hs vars shl errexit h) as (e1 & H1 & M1).
    destruct (eval_sh w envs vars shl errexit s h) as [h1 st]. cbn [fst] in H1. subst h1.
    destruct (aborted st || handed_over st).
    + exists e1. split; [reflexivity | now apply made_of_left].
    + destruct (IH (h ++ e1) st) as (e2 & H2 & M2).
      exists (e1 ++ e2). split; [now rewrite H2, app_assoc|].
      apply made_of_app; [now apply made_of_left | now apply made_of_right].
Qed.

Lemma eval_sh_extends (s : sh) : sh_extends s.
Proof.
  induction s as [argv|argv|msg| |flags|c|a b IHa IHb|a b IHa IHb|c t e IHt IHe]
    using sh_nested_ind; intros vars shl errexit h; cbn [eval_sh sh_commands].
  - apply run_line_extends.
  - apply run_line_extends.
  - exists [Echoed msg]. split; [reflexivity | now apply made_of_quiet].
  - exists []. split; [now rewrite app_nil_r | apply made_of_nil].
  - exists []. split; [|apply made_of_nil].
    destruct (set_ok w flags); cbn [fst]; now rewrite app_nil_r.
  - exists []. split; [now rewrite app_nil_r | apply made_of_nil].
  - destruct (IHa vars shl false h) as (e1 & H1 & M1).
    destruct (eval_sh w envs vars shl false a h) as [h1 st]. cbn [fst] in H1. subst h1.
    destruct (aborted st); [|destruct (ok st)].
    + exists e1. split; [reflexivity | now apply made_of_left].
    + exists e1. split; [reflexivity | now apply made_of_left].
    + destruct (IHb vars shl errexit (h ++ e1)) as (e2 & H2 & M2).
      destruct (eval_sh w envs vars shl errexit b (h ++ e1)) as [h2 st2].
      cbn [fst] in *. subst h2.
      exists (e1 ++ e2). split; [now rewrite app_assoc|].
      apply made_of_app; [now apply made_of_left | now apply made_of_right].
  - destruct (IHa vars shl false h) as (e1 & H1 & M1).
    destruct (eval_sh w envs vars shl false a h) as [h1 st]. cbn [fst] in H1. subst h1.
    destruct (aborted st); [|destruct (ok st)].
    + exists e1. split; [reflexivity | now apply made_of_left].
    + destruct (IHb vars shl errexit (h ++ e1)) as (e2 & H2 & M2).
      destruct (eval_sh w envs vars shl errexit b (h ++ e1)) as [h2 st2].
      cbn [fst] in *. subst h2.
      exists (e1 ++ e2). split; [now rewrite app_assoc|].
      apply made_of_app; [now apply made_of_left | now apply made_of_right].
    + exists e1. split; [reflexivity | now apply made_of_left].
  - destruct (holds w c h).
    + destruct (seq_sh_extends vars shl errexit t IHt h pass) as (e1 & H1 & M1).
      exists e1. split; [exact H1 | now apply made_of_left].
    + destruct (seq_sh_extends vars shl errexit e IHe h pass) as (e1 & H1 & M1).
      exists e1. split; [exact H1 | now apply made_of_right].
Qed.

Lemma eval_script_extends (vars : list (string * string)) (shl : shell) (errexit : bool)
    (script : list sh) (h : history) :
  exists extra,
    fst (eval_script w envs vars shl errexit script h) = h ++ extra /\
    made_of envs (flat_map sh_commands script) extra.
Proof.
  apply seq_lines_extends. apply Forall_forall. intros s _. apply eval_sh_extends.
Qed.

(** What a step adds to the history. *)
Local Abbreviation step_extends := (fun s : step =>
  forall vars h,
  exists extra, snd (fst (eval_step w envs s vars h)) = h ++ extra /\
                made_of envs (step_commands s) extra).

Lemma seq_steps_extends (l : list step) :
  Forall step_extends l ->
  forall vars h,
  exists extra,
    snd (fst (seq_steps (eval_step w envs) l vars h)) = h ++ extra /\
    made_of envs (flat_map step_commands l) extra.
Proof.
  induction 1 as [|s rest Hs Hrest IH]; intros vars h.
  - exists []. split; [cbn; now rewrite app_nil_r | apply made_of_nil].
  - cbn [seq_steps flat_map].
    destruct (Hs vars h) as (e1 & H1 & M1).
    destruct (eval_step w envs s vars h) as [[vars1 h1] good]. cbn [fst snd] in H1. subst h1.
    destruct good.
    + destruct (IH vars1 (h ++ e1)) as (e2 & H2 & M2).
      exists (e1 ++ e2). split; [now rewrite H2, app_assoc|].
      apply made_of_app; [now apply made_of_left | now apply made_of_right].
    + exists e1. split; [reflexivity | now apply made_of_left].
Qed.

Lemma eval_step_extends (s : step) : step_extends s.
Proof.
  induction s as [msg| |script|script|x p|c t e IHt IHe|a|d f]
    using step_nested_ind; intros vars h; cbn [eval_step step_commands].
  - eexists [_]. split; [reflexivity | now apply made_of_quiet].
  - exists [CheckedOut]. split; [reflexivity | now apply made_of_quiet].
  - destruct (eval_script_extends vars Posix true script h) as (e1 & H1 & M1).
    destruct (eval_script w envs vars Posix true script h) as [h1 st]. now exists e1.
  - destruct (eval_script_extends vars Cmd false script h) as (e1 & H1 & M1).
    destruct (eval_script w envs vars Cmd false script h) as [h1 st]. now exists e1.
  - exists []. split; [cbn; now rewrite app_nil_r | apply made_of_nil].
  - destruct (holds w c h).
    + destruct (seq_steps_extends t IHt vars h) as (e1 & H1 & M1).
      exists e1. split; [exact H1 | now apply made_of_left].
    + destruct (seq_steps_extends e IHe vars h) as (e1 & H1 & M1).
      exists e1. split; [exact H1 | now apply made_of_right].
  - eexists [_]. split; [reflexivity | now apply made_of_quiet].
  - eexists [_]. split; [reflexivity | now apply made_of_quiet].
Qed.

Lemma eval_steps_extends (l : list step) (vars : list (string * string)) (h : history) :
  exists extra,
    snd (fst (eval_steps w envs l vars h)) = h ++ extra /\
    made_of envs (flat_map step_commands l) extra.
Proof.
  apply seq_steps_extends. apply Forall_forall. intros s _. apply eval_step_extends.
Qed.

(** Stages are entered in the order written, up to the first that fails,
    and run nothing but their own command lines. *)
Lemma eval_stages_extends (l : list stage) :
  forall h,
  exists extra,
    fst (eval_stages w envs l h) = h ++ extra /\
    entered extra `prefix_of` map stage_name l /\
    Forall (fun a => exists argv vars,
              In argv (flat_map step_commands (flat_map steps l)) /\
              (quote_free argv = true -> a = map (resolve envs vars) argv))
           (commands extra).
Proof.
  induction l as [|st rest IH]; intros h.
  - exists []. cbn. rewrite app_nil_r. repeat split; [apply prefix_nil | constructor].
  - cbn [eval_stages flat_map map]. unfold eval_stage.
    destruct (eval_steps_extends (steps st) [] (h ++ [Entered (stage_name st)]))
      as (e1 & H1 & [E1 C1]).
    destruct (eval_steps w envs (steps st) [] (h ++ [Entered (stage_name st)]))
      as [[vars1 h1] good]. cbn [fst snd] in H1. subst h1.
    assert (C1' : Forall (fun a => exists argv vars,
               In argv (flat_map step_commands (steps st ++ flat_map steps rest)) /\
               (quote_free argv = true -> a = map (resolve envs vars) argv))
               (commands e1)).
    { eapply Forall_impl; [exact C1|]. intros a (argv & vars & Hin & Ha).
      exists argv, vars. split; [|exact Ha].
      rewrite flat_map_app. apply in_or_app. now left. }
    destruct good; cbv beta iota zeta.
    + destruct (IH ((h ++ [Entered (stage_name st)]) ++ e1)) as (e2 & H2 & P2 & C2).
      exists (Entered (stage_name st) :: e1 ++ e2). split; [|split].
      * rewrite H2. now rewrite <- !app_assoc.
      * unfold entered in *. cbn [omap list_omap]. rewrite omap_app, E1.
        now apply prefix_cons.
      * unfold commands in *. cbn [omap list_omap]. rewrite omap_app.
        apply Forall_app. split; [exact C1'|].
        eapply Forall_impl; [exact C2|]. intros a (argv & vars & Hin & Ha).
        exists argv, vars. split; [|exact Ha].
        rewrite flat_map_app. apply in_or_app. now right.
    + exists (Entered (stage_name st) :: e1). split; [|split].
      * now rewrite <- app_assoc.
      * unfold entered in *. cbn [omap list_omap]. rewrite E1.
        apply prefix_cons, prefix_nil.
      * exact C1'.
Qed.

End BuildFacts.

Section WholeBuilds.

Import CI.

Variable w : world.

(** A build enters its stages in the order written, and every command it
    runs was run by a command line of the pipeline. *)
Lemma build_extends (p : pipeline) :
  entered (build w p) `prefix_of` map stage_name (stages p) /\
  Forall (fun a => exists argv vars,
            In argv (pipeline_commands p) /\
            (quote_free argv = true -> a = map (resolve (environment p) vars) argv))
         (commands (build w p)).
Proof.
  unfold build, pipeline_commands, all_steps.
  destruct (eval_stages_extends w (environment p) (stages p) []) as (e & He & Pe & Ce).
  destruct (eval_stages w (environment p) (stages p) []) as [h1 good].
  cbn [fst app] in He. subst h1.
  destruct (eval_steps_extends w (environment p) (post_always p) [] e)
    as (e1 & H1 & [E1 C1]).
  destruct (eval_steps w (environment p) (post_always p) [] e) as [[v1 h2] g1].
  cbn [fst snd] in H1. subst h2.
  set (final := if good then post_success p else post_failure p).
  destruct (eval_steps_extends w (environment p) final [] (e ++ e1))
    as (e2 & H2 & [E2 C2]).
  destruct (eval_steps w (environment p) final [] (e ++ e1)) as [[v2 h3] g2].
  cbn [fst snd] in H2. subst h3. split.
  - unfold entered in *. rewrite !omap_app, E1, E2, !app_nil_r. exact Pe.
  - unfold commands in *. rewrite !omap_app, !flat_map_app.
    repeat (apply Forall_app; split).
    + eapply Forall_impl; [exact Ce|]. intros a (argv & vars & Hin & Ha).
      exists argv, vars. split; [|exact Ha]. apply in_or_app. now left.
    + eapply Forall_impl; [exact C1|]. intros a (argv & vars & Hin & Ha).
      exists argv, vars. split; [|exact Ha].
      apply in_or_app. right. apply in_or_app. now left.
    + eapply Forall_impl; [exact C2|]. intros a (argv & vars & Hin & Ha).
      exists argv, vars. split; [|exact Ha].
      apply in_or_app. right. apply in_or_app. right.
      unfold final in Hin. destruct good; apply in_or_app; tauto.
Qed.

Lemma run_batch_extends :
  Forall (fun a => exists argv vars,
            In argv (flat_map sh_commands batch_script) /\
            (quote_free argv = true -> a = map (resolve [] vars) argv))
         (commands (run_batch w)).
Proof.
  unfold run_batch.
  destruct (eval_script_extends w [] [] Cmd false batch_script []) as (e & He & [_ Ce]).
  now rewrite He.
Qed.

(** A property of all the command lines of a pipeline, however their
    substitutions are filled in, holds of every runner invocation of every
    build, as long as no value is spliced into a line between quotes. *)
Lemma runner_invocations_checked (envs : list (string * string))
    (cmds : list (list word)) (h : history) (good : list string -> bool) :
  Forall (fun a => exists argv vars,
            In argv cmds /\ (quote_free argv = true -> a = map (resolve envs vars) argv))
         (commands h) ->
  Forall (fun argv => quote_free argv = true /\
                      forall vars,
                        is_runner (map (resolve envs vars) argv) = true ->
                        good (map (resolve envs vars) argv) = true) cmds ->
  Forall (fun a => good a = true) (runner_invocations h).
Proof.
  intros Hfrom Hcheck. unfold runner_invocations.
  apply Forall_forall. intros a Ha.
  apply list_elem_of_filter in Ha as [Hrun Hin].
  rewrite Forall_forall in Hfrom. destruct (Hfrom a Hin) as (argv & vars & Hargv & Ha).
  rewrite Forall_forall in Hcheck.
  destruct (Hcheck argv) as [Hfree Hgood]; [now apply list_elem_of_In|].
  rewrite (Ha Hfree) in *. now apply Hgood.
Qed.

(** The build through [n] stages is the beginning of the whole build. *)
Lemma eval_stages_take (envs : list (string * string)) (l : list stage) :
  forall n h,
  fst (eval_stages w envs (take n l) h) `prefix_of` fst (eval_stages w envs l h).
Proof.
  induction l as [|st rest IH]; intros n h.
  - rewrite take_nil. reflexivity.
  - destruct n as [|n].
    + destruct (eval_stages_extends w envs (st :: rest) h) as (e & -> & _).
      cbn [take eval_stages fst]. now apply prefix_app_r.
    + cbn [take eval_stages].
      destruct (eval_stage w envs st h) as [h1 []]; [apply IH | reflexivity].
Qed.

Lemma build_through_prefix (p : pipeline) (n : nat) :
  build_through w p n `prefix_of` build w p.
Proof.
  unfold build_through, build.
  pose proof (eval_stages_take (environment p) (stages p) n []) as Htake.
  destruct (eval_stages w (environment p) (stages p) []) as [h1 good].
  cbn [fst] in Htake.
  destruct (eval_steps_extends w (environment p) (post_always p) [] h1) as (e1 & H1 & _).
  destruct (eval_steps w (environment p) (post_always p) [] h1) as [[v1 h2] g1].
  cbn [fst snd] in H1. subst h2.
  set (final := if good then post_success p else post_failure p).
  destruct (eval_steps_extends w (environment p) final [] (h1 ++ e1)) as (e2 & H2 & _).
  destruct (eval_steps w (environment p) final [] (h1 ++ e1)) as [[v2 h3] g2].
  cbn [fst snd] in H2. subst h3.
  etransitivity; [exact Htake|]. rewrite <- app_assoc. now apply prefix_app_r.
Qed.

End WholeBuilds.

(** Normalise a build and split on what the agent decides, in the order in
    which the build asks. *)
Ltac ask_agent :=
  repeat (lazy -[CI.param_is CI.param_nonblank CI.scm_ok CI.succeeds CI.stat CI.unix
                 CI.param CI.present CI.regular_file CI.directory CI.set_ok
                 CI.batch_file CI.injected CI.spliced_argv CI.plain];
          match goal with
          | |- context [CI.scm_ok ?w ?h] => destruct (CI.scm_ok w h)
          | |- context [CI.unix ?w] => destruct (CI.unix w)
          | |- context [CI.set_ok ?w ?f] => destruct (CI.set_ok w f)
          | |- context [CI.batch_file ?w ?n] => destruct (CI.batch_file w n)
          | |- context [CI.present ?w ?h ?p] => destruct (CI.present w h p)
          | |- context [CI.regular_file ?w ?h ?p] => destruct (CI.regular_file w h p)
          | |- context [CI.directory ?w ?h ?p] => destruct (CI.directory w h p)
          | |- context [CI.param_is ?w ?n ?v] => destruct (CI.param_is w n v)
          | |- context [CI.param_nonblank ?w ?n] => destruct (CI.param_nonblank w n)
          | |- context [CI.succeeds ?w ?h ?a] => destruct (CI.succeeds w h a)
          end);
  lazy -[CI.param_is CI.param_nonblank CI.scm_ok CI.succeeds CI.stat CI.unix CI.param
         CI.present CI.regular_file CI.directory CI.set_ok CI.batch_file CI.injected
         CI.spliced_argv CI.plain].

(** C3 as stated fails: none of the three Jenkins pipelines has the stages
    checkout, install, verify, run, report, archive. *)
Lemma no_pipeline_has_the_described_stages :
  Forall (fun p => CI.stage_kinds p <> CI.described_order) CI.jenkins_pipelines.
Proof. repeat constructor; discriminate. Qed.

(** C3 (amended).  Every build of a Jenkins pipeline enters its stages in
    the order in which they are written: the stages entered are always an
    initial segment of the written list.  The Docker-agent pipeline is
    written as checkout, install, run, report, diagnostics, archive, without
    a verify stage; the two NodeJS-tool pipelines are written as checkout,
    install, verify, run (the one without parameters runs a second time for
    Day 4), without a report or an archive stage: they archive in
    [post { always }]. *)
Theorem jenkins_stages_run_in_written_order (w : CI.world) :
  Forall (fun p => CI.entered (CI.build w p) `prefix_of` map CI.stage_name (CI.stages p))
         CI.jenkins_pipelines /\
  CI.stage_kinds CI.jenkinsfile_docker =
    [CI.Checkout; CI.Install; CI.Run; CI.Report; CI.Other; CI.Archive] /\
  CI.stage_kinds CI.jenkinsfile_nodejs =
    [CI.Checkout; CI.Install; CI.Verify; CI.Run; CI.Run] /\
  CI.stage_kinds CI.jenkinsfile_params =
    [CI.Checkout; CI.Install; CI.Verify; CI.Run] /\
  existsb (CI.step_has CI.is_archive) (CI.post_always CI.jenkinsfile_docker) = false /\
  existsb (CI.step_has CI.is_archive) (CI.post_always CI.jenkinsfile_nodejs) = true /\
  existsb (CI.step_has CI.is_archive) (CI.post_always CI.jenkinsfile_params) = true.
Proof.
  split; [|repeat split; reflexivity].
  apply Forall_forall. intros p _. apply build_extends.
Qed.

(** On an agent where everything succeeds all stages are entered. *)
Example docker_build_on_fresh_agent :
  CI.entered (CI.build (CI.fresh_agent true (fun _ => "")) CI.jenkinsfile_docker)
  = map CI.stage_name (CI.stages CI.jenkinsfile_docker).
Proof. reflexivity. Qed.

(** C6 as stated fails: the runner invocation of the Docker-agent pipeline
    has no [--spec] and uses [--config] and [--reporter-options]; the Day 4
    invocation of the NodeJS-tool pipeline has no [--reporter]; and no
    invocation uses [--env]. *)
Lemma invocation_flags_counterexample :
  let agent := CI.fresh_agent true (fun _ => "cypress/e2e/**/*.cy.js") in
  map CI.flags (CI.runner_invocations (CI.build agent CI.jenkinsfile_docker))
    = [["--config"; "--reporter"; "--reporter-options"]] /\
  map CI.flags (CI.runner_invocations (CI.build agent CI.jenkinsfile_nodejs))
    = [["--reporter"; "--reporter-options"]; ["--spec"]] /\
  forallb CI.invocation_as_described
    (CI.runner_invocations (CI.build agent CI.jenkinsfile_docker)) = false /\
  forallb CI.invocation_as_described
    (CI.runner_invocations (CI.build agent CI.jenkinsfile_nodejs)) = false /\
  forallb CI.invocation_as_described (CI.runner_invocations (CI.run_batch agent)) = false.
Proof. repeat split; reflexivity. Qed.

Section SpliceFacts.

Import CI.

Variable envs : list (string * string).

Lemma list_ascii_of_string_append (a b : string) :
  list_ascii_of_string (a +:+ b) = list_ascii_of_string a ++ list_ascii_of_string b.
Proof.
  induction a as [|c a IH]; [reflexivity|].
  change (list_ascii_of_string (String c a +:+ b))
    with (c :: list_ascii_of_string (a +:+ b)).
  now rewrite IH.
Qed.

(** Between quotes, a run of characters that keep their value is read
    into the word as it is. *)
Lemma lex_quoted_run (sh : shell) (l acc rest : list ascii) :
  forallb (quoted_ordinary sh) l = true ->
  lex sh true (Some acc) (l ++ rest) = lex sh true (Some (acc ++ l)) rest.
Proof.
  revert acc. induction l as [|c l IH]; intros acc Hl; [now rewrite app_nil_r|].
  cbn [forallb] in Hl. apply andb_true_iff in Hl as [Hc Hl].
  cbn [app lex]. rewrite Hc.
  assert (Ascii.eqb c dquote = false) as ->.
  { unfold quoted_ordinary in Hc. apply andb_true_iff in Hc as [Hc _].
    apply andb_true_iff in Hc as [_ Hc]. now apply negb_true_iff in Hc. }
  cbn [default from_option id]. rewrite IH by exact Hl.
  now rewrite <- app_assoc.
Qed.

Lemma lex_open (sh : shell) (l : list ascii) :
  lex sh false None (dquote :: l) = lex sh true (Some []) l.
Proof. reflexivity. Qed.

Lemma lex_close (sh : shell) (acc : list ascii) :
  lex sh true (Some acc) [dquote] = Some [string_of_list_ascii acc].
Proof. destruct sh; reflexivity. Qed.

(** A plain value between double quotes is one word: the value. *)
Lemma words_of_text_quote (sh : shell) (v : string) :
  plain sh v = true -> words_of_text sh (quote v) = Some [v].
Proof.
  intros Hv. unfold words_of_text, quote.
  change (list_ascii_of_string (String dquote (v +:+ String dquote EmptyString)))
    with (dquote :: list_ascii_of_string (v +:+ String dquote EmptyString)).
  rewrite list_ascii_of_string_append.
  change (list_ascii_of_string (String dquote EmptyString)) with [dquote].
  rewrite lex_open, lex_quoted_run by exact Hv.
  rewrite lex_close. cbn [app]. now rewrite string_of_list_ascii_of_string.
Qed.

Lemma resolve_value_of (vars : list (string * string)) (wd : word) :
  existsb is_quoted wd = false -> resolve envs vars wd = value_of envs vars wd.
Proof.
  unfold resolve, value_of. intros Hwd. f_equal.
  induction wd as [|p wd IH]; [reflexivity|].
  cbn [existsb] in Hwd. apply orb_false_iff in Hwd as [Hp Hwd].
  cbn [map]. rewrite IH by exact Hwd. now destruct p.
Qed.

Lemma words_of_plain (sh : shell) (vars : list (string * string)) (wd : word) :
  match wd with
  | [Quoted x] => plain sh (lookup_var vars x)
  | _ => negb (existsb is_quoted wd)
  end = true ->
  words_of envs sh vars wd = Some [value_of envs vars wd].
Proof.
  intros Hwd. unfold words_of.
  destruct (existsb is_quoted wd) eqn:Hq.
  - destruct wd as [|[s|x|x|x] [|p rest]]; try discriminate.
    cbn [resolve value_of map String.concat]. now apply words_of_text_quote.
  - now rewrite resolve_value_of.
Qed.

(** A line whose spliced values are plain is read as written, with the
    values in place of the quoted words. *)
Lemma spliced_argv_plain (sh : shell) (vars : list (string * string))
    (argv : list word) :
  splice_plain sh vars argv = true ->
  spliced_argv envs sh vars argv = Some (map (value_of envs vars) argv).
Proof.
  induction argv as [|wd rest IH]; intros Hargv; [reflexivity|].
  unfold splice_plain in Hargv. cbn [forallb] in Hargv.
  apply andb_true_iff in Hargv as [Hwd Hrest].
  cbn [spliced_argv map]. rewrite (words_of_plain sh vars wd Hwd).
  now rewrite (IH Hrest).
Qed.

End SpliceFacts.

(** Read a line into which a plain value is spliced. *)
Ltac read_spliced_line :=
  match goal with
  | H : CI.plain _ _ = true |- context [CI.spliced_argv ?envs ?sh ?vars ?argv] =>
      rewrite (spliced_argv_plain envs sh vars argv)
        by (lazy -[CI.plain CI.param]; rewrite H; reflexivity)
  end.

Section FlagFacts.

Import CI.

(** An invocation that names the specs or the reporter, not both. *)
Local Abbreviation one_of_both := (fun argv : list string =>
  invocation_ok argv && negb (has_flag "--spec" argv && has_flag "--reporter" argv)).

Ltac check_command_lines :=
  repeat first
    [ apply List.Forall_nil
    | apply List.Forall_cons;
      [ split; [reflexivity|]; intros vars;
        lazy -[lookup_var]; first [discriminate | reflexivity | (intros _; reflexivity)]
      | ] ].

Lemma docker_command_lines_ok :
  Forall (fun argv => quote_free argv = true /\ forall vars,
            is_runner (map (resolve (environment jenkinsfile_docker) vars) argv) = true ->
            one_of_both (map (resolve (environment jenkinsfile_docker) vars) argv) = true)
         (pipeline_commands jenkinsfile_docker).
Proof. check_command_lines. Qed.

Lemma nodejs_command_lines_ok :
  Forall (fun argv => quote_free argv = true /\ forall vars,
            is_runner (map (resolve (environment jenkinsfile_nodejs) vars) argv) = true ->
            one_of_both (map (resolve (environment jenkinsfile_nodejs) vars) argv) = true)
         (pipeline_commands jenkinsfile_nodejs).
Proof. check_command_lines. Qed.

Lemma batch_command_lines_ok :
  Forall (fun argv => quote_free argv = true /\ forall vars,
            is_runner (map (resolve [] vars) argv) = true ->
            one_of_both (map (resolve [] vars) argv) = true)
         (flat_map sh_commands batch_script).
Proof. check_command_lines. Qed.

Lemma one_of_both_spec (argv : list string) :
  one_of_both argv = true ->
  invocation_ok argv = true /\
  (has_flag "--spec" argv && has_flag "--reporter" argv) = false.
Proof.
  intros H. apply andb_true_iff in H as [Hok Hnot].
  split; [exact Hok | now apply negb_true_iff].
Qed.

Variable w : world.

(** The parameterised pipeline has no command in [post]: the runner is
    invoked by its four stages. *)
Lemma params_build_invocations :
  runner_invocations (build w jenkinsfile_params)
  = runner_invocations (build_through w jenkinsfile_params 4).
Proof.
  unfold build, build_through.
  change (take 4 (stages jenkinsfile_params)) with (stages jenkinsfile_params).
  destruct (eval_stages w (environment jenkinsfile_params) (stages jenkinsfile_params) [])
    as [reached good].
  unfold runner_invocations, commands.
  destruct good;
    cbn [post_always post_success post_failure jenkinsfile_params eval_steps seq_steps
         eval_step fst];
    rewrite !omap_app; cbn [omap list_omap]; now rewrite !app_nil_r.
Qed.

(** With a plain value for the specs, the runner is handed that value as
    one word. *)
Lemma params_runner_invocations :
  plain (shell_of w) (chosen_specs w) = true ->
  Forall (fun argv => argv = run_with_specs (chosen_specs w))
         (runner_invocations (build_through w jenkinsfile_params 4)).
Proof.
  intros Hplain. revert Hplain.
  ask_agent; intros Hplain; try read_spliced_line; ask_agent; repeat constructor.
Qed.

End FlagFacts.

(** C6 (amended).  In every build of the Docker-agent pipeline and of the
    NodeJS-tool pipeline without parameters, and in every run of the batch
    script, each invocation of the test runner passes [--spec] or
    [--reporter], never both, and its options are among [--spec],
    [--reporter], [--reporter-options] and [--config]; [--env] is not
    passed.  The parameterised pipeline splices the chosen specs into its
    command line between double quotes.  When that value is plain (it has
    no double quote and no character the shell reads specially between
    double quotes), its invocations pass both [--spec] and [--reporter],
    with options from the same four and without [--env]; they are the only
    invocations that pass both. *)
Theorem runner_invocations_use_spec_or_reporter (w : CI.world) :
  Forall (fun argv => CI.invocation_ok argv = true /\
                      (CI.has_flag "--spec" argv && CI.has_flag "--reporter" argv) = false)
         (CI.runner_invocations (CI.build w CI.jenkinsfile_docker)) /\
  Forall (fun argv => CI.invocation_ok argv = true /\
                      (CI.has_flag "--spec" argv && CI.has_flag "--reporter" argv) = false)
         (CI.runner_invocations (CI.build w CI.jenkinsfile_nodejs)) /\
  (CI.plain (CI.shell_of w) (CI.chosen_specs w) = true ->
   Forall (fun argv => (CI.invocation_ok argv && CI.has_flag "--spec" argv
                        && CI.has_flag "--reporter" argv) = true)
          (CI.runner_invocations (CI.build w CI.jenkinsfile_params))) /\
  Forall (fun argv => CI.invocation_ok argv = true /\
                      (CI.has_flag "--spec" argv && CI.has_flag "--reporter" argv) = false)
         (CI.runner_invocations (CI.run_batch w)).
Proof.
  split; [|split; [|split]].
  - eapply Forall_impl; [|exact one_of_both_spec].
    eapply runner_invocations_checked;
      [apply build_extends | apply docker_command_lines_ok].
  - eapply Forall_impl; [|exact one_of_both_spec].
    eapply runner_invocations_checked;
      [apply build_extends | apply nodejs_command_lines_ok].
  - intros Hplain. rewrite params_build_invocations.
    eapply Forall_impl; [exact (params_runner_invocations w Hplain)|].
    intros argv ->. reflexivity.
  - eapply Forall_impl; [|exact one_of_both_spec].
    eapply runner_invocations_checked;
      [apply run_batch_extends | apply batch_command_lines_ok].
Qed.

Lemma runner_invocations_use_spec_or_reporter_witness :
  let agent := CI.fresh_agent true (fun _ => "cypress/e2e/Day2/*.cy.js") in
  CI.plain (CI.shell_of agent) (CI.chosen_specs agent) = true /\
  CI.runner_invocations (CI.build agent CI.jenkinsfile_params)
    = [CI.run_with_specs "cypress/e2e/Day2/*.cy.js"] /\
  Forall (fun argv => (CI.invocation_ok argv && CI.has_flag "--spec" argv
                       && CI.has_flag "--reporter" argv) = true)
         (CI.runner_invocations (CI.build agent CI.jenkinsfile_params)).
Proof.
  intros agent. split; [reflexivity|]. split; [reflexivity|].
  exact (proj1 (proj2 (proj2 (runner_invocations_use_spec_or_reporter agent))) eq_refl).
Defined.

(** A value with a double quote in it ends the quoted word early: what
    follows the quote is read as further words of the command line.  With
    [CUSTOM_SPECS] set to [a.cy.js" --env "x=1] the runner is handed
    [--env x=1]. *)
Example quoted_specs_add_options :
  let specs := "a.cy.js" +:+ String CI.dquote (" --env " +:+ String CI.dquote "x=1") in
  let agent :=
    CI.fresh_agent true (fun name => if String.eqb name "SPEC_FILE" then "CUSTOM" else specs) in
  CI.chosen_specs agent = specs /\
  CI.plain (CI.shell_of agent) specs = false /\
  CI.runner_invocations (CI.build agent CI.jenkinsfile_params)
    = [["npx"; "cypress"; "run"; "--spec"; "a.cy.js"; "--env"; "x=1";
        "--reporter"; "mochawesome"; "--reporter-options"; CI.mochawesome_options]] /\
  forallb CI.invocation_ok (CI.runner_invocations (CI.build agent CI.jenkinsfile_params))
    = false.
Proof. repeat split; reflexivity. Qed.

(** C4 as stated fails on the NodeJS-tool pipelines: the parameterised one
    has [if]s that are not existence checks; two agents with the same disk
    and different build parameters are handed different specs; and two
    agents with the same disk on which [npm ci] succeeds and fails run
    different install commands. *)
Lemma branches_beyond_existence_counterexample :
  let day2 := CI.fresh_agent true (fun _ => "cypress/e2e/Day2/*.cy.js") in
  let day3 := CI.fresh_agent true (fun _ => "cypress/e2e/Day3/*.cy.js") in
  let broken_ci :=
    {| CI.unix := true; CI.param := fun _ => "cypress/e2e/Day2/*.cy.js";
       CI.scm_ok := fun _ => true; CI.stat := fun _ _ => None;
       CI.succeeds := fun _ argv => negb (CI.is_install argv && existsb (String.eqb "ci") argv);
       CI.set_ok := fun _ => true; CI.batch_file := fun _ => false;
       CI.injected := fun _ _ => ([], CI.pass) |} in
  forallb CI.existence_check (CI.if_conditions CI.jenkinsfile_params) = false /\
  CI.stat day2 = CI.stat day3 /\
  CI.runner_invocations (CI.build day2 CI.jenkinsfile_params)
    = [CI.run_with_specs "cypress/e2e/Day2/*.cy.js"] /\
  CI.runner_invocations (CI.build day3 CI.jenkinsfile_params)
    = [CI.run_with_specs "cypress/e2e/Day3/*.cy.js"] /\
  CI.stat day2 = CI.stat broken_ci /\
  CI.installs (CI.build day2 CI.jenkinsfile_params) = [["npm"; "ci"]] /\
  CI.installs (CI.build broken_ci CI.jenkinsfile_params)
    = [["npm"; "ci"]; ["npm"; "install"]].
Proof. repeat split; reflexivity. Qed.

(** C4 (amended).  In the Docker-agent pipeline and in the batch script
    every [if] is an existence check, and where their install step is
    reached, whether [npm ci] or [npm install] runs is decided by whether
    [package-lock.json] is there.  It is not always reached: in the
    Docker-agent pipeline the install script starts with
    [set -euxo pipefail] and runs neither command under a [/bin/sh] that
    refuses these options; the batch script starts [node] and [npm]
    without [call] before it, and does not get to the install step when
    either is a batch file.  In the two NodeJS-tool pipelines no [if] is
    an existence check: they branch on [isUnix()] and on the build
    parameters; their install stage runs [npm install] exactly when
    [npm ci] has failed; and the parameterised pipeline passes on
    [CUSTOM_SPECS] when [SPEC_FILE] is [CUSTOM] and [CUSTOM_SPECS] is not
    blank, and [SPEC_FILE] otherwise: when that value is plain, the runner
    is handed it as its one spec.  The [||] and [&&] lists of all four
    files are decided by the exit status of their left-hand side, which is
    an existence test only for the [[ -d cypress ] &&] of the diagnostics
    stage. *)
Theorem existence_checks_decide_docker_and_batch_only (w : CI.world) :
  forallb CI.existence_check (CI.if_conditions CI.jenkinsfile_docker) = true /\
  forallb CI.existence_check (flat_map CI.sh_if_conditions CI.batch_script) = true /\
  forallb (fun c => negb (CI.existence_check c))
    (CI.if_conditions CI.jenkinsfile_nodejs ++ CI.if_conditions CI.jenkinsfile_params)
    = true /\
  map CI.existence_guard (CI.exit_guards CI.jenkinsfile_docker)
    = [false; true; false; true] /\
  forallb (fun g => negb (CI.existence_guard g))
    (flat_map CI.sh_exit_guards CI.batch_script
     ++ CI.exit_guards CI.jenkinsfile_nodejs ++ CI.exit_guards CI.jenkinsfile_params)
    = true /\
  CI.installs (CI.build_through w CI.jenkinsfile_docker 2) =
    (if CI.scm_ok w [CI.Entered "Checkout"]
     then if CI.set_ok w "-euxo pipefail"
          then [if CI.regular_file w CI.before_install_docker "package-lock.json"
                then ["npm"; "ci"] else ["npm"; "install"]]
          else []
     else []) /\
  CI.installs (CI.batch_through w 5) =
    (if CI.batch_file w "node" then []
     else if CI.batch_file w "npm" then []
     else [if CI.present w CI.before_install_batch "package-lock.json"
           then ["npm"; "ci"] else ["npm"; "install"]]) /\
  Forall (fun p =>
            CI.installs (CI.build_through w p 2) =
            if CI.scm_ok w [CI.Entered "Checkout"; CI.Echoed "Checking out source code..."]
            then (if CI.succeeds w CI.before_install_nodejs ["npm"; "ci"]
                  then [["npm"; "ci"]]
                  else [["npm"; "ci"]; ["npm"; "install"]])
            else [])
         [CI.jenkinsfile_nodejs; CI.jenkinsfile_params] /\
  (CI.plain (CI.shell_of w) (CI.chosen_specs w) = true ->
   Forall (fun argv => argv = CI.run_with_specs (CI.chosen_specs w))
          (CI.runner_invocations (CI.build_through w CI.jenkinsfile_params 4))).
Proof.
  do 5 (split; [reflexivity|]).
  split; [|split; [|split]].
  - ask_agent; reflexivity.
  - ask_agent; reflexivity.
  - repeat constructor; ask_agent; reflexivity.
  - apply params_runner_invocations.
Qed.

Lemma existence_checks_decide_docker_and_batch_only_witness :
  let agent := CI.fresh_agent false (fun name =>
    if String.eqb name "SPEC_FILE" then "CUSTOM"
    else "cypress/e2e/Day2/Login.cy.js,cypress/e2e/Day2/assertion.cy.js") in
  CI.plain (CI.shell_of agent) (CI.chosen_specs agent) = true /\
  CI.runner_invocations (CI.build_through agent CI.jenkinsfile_params 4)
    = [CI.run_with_specs "cypress/e2e/Day2/Login.cy.js,cypress/e2e/Day2/assertion.cy.js"] /\
  Forall (fun argv => argv = CI.run_with_specs (CI.chosen_specs agent))
         (CI.runner_invocations (CI.build_through agent CI.jenkinsfile_params 4)).
Proof.
  intros agent. split; [reflexivity|]. split; [reflexivity|].
  exact (proj2 (proj2 (proj2 (proj2 (proj2 (proj2 (proj2 (proj2
    (existence_checks_decide_docker_and_batch_only agent)))))))) eq_refl).
Defined.

(** Under [dash] the install script of the Docker-agent pipeline ends at
    its first line: no [npm] command runs, and the build stops in the
    install stage. *)
Example docker_install_under_dash :
  let agent := CI.dash_agent (fun _ => "") in
  CI.commands (CI.build agent CI.jenkinsfile_docker) = [] /\
  CI.entered (CI.build agent CI.jenkinsfile_docker) = ["Checkout"; "Install Dependencies"].
Proof. split; reflexivity. Qed.

(** Where [npm] is a batch file, the batch script ends with [npm -v]. *)
Example batch_script_where_npm_is_a_batch_file :
  CI.run_batch (CI.windows_agent (fun _ => "")) =
    [CI.Echoed "=== START Install/Run/Report ==="; CI.Echoed "=== Node and NPM versions ===";
     CI.Ran ["node"; "-v"]; CI.Ran ["npm"; "-v"]].
Proof. reflexivity. Qed.

(** ** The other node tasks *)

Section FileTaskFacts.

Import Tasks FileTasks.

Lemma not_inside_itself (s : fs) (dirPath : path) :
  is_file_inside s dirPath dirPath = false.
Proof.
  unfold is_file_inside.
  destruct (child_name dirPath dirPath) as [n|] eqn:Hn; [|reflexivity].
  apply child_name_spec in Hn. unfold join in Hn.
  apply (f_equal length) in Hn. rewrite length_app in Hn. simpl in Hn. lia.
Qed.

(** [clearDownloads] on a directory: the result and the file system left. *)
Lemma clearDownloads_on_directory (s : fs) (dirPath : path) :
  s !! dirPath = Some Dir ->
  exists s' : fs,
    clearDownloads dirPath s = (s', inr (length (entries s dirPath))) /\
    (forall q, s' !! q = if is_file_inside s dirPath q then None else s !! q).
Proof.
  intros Hdir.
  destruct (forEach_clear_entry dirPath (entries s dirPath) s (NoDup_entries s dirPath))
    as (s' & Hrun & Hgone & Hkept).
  { intros n. apply elem_of_entries. }
  exists s'. split.
  - unfold clearDownloads, bind at 1, existsSync.
    rewrite bool_decide_eq_true_2 by eauto. cbn [negb].
    unfold bind at 1, readdirSync. rewrite Hdir.
    unfold bind. now rewrite Hrun.
  - intros q. destruct (is_file_inside s dirPath q) eqn:Hq.
    + apply is_file_inside_spec in Hq as (n & Hn & -> & Hfile). now apply Hgone.
    + apply Hkept. intros (n & Hn & Heq & Hfile).
      assert (is_file_inside s dirPath q = true) by (apply is_file_inside_spec; eauto).
      congruence.
Qed.

(** What is left in a directory that has been cleared: its
    subdirectories, and clearing again finds nothing to delete. *)
Lemma cleared_directory (s : fs) (dirPath : path) :
  s !! dirPath = Some Dir ->
  let s' := after (clearDownloads dirPath) s in
  s' !! dirPath = Some Dir /\
  (forall name, name ∈ entries s' dirPath <-> s !! join dirPath name = Some Dir) /\
  clearDownloads dirPath s' = (s', inr (length (entries s' dirPath))) /\
  (length (entries s' dirPath) <= length (entries s dirPath))%nat.
Proof.
  intros Hdir s'.
  destruct (clearDownloads_on_directory s dirPath Hdir) as (s1 & Hrun & Hleft).
  assert (Hs' : s' = s1) by (unfold s', after; now rewrite Hrun).
  clearbody s'. subst s1.
  assert (Hdir' : s' !! dirPath = Some Dir)
    by (now rewrite Hleft, not_inside_itself).
  assert (Hnames : forall name,
             name ∈ entries s' dirPath <-> s !! join dirPath name = Some Dir).
  { intros name. rewrite elem_of_entries, Hleft. unfold is_file_inside.
    rewrite (proj2 (child_name_spec dirPath _ name) eq_refl).
    destruct (s !! join dirPath name) as [[|]|]; split; intros H;
      try (destruct H; discriminate); try discriminate; eauto. }
  split; [exact Hdir'|]. split; [exact Hnames|]. split.
  - destruct (clearDownloads_on_directory s' dirPath Hdir') as (s2 & Hrun2 & Hleft2).
    rewrite Hrun2. f_equal. apply map_eq. intros q. rewrite Hleft2.
    destruct (is_file_inside s' dirPath q) eqn:Hq; [|reflexivity].
    apply is_file_inside_spec in Hq as (n & Hn & -> & Hfile).
    apply Hnames in Hn. rewrite Hleft in Hfile. unfold is_file_inside in Hfile.
    rewrite (proj2 (child_name_spec dirPath _ n) eq_refl), Hn in Hfile. discriminate.
  - apply submseteq_length, NoDup_submseteq; [apply NoDup_entries|].
    intros name Hname. apply Hnames in Hname. apply elem_of_entries. eauto.
Qed.

End FileTaskFacts.

(** X1.  [deleteFile(filePath)] removes a regular file and answers
    'deleted'; after that [isFileExist] yields [null] for the path and a
    second [deleteFile] answers 'not found'.  On a path that is not there
    it answers 'not found' and changes nothing; on a directory
    [unlinkSync] throws and nothing is removed.  [isFileExist] yields
    [true] or [null], never [false].  No other path is touched. *)
Theorem deleteFile_then_isFileExist
    (s : gmap (list string) Tasks.kind) (filePath : list string) :
  match s !! filePath with
  | Some Tasks.File =>
      FileTasks.isFileExist filePath s = (s, inr (JS.Bool true)) /\
      FileTasks.deleteFile filePath s = (delete filePath s, inr "deleted") /\
      FileTasks.isFileExist filePath (delete filePath s) = (delete filePath s, inr JS.Null) /\
      FileTasks.deleteFile filePath (delete filePath s) = (delete filePath s, inr "not found")
  | Some Tasks.Dir =>
      FileTasks.isFileExist filePath s = (s, inr (JS.Bool true)) /\
      FileTasks.deleteFile filePath s = (s, inl Tasks.EISDIR)
  | None =>
      FileTasks.isFileExist filePath s = (s, inr JS.Null) /\
      FileTasks.deleteFile filePath s = (s, inr "not found")
  end /\
  (forall q, q <> filePath ->
             FileTasks.after (FileTasks.deleteFile filePath) s !! q = s !! q).
Proof.
  unfold FileTasks.after, FileTasks.isFileExist, FileTasks.deleteFile, Tasks.bind,
    Tasks.existsSync, Tasks.unlinkSync, Tasks.ret.
  rewrite lookup_delete_eq.
  destruct (s !! filePath) as [[|]|] eqn:Hp;
    repeat case_bool_decide;
    try match goal with H : ~ is_Some (Some _) |- _ => exfalso; apply H; eauto end;
    try match goal with H : is_Some None |- _ => destruct H; discriminate end;
    rewrite ?Hp; cbn [fst]; repeat split; try reflexivity;
    intros q Hq; try reflexivity; now apply lookup_delete_ne.
Qed.

(** X2.  [getDownloadedFiles(dirPath)] called after [clearDownloads(dirPath)]:
    for a directory it lists, each once, exactly the names of the
    subdirectories the folder had, since only regular files were deleted;
    for a path that is not there it yields the empty list; for a regular
    file [readdirSync] throws. *)
Theorem getDownloadedFiles_after_clearDownloads
    (s : gmap (list string) Tasks.kind) (dirPath : list string) :
  let s' := FileTasks.after (Tasks.clearDownloads dirPath) s in
  match s !! dirPath with
  | Some Tasks.Dir =>
      exists names,
        FileTasks.getDownloadedFiles dirPath s' = (s', inr names) /\
        NoDup names /\
        (forall name, name ∈ names <-> s !! Tasks.join dirPath name = Some Tasks.Dir)
  | Some Tasks.File =>
      s' = s /\ FileTasks.getDownloadedFiles dirPath s' = (s', inl Tasks.ENOTDIR)
  | None =>
      s' = s /\ FileTasks.getDownloadedFiles dirPath s' = (s', inr [])
  end.
Proof.
  intros s'. destruct (s !! dirPath) as [[|]|] eqn:Hdir.
  - assert (s' = s) as ->.
    { unfold s', FileTasks.after, Tasks.clearDownloads, Tasks.bind, Tasks.existsSync,
        Tasks.readdirSync.
      rewrite Hdir, bool_decide_eq_true_2 by eauto. cbn [negb]. now rewrite Hdir. }
    split; [reflexivity|].
    unfold FileTasks.getDownloadedFiles, Tasks.bind, Tasks.existsSync, Tasks.readdirSync.
    rewrite Hdir, bool_decide_eq_true_2 by eauto. now rewrite Hdir.
  - destruct (cleared_directory s dirPath Hdir) as (Hdir' & Hnames & _).
    fold s' in Hdir', Hnames.
    exists (Tasks.entries s' dirPath). split; [|split; [apply NoDup_entries | exact Hnames]].
    unfold FileTasks.getDownloadedFiles, Tasks.bind, Tasks.existsSync, Tasks.readdirSync.
    rewrite Hdir', bool_decide_eq_true_2 by eauto. now rewrite Hdir'.
  - assert (s' = s) as ->.
    { unfold s', FileTasks.after, Tasks.clearDownloads, Tasks.bind, Tasks.existsSync.
      now rewrite Hdir. }
    split; [reflexivity|].
    unfold FileTasks.getDownloadedFiles, Tasks.bind, Tasks.existsSync.
    now rewrite Hdir.
Qed.

(** X3.  Running [clearDownloads(dirPath)] a second time changes nothing
    on disk.  On a directory the second run still ends without an error
    and returns the number of subdirectories, which were counted and kept
    by the first run, so a count above zero does not mean that a file was
    deleted; its count is at most that of the first run. *)
Theorem clearDownloads_twice
    (s : gmap (list string) Tasks.kind) (dirPath : list string) :
  let s' := FileTasks.after (Tasks.clearDownloads dirPath) s in
  FileTasks.after (Tasks.clearDownloads dirPath) s' = s' /\
  match s !! dirPath with
  | Some Tasks.Dir =>
      exists first second,
        snd (Tasks.clearDownloads dirPath s) = inr first /\
        snd (Tasks.clearDownloads dirPath s') = inr second /\
        (second <= first)%nat /\
        NoDup (Tasks.entries s' dirPath) /\
        second = length (Tasks.entries s' dirPath) /\
        (forall name, name ∈ Tasks.entries s' dirPath <->
                      s !! Tasks.join dirPath name = Some Tasks.Dir)
  | _ => s' = s
  end.
Proof.
  intros s'. destruct (s !! dirPath) as [[|]|] eqn:Hdir.
  - assert (s' = s) as ->.
    { unfold s', FileTasks.after, Tasks.clearDownloads, Tasks.bind, Tasks.existsSync,
        Tasks.readdirSync.
      rewrite Hdir, bool_decide_eq_true_2 by eauto. cbn [negb]. now rewrite Hdir. }
    split; [|reflexivity].
    unfold FileTasks.after, Tasks.clearDownloads, Tasks.bind, Tasks.existsSync,
      Tasks.readdirSync.
    rewrite Hdir, bool_decide_eq_true_2 by eauto. cbn [negb]. now rewrite Hdir.
  - destruct (cleared_directory s dirPath Hdir) as (Hdir' & Hnames & Hagain & Hle).
    fold s' in Hdir', Hnames, Hagain, Hle.
    destruct (clearDownloads_on_directory s dirPath Hdir) as (s1 & Hrun & _).
    split.
    + unfold FileTasks.after at 1. now rewrite Hagain.
    + exists (length (Tasks.entries s dirPath)), (length (Tasks.entries s' dirPath)).
      rewrite Hrun, Hagain. repeat split; try assumption; try apply NoDup_entries;
        apply Hnames.
  - assert (s' = s) as ->.
    { unfold s', FileTasks.after, Tasks.clearDownloads, Tasks.bind, Tasks.existsSync.
      now rewrite Hdir. }
    split; [|reflexivity].
    unfold FileTasks.after, Tasks.clearDownloads, Tasks.bind, Tasks.existsSync.
    now rewrite Hdir.
Qed.

(** In the sample folder the first run returns 2 and the second 1, and the
    listing in between shows the subdirectory. *)
Example clearDownloads_twice_on_sample :
  let s' := FileTasks.after (Tasks.clearDownloads Tasks.downloads) Tasks.sample_fs in
  snd (Tasks.clearDownloads Tasks.downloads Tasks.sample_fs) = inr 2%nat /\
  snd (FileTasks.getDownloadedFiles Tasks.downloads s') = inr ["archive"] /\
  snd (Tasks.clearDownloads Tasks.downloads s') = inr 1%nat.
Proof. repeat split; vm_compute; reflexivity. Qed.

(** ** Commands over [Cypress.env] *)

(** X4.  [getEnvVariable(varName, defaultValue)] yields the variable
    whenever it is set to anything but [undefined], also when the value
    is falsy ([false], [0], the empty string, [null]); it yields the
    default only when the variable is not set and the default is neither
    [null] nor left out, and [undefined] when neither is there.  It never
    throws, and what it wraps last is what it yields. *)
Theorem getEnvVariable_prefers_the_stored_value
    (vars : gmap string JS.value) (varName : string) (defaultValue : option JS.value) :
  let value := Env.env vars varName in
  let yielded :=
    if JS.is_undefined value then
      match defaultValue with
      | Some d => if JS.nullish d then JS.Undefined else d
      | None => JS.Undefined
      end
    else value in
  Cy.outcome (Env.getEnvVariable vars varName defaultValue) = inr yielded /\
  last (Cy.calls (Env.getEnvVariable vars varName defaultValue)) = Some (Cy.Wrap yielded) /\
  (forall v, vars !! varName = Some v -> v <> JS.Undefined -> yielded = v).
Proof.
  intros value yielded. unfold Env.getEnvVariable. fold value.
  split; [|split].
  - unfold yielded. destruct value; cbn [JS.is_undefined andb]; try reflexivity.
    destruct defaultValue as [[]|]; reflexivity.
  - unfold yielded. destruct value; cbn [JS.is_undefined andb]; try reflexivity.
    destruct defaultValue as [[]|]; reflexivity.
  - intros v Hv Hne. unfold yielded, value, Env.env. rewrite Hv. cbn.
    destruct v; try reflexivity. contradiction.
Qed.

Example getEnvVariable_keeps_a_stored_false :
  Cy.outcome (Env.getEnvVariable {[ "retry" := JS.Bool false ]} "retry"
                (Some (JS.Bool true))) = inr (JS.Bool false) /\
  Cy.outcome (Env.getEnvVariable ∅ "nonExistentVar" (Some (JS.Str "default-value")))
    = inr (JS.Str "default-value") /\
  Cy.outcome (Env.getEnvVariable ∅ "nonExistentVar" (Some JS.Null)) = inr JS.Undefined.
Proof. repeat split; vm_compute; reflexivity. Qed.

(** X5.  [checkFeatureFlag(flagName)] never throws, whatever is stored
    under [featureFlags], and always yields a boolean.  When
    [featureFlags] is an object that has the flag among its own
    properties, it yields [true] only if the flag is the boolean [true]:
    the string 'true', [1] and every other value count as disabled.  When
    [featureFlags] is not set or falsy it reads the flag from an empty
    object. *)
Theorem checkFeatureFlag_is_strict
    (runtime_member : JS.value -> string -> option JS.value)
    (vars : gmap string JS.value) (flagName : string) :
  exists enabled : bool,
    Cy.outcome (Env.checkFeatureFlag runtime_member vars flagName)
      = inr (JS.Bool enabled) /\
    last (Cy.calls (Env.checkFeatureFlag runtime_member vars flagName))
      = Some (Cy.Wrap (JS.Bool enabled)) /\
    (forall props v,
        vars !! "featureFlags" = Some (JS.Obj props) ->
        JS.own props flagName = Some v ->
        enabled = match v with JS.Bool b => b | _ => false end) /\
    (JS.truthy (Env.env vars "featureFlags") = false ->
     enabled = Env.is_true (JS.member runtime_member (JS.Obj []) flagName)).
Proof.
  unfold Env.checkFeatureFlag, Commands.prop.
  set (stored := Env.env vars "featureFlags").
  set (featureFlags := if JS.truthy stored then stored else JS.Obj []).
  assert (Hflags : JS.nullish featureFlags = false).
  { unfold featureFlags. destruct (JS.truthy stored) eqn:Htruthy; [|reflexivity].
    now destruct stored. }
  rewrite Hflags.
  exists (Env.is_true (JS.member runtime_member featureFlags flagName)).
  split; [reflexivity|]. split; [reflexivity|]. split.
  - intros props v Hstored Hown. unfold featureFlags, stored, Env.env.
    rewrite Hstored. cbn. rewrite Hown. now destruct v as [| |[]| | | | |].
  - intros Hfalsy. unfold featureFlags. now rewrite Hfalsy.
Qed.

Example checkFeatureFlag_on_a_string_flag :
  let vars : gmap string JS.value :=
    {[ "featureFlags" := JS.Obj [("darkMode", JS.Str "true"); ("beta", JS.Bool true)] ]} in
  Cy.outcome (Env.checkFeatureFlag JS.plain_runtime vars "darkMode") = inr (JS.Bool false) /\
  Cy.outcome (Env.checkFeatureFlag JS.plain_runtime vars "beta") = inr (JS.Bool true) /\
  Cy.outcome (Env.checkFeatureFlag JS.plain_runtime ∅ "toString") = inr (JS.Bool false).
Proof. repeat split; vm_compute; reflexivity. Qed.

(** X6.  [makeApiRequest(endpoint, method, body)] sends exactly one
    request, to [apiBaseUrl + endpoint], with [failOnStatusCode] off, so
    it yields the response whatever its status and never fails on it.
    The method is 'GET' unless given, and the body is sent only when it
    is truthy: a body of [0], [false], the empty string or [null] is left
    out.  When [apiBaseUrl] is not set the request is still sent, with
    [undefined] in front of the endpoint. *)
Theorem makeApiRequest_never_fails_on_status
    (server : Cy.request -> Cy.response) (vars : gmap string JS.value)
    (endpoint : string) (method : option string) (body : option JS.value) :
  let r := {| Cy.method := default "GET" method;
              Cy.url := [Env.env vars "apiBaseUrl"; JS.Str endpoint];
              Cy.body := match body with
                         | Some b => if JS.truthy b then Some b else None
                         | None => None
                         end;
              Cy.failOnStatusCode := false |} in
  Cy.requests (Cy.calls (Env.makeApiRequest server vars endpoint method body)) = [r] /\
  Cy.outcome (Env.makeApiRequest server vars endpoint method body) = inr (server r) /\
  (vars !! "apiBaseUrl" = None -> Cy.url r = [JS.Undefined; JS.Str endpoint]).
Proof.
  intros r.
  assert (Hr : Env.makeApiRequest server vars endpoint method body =
               ([Cy.Log ([JS.Str "Making "; JS.Str (default "GET" method);
                          JS.Str " request to: "] ++ Cy.url r); Cy.Request r],
                inr (server r))).
  { unfold Env.makeApiRequest, Commands.cy_request, r.
    destruct body as [[]|]; reflexivity. }
  rewrite Hr. split; [reflexivity|]. split; [reflexivity|].
  intros Hunset. unfold r, Env.env. cbn. now rewrite Hunset.
Qed.

(** X7.  [LoginPage.loginWithEnv()] throws, before it touches the page,
    when [LOGIN_USERNAME] or [LOGIN_PASSWORD] is not set or is falsy, the
    empty string included.  Otherwise it does what
    [login(username, password)] does: it types the user name, then the
    password with [log: false], clicks, and logs nothing. *)
Theorem loginWithEnv_needs_both_variables (vars : gmap string JS.value) :
  let username := Env.env vars "LOGIN_USERNAME" in
  let password := Env.env vars "LOGIN_PASSWORD" in
  if JS.truthy username && JS.truthy password then
    Env.loginWithEnv vars = LoginPage.login username password /\
    Cy.thrown (Env.loginWithEnv vars) = None /\
    MoreCommands.typed (Cy.calls (Env.loginWithEnv vars)) = [(username, true); (password, false)] /\
    MoreCommands.logged (Cy.calls (Env.loginWithEnv vars)) = [] /\
    last (Cy.calls (Env.loginWithEnv vars)) = Some Cy.Click
  else
    Cy.calls (Env.loginWithEnv vars) = [] /\
    Cy.thrown (Env.loginWithEnv vars) =
      Some (Cy.Error "LOGIN_USERNAME and LOGIN_PASSWORD environment variables must be set").
Proof.
  intros username password. unfold Env.loginWithEnv. fold username password.
  destruct (JS.truthy username), (JS.truthy password); cbn [andb negb orb];
    repeat split; reflexivity.
Qed.

Example loginWithEnv_with_an_empty_password :
  Cy.calls (Env.loginWithEnv {[ "LOGIN_USERNAME" := JS.Str "tomsmith";
                                "LOGIN_PASSWORD" := JS.Str "" ]}) = [].
Proof. vm_compute. reflexivity. Qed.

Section FormFacts.

Import JS Cy MoreCommands.

Lemma forEach_fill_field (formData : list (string * value)) :
  exists cs,
    Commands.forEach formData fill_field = (cs, inr tt) /\
    gets cs = map (fun entry => Str (fst entry)) formData /\
    typed cs = map (fun entry => (snd entry, true)) formData /\
    (forall entry, In entry formData -> In (snd entry) (logged cs)) /\
    length cs = (5 * length formData)%nat.
Proof.
  induction formData as [|[selector v] rest (cs & Hrun & Hgets & Htyped & Hlogged & Hlen)].
  - exists []. repeat split. intros entry [].
  - eexists. cbn [Commands.forEach fill_field bind emit app fst snd]. rewrite Hrun.
    cbn [bind emit app fst snd].
    split; [reflexivity|]. cbn [gets typed omap list_omap map fst snd length].
    fold (gets cs). fold (typed cs). rewrite Hgets, Htyped.
    split; [reflexivity|]. split; [reflexivity|]. split; [|lia].
    intros entry [<-|Hin]; cbn [logged flat_map app fst snd In].
    + tauto.
    + do 3 right. right. right. apply Hlogged, Hin.
Qed.

End FormFacts.

(** X8.  [fillForm(formData)] never throws and goes through the fields in
    the order of the object's entries: it gets each selector and types
    each value, one [get] and one [type] per field.  Every value is typed
    with the command log on and is repeated in a [cy.log] message, so a
    password passed to [fillForm] is shown in the log, unlike the
    password of [LoginPage.login]. *)
Theorem fillForm_types_every_value_in_order (formData : list (string * JS.value)) :
  Cy.thrown (MoreCommands.fillForm formData) = None /\
  MoreCommands.gets (Cy.calls (MoreCommands.fillForm formData))
    = map (fun entry => JS.Str (fst entry)) formData /\
  MoreCommands.typed (Cy.calls (MoreCommands.fillForm formData))
    = map (fun entry => (snd entry, true)) formData /\
  (forall entry, In entry formData ->
                 In (snd entry) (MoreCommands.logged (Cy.calls (MoreCommands.fillForm formData)))) /\
  length (Cy.calls (MoreCommands.fillForm formData)) = (1 + 5 * length formData)%nat.
Proof.
  destruct (forEach_fill_field formData) as (cs & Hrun & Hgets & Htyped & Hlogged & Hlen).
  unfold MoreCommands.fillForm. rewrite Hrun.
  cbn [Cy.bind Cy.emit Cy.thrown Cy.calls app fst snd].
  split; [reflexivity|]. split; [exact Hgets|]. split; [exact Htyped|]. split.
  - intros entry Hin. cbn [MoreCommands.logged flat_map app]. do 1 right. now apply Hlogged.
  - cbn [length]. lia.
Qed.

Example fillForm_shows_the_password :
  let cs := Cy.calls (MoreCommands.fillForm [("#user", JS.Str "tomsmith");
                                    ("#password", JS.Str "SuperSecretPassword!")]) in
  MoreCommands.typed cs = [(JS.Str "tomsmith", true); (JS.Str "SuperSecretPassword!", true)] /\
  In (JS.Str "SuperSecretPassword!") (MoreCommands.logged cs).
Proof. vm_compute. split; [reflexivity|]. tauto. Qed.

(** ** The login that only simulates *)

(** X9.  [apiLogin(userType)] of [commands.js] reads the user of that
    type from the fixture and never uses it: apart from the log line,
    the command does the same for every user type.  It sends the same
    requests and ends in the same way (when the fixture has no [users] at
    all, with the [TypeError] of reading the user type from it), and
    unlike [login] it never reports that a user type is not in the
    fixture.  It sends a single
    GET, to the fixture's [apiEndpoints.users], with [failOnStatusCode]
    on, and fails unless the status is 200. *)
Theorem apiLogin_ignores_the_user_type
    (runtime_member : JS.value -> string -> option JS.value)
    (fixtures : string -> option JS.value) (server : Cy.request -> Cy.response)
    (userType userType' : option string) :
  let run := MoreCommands.apiLogin runtime_member fixtures server in
  Cy.requests (Cy.calls (run userType)) = Cy.requests (Cy.calls (run userType')) /\
  (Cy.thrown (run userType) = Cy.thrown (run userType') \/
   Cy.thrown (run userType) = Some (Cy.TypeError (default "standard" userType)) /\
   Cy.thrown (run userType') = Some (Cy.TypeError (default "standard" userType'))) /\
  (forall msg, Cy.thrown (run userType) <> Some (Cy.Error msg)) /\
  (length (Cy.requests (Cy.calls (run userType))) <= 1)%nat /\
  Forall (fun r => Cy.method r = "GET" /\ Cy.body r = None /\
                   Cy.failOnStatusCode r = true /\
                   (Cy.thrown (run userType) = None -> Cy.status (server r) = 200))
         (Cy.requests (Cy.calls (run userType))).
Proof.
  intros run. unfold run, MoreCommands.apiLogin, Commands.fixture, Commands.prop,
    Commands.cy_request, Commands.expect_eq.
  destruct (fixtures "customCommandData") as [data|];
    cbn [Cy.bind Cy.emit Cy.ret Cy.throw app fst snd].
  2: { cbn. split; [reflexivity|]. split; [now left|]. split; [discriminate|].
       split; [lia|constructor]. }
  repeat (match goal with
          | |- context [if ?b then _ else _] => destruct b eqn:?
          end;
          cbn [Cy.bind Cy.emit Cy.ret Cy.throw app fst snd Cy.failOnStatusCode andb negb]);
    cbn [Cy.requests Cy.calls Cy.thrown fst snd omap list_omap length];
    (split; [reflexivity|]);
    (split; [first [left; reflexivity | right; split; reflexivity]|]);
    (split; [discriminate|]); (split; [lia|]);
    repeat constructor; try discriminate; intros _; now apply Z.eqb_eq.
Qed.

(** A user type that is not in the fixture: [login] refuses it and
    [apiLogin] passes. *)
Example apiLogin_accepts_an_unknown_user :
  let data :=
    JS.Obj [ ("users", JS.Obj Sample.users);
             ("loginPage", JS.Obj [("url", JS.Str "/login"); ("selectors", JS.Obj [])]);
             ("apiEndpoints",
              JS.Obj [("users", JS.Str "https://jsonplaceholder.typicode.com/users")]) ] in
  let fixtures (name : string) := Some data in
  let server (_ : Cy.request) := {| Cy.status := 200; Cy.rbody := JS.Arr [] |} in
  Cy.thrown (Commands.login JS.plain_runtime fixtures (Some "nobody"))
    = Some (Cy.Error (Commands.missing_user_message "nobody")) /\
  Cy.thrown (MoreCommands.apiLogin JS.plain_runtime fixtures server (Some "nobody")) = None.
Proof. split; vm_compute; reflexivity. Qed.

(** ** The API request helpers *)

Section RequestFacts.

Import JS Api ApiCommands.

Variable runtime_member : value -> string -> option value.
Variable toUpperCase : string -> string.
Variable server : options -> Cy.response.
Variable duration : options -> Z.

Local Abbreviation apiRequest := (apiRequest toUpperCase server duration).
Local Abbreviation requestConfig := (requestConfig toUpperCase).
Local Abbreviation apiLogin := (apiLogin runtime_member server).
Local Abbreviation apiAuthRequest := (apiAuthRequest toUpperCase server duration).

Lemma sent_bind {A B} (m : M A) (f : A -> M B) :
  sent (calls (bind m f)) =
  sent (calls m) ++ match outcome m with
                    | inr a => sent (calls (f a))
                    | inl _ => []
                    end.
Proof.
  destruct m as [t [e|a]]; cbn [bind calls outcome fst snd].
  - now rewrite app_nil_r.
  - destruct (f a) as [t' r]. unfold sent. cbn [fst]. apply omap_app.
Qed.

Lemma outcome_bind {A B} (m : M A) (f : A -> M B) :
  outcome (bind m f) = match outcome m with
                       | inr a => outcome (f a)
                       | inl e => inl e
                       end.
Proof.
  destruct m as [t [e|a]]; cbn [bind outcome fst snd]; [reflexivity|].
  now destruct (f a).
Qed.

Lemma request_sent (o : options) :
  sent (calls (request server o)) = [o] /\
  outcome (request server o) =
    if default true (failOnStatusCode o)
       && negb (Commands.ok_status (Cy.status (server o)))
    then inl (Cy.CypressError "request failed on status code")
    else inr (server o).
Proof. unfold request. now destruct (_ && _). Qed.

Lemma apiRequest_sent (o : options) :
  sent (calls (apiRequest o)) = [requestConfig o] /\
  outcome (apiRequest o) =
    if default false (failOnStatusCode o)
       && negb (Commands.ok_status (Cy.status (server (requestConfig o))))
    then inl (Cy.CypressError "request failed on status code")
    else inr (server (requestConfig o)).
Proof.
  unfold ApiCommands.apiRequest, request.
  change (failOnStatusCode (requestConfig o))
    with (Some (default false (failOnStatusCode o))).
  cbn [default from_option id].
  now destruct (_ && _).
Qed.

(** A wrapper: one log line, then [apiRequest] with [failOnStatusCode]
    left alone. *)
Lemma wrapper_sent (c : Cy.call) (o : options) :
  failOnStatusCode o = None ->
  sent (calls (bind (emit c) (fun _ => apiRequest o))) = [requestConfig o] /\
  outcome (bind (emit c) (fun _ => apiRequest o)) = inr (server (requestConfig o)).
Proof.
  intros Hoff. rewrite sent_bind, outcome_bind.
  cbn [emit calls outcome fst snd sent omap list_omap app].
  destruct (apiRequest_sent o) as [Hsent Hout]. split; [exact Hsent|].
  etransitivity; [exact Hout|]. now rewrite Hoff.
Qed.

(** The headers [apiRequest] sends: the caller's, and under them the two
    defaults. *)
Lemma requestConfig_headers (o : options) (k : string) :
  exists hs,
    headers (requestConfig o) = Some hs /\
    hs !! k = match default ∅ (headers o) !! k with
              | Some v => Some v
              | None => default_headers !! k
              end.
Proof.
  eexists. split; [reflexivity|].
  destruct (default ∅ (headers o) !! k) as [v|] eqn:Hk.
  - now apply lookup_union_Some_l.
  - now apply lookup_union_r.
Qed.

Lemma apiLogin_run (vars : Env.store) (email password : value)
    (authEndpoint : option string) :
  let o := login_options email password
             (default "https://reqres.in/api/login" authEndpoint) in
  let r := server o in
  let token := member runtime_member (Cy.rbody r) "token" in
  sent (calls (apiLogin vars email password authEndpoint)) = [o] /\
  outcome (apiLogin vars email password authEndpoint) =
    if Cy.status r =? 200 then
      if nullish (Cy.rbody r) then inl (Cy.TypeError "token")
      else if truthy token
           then inr (Env.set_env vars "authToken" token,
                     Obj [("success", Bool true); ("token", token)])
           else inr (vars, Obj [("success", Bool false); ("error", Cy.rbody r)])
    else inr (vars, Obj [("success", Bool false); ("error", Cy.rbody r)]).
Proof.
  intros o r token. unfold ApiCommands.apiLogin, request, Commands.prop.
  fold o. fold r. change (default true (failOnStatusCode o)) with false.
  cbn [andb bind emit ret app fst snd].
  destruct (Cy.status r =? 200); [|split; reflexivity].
  destruct (nullish (Cy.rbody r)); [split; reflexivity|].
  cbn [lift Cy.ret fst snd map bind emit ret app]. fold token.
  destruct (truthy token); split; reflexivity.
Qed.

Lemma apiAuthRequest_sent (vars : Env.store) (o : options) :
  let o' := {| method := method o; url := url o; body := body o;
               headers := Some (default ∅ (headers o)
                                ∪ authHeaders (Env.env vars "authToken"));
               qs := qs o; timeout := timeout o;
               failOnStatusCode := failOnStatusCode o |} in
  sent (calls (apiAuthRequest vars o)) = [requestConfig o'] /\
  outcome (apiAuthRequest vars o) = outcome (apiRequest o').
Proof.
  intros o'. unfold ApiCommands.apiAuthRequest. fold o'.
  rewrite sent_bind, outcome_bind.
  destruct (negb (truthy (Env.env vars "authToken")));
    cbn [emit ret calls outcome fst snd sent omap list_omap app];
    split; first [apply apiRequest_sent | reflexivity].
Qed.

Lemma auth_header (vars : Env.store) (o : options) :
  (default ∅ (headers o) ∪ authHeaders (Env.env vars "authToken") ∪ default_headers)
    !! "Authorization" =
  match default ∅ (headers o) !! "Authorization" with
  | Some v => Some v
  | None => if truthy (Env.env vars "authToken")
            then Some [Str "Bearer "; Env.env vars "authToken"]
            else None
  end.
Proof.
  destruct (default ∅ (headers o) !! "Authorization") as [v|] eqn:Hcaller.
  - now apply lookup_union_Some_l, lookup_union_Some_l.
  - unfold authHeaders. destruct (truthy (Env.env vars "authToken")).
    + apply lookup_union_Some_l. rewrite lookup_union_r by exact Hcaller.
      apply lookup_singleton_eq.
    + rewrite lookup_union_r; [reflexivity|].
      rewrite lookup_union_r by exact Hcaller. apply lookup_empty.
Qed.

Lemma other_headers (vars : Env.store) (o : options) (k : string) :
  k <> "Authorization" ->
  (default ∅ (headers o) ∪ authHeaders (Env.env vars "authToken") ∪ default_headers) !! k
  = (default ∅ (headers o) ∪ default_headers) !! k.
Proof.
  intros Hk.
  assert (Hauth : authHeaders (Env.env vars "authToken") !! k = None).
  { unfold authHeaders. destruct (truthy (Env.env vars "authToken")).
    - apply lookup_singleton_ne. congruence.
    - apply lookup_empty. }
  destruct (default ∅ (headers o) !! k) as [v|] eqn:Hcaller.
  - transitivity (Some v); [|symmetry; now apply lookup_union_Some_l].
    now apply lookup_union_Some_l, lookup_union_Some_l.
  - transitivity (default_headers !! k); [|symmetry; now apply lookup_union_r].
    apply lookup_union_r. now rewrite lookup_union_r.
Qed.

End RequestFacts.

(** X10.  [apiRequest(options)] sends exactly one request.  It fails only
    when the caller has switched [failOnStatusCode] on and the status is
    outside 2xx and 3xx; left alone it yields the response whatever the
    status.  Every header the caller passes is sent unchanged, and
    [Content-Type] and [Accept] are [application/json] only where the
    caller has not set them.  A body is sent only when it is truthy and
    the upper-cased method is POST, PUT or PATCH, so the body of a GET or
    a DELETE is dropped without a word; an empty [qs] is left out. *)
Theorem apiRequest_sends_one_request_with_the_callers_headers
    (toUpperCase : string -> string) (server : Api.options -> Cy.response)
    (duration : Api.options -> Z) (o : Api.options) :
  let cfg := ApiCommands.requestConfig toUpperCase o in
  let run := ApiCommands.apiRequest toUpperCase server duration o in
  Api.sent (Api.calls run) = [cfg] /\
  Api.outcome run =
    (if default false (Api.failOnStatusCode o)
        && negb (Commands.ok_status (Cy.status (server cfg)))
     then inl (Cy.CypressError "request failed on status code")
     else inr (server cfg)) /\
  (Api.failOnStatusCode o <> Some true -> Api.outcome run = inr (server cfg)) /\
  (forall k, exists hs,
      Api.headers cfg = Some hs /\
      hs !! k = match default ∅ (Api.headers o) !! k with
                | Some v => Some v
                | None => ApiCommands.default_headers !! k
                end) /\
  (forall b, Api.body cfg = Some b ->
             Api.body o = Some b /\ JS.truthy b = true /\
             ApiCommands.supports_body toUpperCase (default "GET" (Api.method o)) = true) /\
  Api.qs cfg <> Some [].
Proof.
  intros cfg run.
  destruct (apiRequest_sent toUpperCase server duration o) as [Hsent Hout].
  split; [exact Hsent|]. split; [exact Hout|]. split; [|split; [|split]].
  - intros Hoff. unfold run. rewrite Hout.
    destruct (Api.failOnStatusCode o) as [[]|]; try reflexivity. congruence.
  - intros k. apply requestConfig_headers.
  - intros b. unfold cfg, ApiCommands.requestConfig. cbn [Api.body].
    destruct (JS.truthy (Env.or_null (Api.body o))) eqn:Htruthy; [|discriminate].
    destruct (ApiCommands.supports_body toUpperCase _) eqn:Hsupports; [|discriminate].
    cbn [andb]. intros [= <-]. split; [|split; [exact Htruthy | reflexivity]].
    destruct (Api.body o) as [[]|]; try reflexivity; discriminate.
  - unfold cfg, ApiCommands.requestConfig. cbn [Api.qs].
    now destruct (default [] (Api.qs o)).
Qed.

Example apiRequest_keeps_the_callers_content_type :
  let o := {| Api.method := Some "get"; Api.url := JS.Str "/api/users";
              Api.body := Some (JS.Obj [("name", JS.Str "John")]);
              Api.headers := Some {[ "Content-Type" := [JS.Str "text/plain"] ]};
              Api.qs := None; Api.timeout := None; Api.failOnStatusCode := None |} in
  let cfg := ApiCommands.requestConfig ApiCommands.ascii_upper o in
  (default ∅ (Api.headers cfg)) !! "Content-Type" = Some [JS.Str "text/plain"] /\
  (default ∅ (Api.headers cfg)) !! "Accept" = Some [JS.Str "application/json"] /\
  Api.body cfg = None /\
  Api.timeout cfg = Some 30000.
Proof. repeat split; vm_compute; reflexivity. Qed.

(** X11.  The CRUD wrappers each send one request through [apiRequest]
    and never fail on the status.  [apiCreate], [apiUpdate] and
    [apiPatch] send POST, PUT and PATCH with the data as the body when
    the data is truthy, and with no body when it is falsy or left out;
    [apiRead] sends a GET without a body, with the query parameters when
    there are any; [apiDelete] sends a DELETE without a body.  All send
    the caller's headers over the JSON defaults, with a timeout of
    30000. *)
Theorem crud_wrappers_send_one_request
    (toUpperCase : string -> string) (server : Api.options -> Cy.response)
    (duration : Api.options -> Z)
    (url : JS.value) (data : option JS.value)
    (queryParams : option (list (string * JS.value)))
    (headers : option (gmap string (list JS.value))) :
  (forall m, In m ["POST"; "PUT"; "PATCH"] -> toUpperCase m = m) ->
  let wire method body qs :=
    {| Api.method := Some method; Api.url := url;
       Api.headers := Some (default ∅ headers ∪ ApiCommands.default_headers);
       Api.failOnStatusCode := Some false; Api.timeout := Some 30000;
       Api.body := body; Api.qs := qs |} in
  let payload := match data with
                 | Some d => if JS.truthy d then Some d else None
                 | None => None
                 end in
  let query := match queryParams with
               | Some (p :: ps) => Some (p :: ps)
               | _ => None
               end in
  let sends (run : Api.M Cy.response) (cfg : Api.options) :=
    Api.sent (Api.calls run) = [cfg] /\ Api.outcome run = inr (server cfg) in
  sends (ApiCommands.apiCreate toUpperCase server duration url data headers)
        (wire "POST" payload None) /\
  sends (ApiCommands.apiRead toUpperCase server duration url queryParams headers)
        (wire "GET" None query) /\
  sends (ApiCommands.apiUpdate toUpperCase server duration url data headers)
        (wire "PUT" payload None) /\
  sends (ApiCommands.apiPatch toUpperCase server duration url data headers)
        (wire "PATCH" payload None) /\
  sends (ApiCommands.apiDelete toUpperCase server duration url headers)
        (wire "DELETE" None None).
Proof.
  intros Hupper wire payload query sends.
  assert (Hbody : forall m, In m ["POST"; "PUT"; "PATCH"] ->
            (if JS.truthy (Env.or_null data) && ApiCommands.supports_body toUpperCase m
             then Some (Env.or_null data) else None) = payload).
  { intros m Hm. unfold ApiCommands.supports_body. rewrite (Hupper m Hm).
    assert (existsb (String.eqb m) ["POST"; "PUT"; "PATCH"] = true) as ->.
    { destruct Hm as [<-|[<-|[<-|[]]]]; reflexivity. }
    rewrite andb_true_r. unfold payload. destruct data as [[]|]; reflexivity. }
  assert (Hwire : forall m, In m ["POST"; "PUT"; "PATCH"] ->
            ApiCommands.requestConfig toUpperCase
              {| Api.method := Some m; Api.url := url; Api.body := data;
                 Api.headers := Some (default ∅ headers); Api.qs := None;
                 Api.timeout := None; Api.failOnStatusCode := None |}
            = wire m payload None).
  { intros m Hm. unfold ApiCommands.requestConfig, wire.
    cbn [Api.method Api.url Api.body Api.headers Api.qs Api.timeout
         Api.failOnStatusCode default from_option id].
    now rewrite (Hbody m Hm). }
  unfold sends, ApiCommands.apiCreate, ApiCommands.apiRead, ApiCommands.apiUpdate,
    ApiCommands.apiPatch, ApiCommands.apiDelete.
  repeat split;
    match goal with
    | |- Api.sent _ = _ =>
        etransitivity;
        [refine (proj1 (wrapper_sent toUpperCase server duration _ _ _)); reflexivity|]
    | |- Api.outcome _ = _ =>
        etransitivity;
        [refine (proj2 (wrapper_sent toUpperCase server duration _ _ _)); reflexivity|]
    end;
    rewrite ?Hwire by (simpl; tauto); try reflexivity;
    unfold wire, query, ApiCommands.requestConfig;
    cbn [Api.method Api.url Api.body Api.headers Api.qs Api.timeout
         Api.failOnStatusCode default from_option id Env.or_null JS.truthy andb];
    destruct queryParams as [[|]|]; reflexivity.
Qed.

Lemma crud_wrappers_send_one_request_witness :
  (forall m, In m ["POST"; "PUT"; "PATCH"] -> ApiCommands.ascii_upper m = m) /\
  Api.sent (Api.calls
    (ApiCommands.apiCreate ApiCommands.ascii_upper
       (fun _ => {| Cy.status := 500; Cy.rbody := JS.Null |}) (fun _ => 12)
       (JS.Str "/posts") (Some (JS.Num 0)) None))
  = [ {| Api.method := Some "POST"; Api.url := JS.Str "/posts";
         Api.headers := Some (∅ ∪ ApiCommands.default_headers);
         Api.failOnStatusCode := Some false; Api.timeout := Some 30000;
         Api.body := None; Api.qs := None |} ].
Proof.
  assert (Hupper : forall m, In m ["POST"; "PUT"; "PATCH"] -> ApiCommands.ascii_upper m = m).
  { intros m [<-|[<-|[<-|[]]]]; reflexivity. }
  split; [exact Hupper|].
  exact (proj1 (proj1
    (crud_wrappers_send_one_request ApiCommands.ascii_upper
       (fun _ => {| Cy.status := 500; Cy.rbody := JS.Null |}) (fun _ => 12)
       (JS.Str "/posts") (Some (JS.Num 0)) None None Hupper))).
Defined.

(** X12.  [apiAuthRequest(options)] sends the request [apiRequest] would
    send for the same options, with one header added: [Authorization] is
    the caller's own value when the caller passes one, else
    [Bearer <token>] when [authToken] holds a truthy token, else it is
    left out.  Every other header and every other field is as
    [apiRequest] sends it, and the request goes out also when there is no
    token. *)
Theorem apiAuthRequest_adds_the_token_under_the_callers_header
    (toUpperCase : string -> string) (server : Api.options -> Cy.response)
    (duration : Api.options -> Z) (vars : gmap string JS.value) (o : Api.options) :
  let token := Env.env vars "authToken" in
  let plain := ApiCommands.requestConfig toUpperCase o in
  exists cfg hs,
    Api.sent (Api.calls (ApiCommands.apiAuthRequest toUpperCase server duration vars o))
      = [cfg] /\
    Api.headers cfg = Some hs /\
    hs !! "Authorization" =
      match default ∅ (Api.headers o) !! "Authorization" with
      | Some v => Some v
      | None => if JS.truthy token then Some [JS.Str "Bearer "; token] else None
      end /\
    (forall k, k <> "Authorization" -> hs !! k = default ∅ (Api.headers plain) !! k) /\
    Api.method cfg = Api.method plain /\ Api.url cfg = Api.url plain /\
    Api.body cfg = Api.body plain /\ Api.qs cfg = Api.qs plain /\
    Api.timeout cfg = Api.timeout plain /\
    Api.failOnStatusCode cfg = Api.failOnStatusCode plain.
Proof.
  intros token plain.
  destruct (apiAuthRequest_sent toUpperCase server duration vars o) as [Hsent _].
  eexists. eexists. split; [exact Hsent|]. split; [reflexivity|].
  split; [apply auth_header|]. split; [|repeat split].
  intros k Hk. apply other_headers, Hk.
Qed.

(** X13.  [apiLogin(email, password, authEndpoint)] sends one POST with
    the credentials and does not fail on the status.  It stores
    [authToken] exactly when the status is 200 and the body has a truthy
    [token]; in every other case that yields, the variables are left as
    they were, so a token from an earlier login stays, and the subject
    says [success: false].  It throws only when the status is 200 and
    the body is [null] or [undefined]. *)
Theorem apiLogin_stores_the_token_only_on_success
    (runtime_member : JS.value -> string -> option JS.value)
    (server : Api.options -> Cy.response)
    (vars : gmap string JS.value) (email password : JS.value)
    (authEndpoint : option string) :
  let o := ApiCommands.login_options email password
             (default "https://reqres.in/api/login" authEndpoint) in
  let r := server o in
  let token := JS.member runtime_member (Cy.rbody r) "token" in
  let run := ApiCommands.apiLogin runtime_member server vars email password authEndpoint in
  Api.sent (Api.calls run) = [o] /\
  Api.failOnStatusCode o = Some false /\
  match Api.outcome run with
  | inr (vars', subject) =>
      if (Cy.status r =? 200) && JS.truthy token
      then vars' = <["authToken" := token]> vars /\
           Env.env vars' "authToken" = token /\
           subject = JS.Obj [("success", JS.Bool true); ("token", token)]
      else vars' = vars /\
           subject = JS.Obj [("success", JS.Bool false); ("error", Cy.rbody r)]
  | inl e =>
      Cy.status r = 200 /\ JS.nullish (Cy.rbody r) = true /\ e = Cy.TypeError "token"
  end.
Proof.
  intros o r token run.
  destruct (apiLogin_run runtime_member server vars email password authEndpoint)
    as [Hsent Hout].
  fold o r token run in Hsent, Hout.
  split; [exact Hsent|]. split; [reflexivity|]. rewrite Hout.
  destruct (Z.eqb_spec (Cy.status r) 200) as [H200|Hnot]; [|now split].
  destruct (JS.nullish (Cy.rbody r)); [now repeat split|].
  cbn [andb]. destruct (JS.truthy token); [|now split].
  repeat split. unfold Env.env, Env.set_env. now rewrite lookup_insert_eq.
Qed.

(** X14.  [cy.apiLogin(...)] followed by [cy.apiAuthRequest(options)]:
    unless the login throws, two requests go out, the login and then the
    request.  When the caller passes no [Authorization] header, the
    request carries [Bearer <token>] with the token the login has just
    stored; after a login that failed it carries the token left by an
    earlier login, if the variables held a truthy one, and no
    [Authorization] otherwise. *)
Theorem login_then_request_uses_the_stored_token
    (runtime_member : JS.value -> string -> option JS.value)
    (toUpperCase : string -> string) (server : Api.options -> Cy.response)
    (duration : Api.options -> Z)
    (vars : gmap string JS.value) (email password : JS.value) (o : Api.options) :
  let login := ApiCommands.login_options email password "https://reqres.in/api/login" in
  let r := server login in
  let fresh := JS.member runtime_member (Cy.rbody r) "token" in
  let old := Env.env vars "authToken" in
  let run := ApiCommands.login_then_request runtime_member toUpperCase server duration
               vars email password o in
  if (Cy.status r =? 200) && JS.nullish (Cy.rbody r) then
    Api.sent (Api.calls run) = [login] /\ Api.outcome run = inl (Cy.TypeError "token")
  else
    exists cfg hs,
      Api.sent (Api.calls run) = [login; cfg] /\
      Api.headers cfg = Some hs /\
      hs !! "Authorization" =
        match default ∅ (Api.headers o) !! "Authorization" with
        | Some v => Some v
        | None =>
            if (Cy.status r =? 200) && JS.truthy fresh
            then Some [JS.Str "Bearer "; fresh]
            else if JS.truthy old then Some [JS.Str "Bearer "; old] else None
        end.
Proof.
  intros login r fresh old run. unfold run, ApiCommands.login_then_request.
  destruct (apiLogin_run runtime_member server vars email password None) as [Hsent Hout].
  cbn [default from_option id] in Hsent, Hout. fold login r fresh in Hsent, Hout.
  rewrite sent_bind, outcome_bind, Hsent, Hout.
  destruct (Cy.status r =? 200); cbn [andb].
  - destruct (JS.nullish (Cy.rbody r)); [now split|].
    destruct (JS.truthy fresh) eqn:Hfresh; cbn [fst app].
    + destruct (apiAuthRequest_sent toUpperCase server duration
                  (Env.set_env vars "authToken" fresh) o) as [-> _].
      eexists; eexists; (split; [reflexivity|]); (split; [reflexivity|]).
      etransitivity; [apply auth_header|].
      destruct (default ∅ (Api.headers o) !! "Authorization"); [reflexivity|].
      unfold Env.env, Env.set_env. rewrite lookup_insert_eq. cbn [default from_option id].
      now rewrite Hfresh.
    + destruct (apiAuthRequest_sent toUpperCase server duration vars o) as [-> _].
      eexists; eexists; (split; [reflexivity|]); (split; [reflexivity|]).
      apply auth_header.
  - cbn [fst app].
    destruct (apiAuthRequest_sent toUpperCase server duration vars o) as [-> _].
    eexists; eexists; (split; [reflexivity|]); (split; [reflexivity|]).
    apply auth_header.
Qed.

(** A failed login does not clear the token of an earlier one. *)
Example failed_login_keeps_the_earlier_token :
  let refuse (_ : Api.options) := {| Cy.status := 400; Cy.rbody := JS.Obj [] |} in
  let o := {| Api.method := None; Api.url := JS.Str "/api/protected"; Api.body := None;
              Api.headers := None; Api.qs := None; Api.timeout := None;
              Api.failOnStatusCode := None |} in
  let run := ApiCommands.login_then_request JS.plain_runtime ApiCommands.ascii_upper
               refuse (fun _ => 5) {[ "authToken" := JS.Str "stale" ]}
               (JS.Str "eve@example.com") (JS.Str "wrong") o in
  match Api.sent (Api.calls run) with
  | [_; cfg] => default ∅ (Api.headers cfg) !! "Authorization"
                = Some [JS.Str "Bearer "; JS.Str "stale"]
  | _ => False
  end.
Proof. vm_compute. reflexivity. Qed.

(** ** The iframe document *)

Section IframeDocumentFacts.

Import Iframe.

Variable timeline : nat -> page.
Variable iframeSelector : string.




End IframeDocumentFacts.


(** The editor frame has a document at tick 1 and content at tick 2. *)
Example getIframeDocument_before_the_editor_is_filled :
  IframeDocument.getIframeDocument 4 Iframe.editor_timeline "#mce_0_ifr"
    = Some (1%nat, {| Iframe.doc_id := 1; Iframe.body := Some (Iframe.editor_body 0) |}) /\
  Iframe.getIframeBody 4 Iframe.editor_timeline "#mce_0_ifr"
    = Some (2%nat, Iframe.editor_body 2).
Proof. split; reflexivity. Qed.

(** ** What a build leaves behind *)

(** As [ask_agent], for a build in which some commands are known to
    fail: [known] gives their status, and the agent is asked about the
    others only. *)
Ltac ask_agent_knowing known :=
  repeat (lazy -[CI.param_is CI.param_nonblank CI.scm_ok CI.succeeds CI.stat CI.unix
                 CI.param CI.present CI.regular_file CI.directory CI.set_ok
                 CI.batch_file CI.injected CI.spliced_argv CI.plain];
          match goal with
          | |- context [CI.scm_ok ?w ?h] => destruct (CI.scm_ok w h)
          | |- context [CI.unix ?w] => destruct (CI.unix w)
          | |- context [CI.set_ok ?w ?f] => destruct (CI.set_ok w f)
          | |- context [CI.batch_file ?w ?n] => destruct (CI.batch_file w n)
          | |- context [CI.present ?w ?h ?p] => destruct (CI.present w h p)
          | |- context [CI.regular_file ?w ?h ?p] => destruct (CI.regular_file w h p)
          | |- context [CI.directory ?w ?h ?p] => destruct (CI.directory w h p)
          | |- context [CI.param_is ?w ?n ?v] => destruct (CI.param_is w n v)
          | |- context [CI.param_nonblank ?w ?n] => destruct (CI.param_nonblank w n)
          | |- context [CI.succeeds ?w ?h ?a] =>
              first [ rewrite (known h a) by reflexivity | destruct (CI.succeeds w h a) ]
          end);
  lazy -[CI.param_is CI.param_nonblank CI.scm_ok CI.succeeds CI.stat CI.unix CI.param
         CI.present CI.regular_file CI.directory CI.set_ok CI.batch_file CI.injected
         CI.spliced_argv CI.plain].

Section ArchiveFacts.

Import CI Artifacts.

Variable w : world.

(** The [post] section of the NodeJS-tool pipelines, after any stages. *)
Lemma post_archives (p : pipeline) :
  post_always p =
    [Echo (lit "Archiving test artifacts...");
     ArchiveArtifacts "cypress/videos/**/*.mp4";
     ArchiveArtifacts "cypress/screenshots/**/*.png";
     ArchiveArtifacts "cypress/reports/**/*"] ->
  post_success p = [Echo (lit "All Cypress tests passed successfully!")] ->
  post_failure p = [Echo (lit "Some tests failed. Check the reports and screenshots.")] ->
  exists reached good,
    eval_stages w (environment p) (stages p) [] = (reached, good) /\
    build w p =
      reached ++ [Echoed "Archiving test artifacts...";
                  Archived "cypress/videos/**/*.mp4";
                  Archived "cypress/screenshots/**/*.png";
                  Archived "cypress/reports/**/*";
                  Echoed (if good then "All Cypress tests passed successfully!"
                          else "Some tests failed. Check the reports and screenshots.")].
Proof.
  intros Halways Hsuccess Hfailure. unfold build.
  rewrite Halways, Hsuccess, Hfailure.
  destruct (eval_stages w (environment p) (stages p) []) as [reached good].
  exists reached, good. split; [reflexivity|].
  destruct good; cbn; now rewrite <- !app_assoc.
Qed.

(** Stages run one list after the other. *)
Lemma eval_stages_app (envs : list (string * string)) (l1 l2 : list stage) :
  forall h,
  eval_stages w envs (l1 ++ l2) h =
  let '(h1, good) := eval_stages w envs l1 h in
  if good then eval_stages w envs l2 h1 else (h1, false).
Proof.
  induction l1 as [|st rest IH]; intros h; [reflexivity|].
  cbn [app eval_stages]. destruct (eval_stage w envs st h) as [h1 []]; [apply IH|reflexivity].
Qed.

(** A build that fails within its first [n] stages is those stages
    followed by [post]. *)
Lemma build_failing_early (p : pipeline) (n : nat) (reached : history) :
  eval_stages w (environment p) (take n (stages p)) [] = (reached, false) ->
  build w p =
    (let '(_, h2, _) := eval_steps w (environment p) (post_always p) [] reached in
     let '(_, h3, _) := eval_steps w (environment p) (post_failure p) [] h2 in
     h3).
Proof.
  intros Hearly. unfold build.
  rewrite <- (take_drop n (stages p)) at 1.
  now rewrite eval_stages_app, Hearly.
Qed.

End ArchiveFacts.

(** X16.  The two NodeJS-tool pipelines archive the videos, the
    screenshots and the reports in every build, whatever failed before,
    a failed checkout or install included: every build ends with the
    three [archiveArtifacts] steps of [post { always }], followed by the
    one message that tells whether all stages passed. *)
Theorem nodejs_pipelines_archive_in_every_build (w : CI.world) :
  Forall (fun p =>
            exists reached good,
              CI.eval_stages w (CI.environment p) (CI.stages p) [] = (reached, good) /\
              CI.build w p =
                reached ++
                [CI.Echoed "Archiving test artifacts...";
                 CI.Archived "cypress/videos/**/*.mp4";
                 CI.Archived "cypress/screenshots/**/*.png";
                 CI.Archived "cypress/reports/**/*";
                 CI.Echoed (if good then "All Cypress tests passed successfully!"
                            else "Some tests failed. Check the reports and screenshots.")])
         [CI.jenkinsfile_nodejs; CI.jenkinsfile_params].
Proof. repeat constructor; now apply post_archives. Qed.

(** X17.  In the Docker-agent pipeline the artifacts are archived by the
    last stage, so a build whose test run fails archives and publishes
    nothing: it enters no stage after the run stage, and still ends with
    the messages 'Build finished; artifacts uploaded.' and the failure
    message. *)
Theorem docker_pipeline_archives_nothing_after_a_failed_run (w : CI.world) :
  (forall h argv, CI.is_runner argv = true -> CI.succeeds w h argv = false) ->
  Artifacts.archived (CI.build w CI.jenkinsfile_docker) = [] /\
  Artifacts.published (CI.build w CI.jenkinsfile_docker) = [] /\
  CI.entered (CI.build w CI.jenkinsfile_docker)
    `prefix_of` take 3 (map CI.stage_name (CI.stages CI.jenkinsfile_docker)) /\
  exists before,
    CI.build w CI.jenkinsfile_docker =
      before ++ [CI.Echoed "Build finished; artifacts uploaded.";
                 CI.Echoed "❌ Cypress pipeline failed. Check reports/videos."].
Proof.
  intros Hfail.
  destruct (CI.eval_stages w (CI.environment CI.jenkinsfile_docker)
              (take 3 (CI.stages CI.jenkinsfile_docker)) []) as [reached good] eqn:Hearly.
  assert (Hreached : good = false /\ Artifacts.archived reached = [] /\
                     Artifacts.published reached = [] /\
                     CI.entered reached `prefix_of`
                       take 3 (map CI.stage_name (CI.stages CI.jenkinsfile_docker))).
  { revert Hearly. ask_agent_knowing Hfail; intros [= <- <-];
      (split; [reflexivity|]); (split; [reflexivity|]); (split; [reflexivity|]);
      eexists; reflexivity. }
  destruct Hreached as (-> & Harchived & Hpublished & Hentered).
  rewrite (build_failing_early w CI.jenkinsfile_docker 3 reached Hearly).
  cbn [CI.post_always CI.post_failure CI.jenkinsfile_docker CI.eval_steps CI.seq_steps
       CI.eval_step].
  unfold Artifacts.archived, Artifacts.published, CI.entered in *.
  rewrite !omap_app, Harchived, Hpublished. cbn [omap list_omap app].
  rewrite !app_nil_r. split; [reflexivity|]. split; [reflexivity|].
  split; [exact Hentered|]. eexists. rewrite <- app_assoc. reflexivity.
Qed.

Lemma docker_pipeline_archives_nothing_after_a_failed_run_witness :
  (forall h argv, CI.is_runner argv = true ->
                  CI.succeeds (Artifacts.failing_tests true) h argv = false) /\
  Artifacts.archived (CI.build (Artifacts.failing_tests true) CI.jenkinsfile_docker) = [].
Proof.
  assert (Hfail : forall h argv, CI.is_runner argv = true ->
                    CI.succeeds (Artifacts.failing_tests true) h argv = false).
  { intros h argv Hrunner. simpl. now rewrite Hrunner. }
  split; [exact Hfail|].
  exact (proj1 (docker_pipeline_archives_nothing_after_a_failed_run
                  (Artifacts.failing_tests true) Hfail)).
Defined.

(** On the same agent the NodeJS-tool pipeline does archive. *)
Example nodejs_pipeline_archives_after_a_failed_run :
  Artifacts.archived (CI.build (Artifacts.failing_tests true) CI.jenkinsfile_nodejs)
  = ["cypress/videos/**/*.mp4"; "cypress/screenshots/**/*.png"; "cypress/reports/**/*"].
Proof. reflexivity. Qed.

(** X18.  When both [npm ci] and [npm install] fail, no Jenkins pipeline
    runs the tests: the build stops in the install stage, on Unix agents
    and on Windows agents alike, and never invokes the test runner. *)
Theorem failed_install_runs_no_tests (w : CI.world) :
  (forall h argv, CI.is_install argv = true -> CI.succeeds w h argv = false) ->
  Forall (fun p =>
            CI.runner_invocations (CI.build w p) = [] /\
            CI.entered (CI.build w p)
              `prefix_of` take 2 (map CI.stage_name (CI.stages p)))
         CI.jenkins_pipelines.
Proof.
  intros Hfail.
  repeat constructor;
    match goal with
    | |- context [CI.build w ?p] =>
        destruct (CI.eval_stages w (CI.environment p) (take 2 (CI.stages p)) [])
          as [reached good] eqn:Hearly;
        assert (Hreached : good = false /\ CI.runner_invocations reached = [] /\
                           CI.entered reached `prefix_of`
                             take 2 (map CI.stage_name (CI.stages p)))
          by (revert Hearly; ask_agent_knowing Hfail; intros [= <- <-];
              (split; [reflexivity|]); (split; [reflexivity|]); eexists; reflexivity);
        destruct Hreached as (-> & Hnone & Hentered);
        rewrite (build_failing_early w p 2 reached Hearly)
    end;
    cbn [CI.post_always CI.post_failure CI.jenkinsfile_docker CI.jenkinsfile_nodejs
         CI.jenkinsfile_params CI.eval_steps CI.seq_steps CI.eval_step];
    unfold CI.runner_invocations, CI.commands, CI.entered in *;
    rewrite !omap_app; cbn [omap list_omap app]; rewrite !app_nil_r; assumption.
Qed.

Lemma failed_install_runs_no_tests_witness :
  (forall h argv, CI.is_install argv = true ->
                  CI.succeeds (Artifacts.failing_install false) h argv = false) /\
  CI.runner_invocations (CI.build (Artifacts.failing_install false) CI.jenkinsfile_params)
    = [].
Proof.
  assert (Hfail : forall h argv, CI.is_install argv = true ->
                    CI.succeeds (Artifacts.failing_install false) h argv = false).
  { intros h argv Hinstall. simpl. now rewrite Hinstall. }
  split; [exact Hfail|].
  pose proof (failed_install_runs_no_tests (Artifacts.failing_install false) Hfail) as H.
  apply Forall_cons in H as [_ H]. apply Forall_cons in H as [_ H].
  apply Forall_cons in H as [[H _] _]. exact H.
Defined.

(** X19.  The last two stages of the Docker-agent pipeline, diagnostics
    and publish, cannot fail: whatever the build did before, whatever is
    on disk, and whether or not [ls] and [find] succeed, each of them
    ends well.  So a build of this pipeline can only fail in its first
    four stages. *)
Theorem docker_diagnostics_and_publish_never_fail (w : CI.world) (h : CI.history) :
  map CI.stage_name (drop 4 (CI.stages CI.jenkinsfile_docker))
    = ["Diagnostics (list files)"; "Publish Reports & Artifacts"] /\
  Forall (fun st => snd (CI.eval_stage w (CI.environment CI.jenkinsfile_docker) st h) = true)
         (drop 4 (CI.stages CI.jenkinsfile_docker)).
Proof.
  split; [reflexivity|].
  repeat constructor; ask_agent; reflexivity.
Qed.

(** ** Hooks that guard a suite *)

Section GuardFacts.

Import JS Cy Suites.

Context {St : Type}.
Variable su : suite St.

(** When [beforeEach] passes from every state and [afterEach] never
    fails, every test is run and reported, in order. *)
Lemma run_tests_all (ts : list (test St)) :
  (forall s, exists s1, snd (beforeEach su s) = inr s1) ->
  (forall s, exists s1, snd (afterEach su s) = inr s1) ->
  forall s, map of_test (fst (run_tests su s ts)) = map title ts.
Proof.
  intros Hbefore Hafter. induction ts as [|t rest IH]; intros s; [reflexivity|].
  cbn [run_tests]. unfold state_past, report_at.
  destruct (Hbefore s) as [s1 Hs1]. rewrite Hs1.
  destruct (Hafter (state_after s1 (run t s1))) as [s2 Hs2]. rewrite Hs2.
  specialize (IH (state_after (state_after s1 (run t s1))
                              (afterEach su (state_after s1 (run t s1))))).
  destruct (run_tests su _ rest) as [rs s'']. cbn [fst map of_test] in *.
  now rewrite IH.
Qed.

(** When [beforeEach] fails from every state, the first test is reported
    as failed without having run, and the others are skipped. *)
Lemma run_tests_guarded (t : test St) (rest : list (test St)) (s : St) (e : error) :
  snd (beforeEach su s) = inl e ->
  fst (run_tests su s (t :: rest)) =
    [ {| of_test := title t; setup_calls := fst (beforeEach su s); body_calls := [];
         cleanup_calls := fst (afterEach su s); failure := Some e |} ].
Proof.
  intros He. cbn [run_tests]. unfold state_past, report_at. now rewrite He.
Qed.

End GuardFacts.

Section PostsGuard.

Import JS Cy Suites.

Variable runtime_member : value -> string -> option value.
Variable server : Cy.request -> response.

(** The request of the [beforeEach] hook of the posts suite. *)
Local Abbreviation probe :=
  {| method := "GET"; url := [Str (jsonplaceholder +:+ "/posts/1")]; body := None;
     failOnStatusCode := true |}.

Lemma posts_beforeEach_outcome (s : value) :
  fst (posts_beforeEach server s) =
    Log [Str "beforeEach(): ensure API is reachable"] :: Request probe ::
    (if Commands.ok_status (status (server probe))
     then [Its "status"; Should "eq" [Num (inject_Z 200)]] else []) /\
  if status (server probe) =? 200
  then snd (posts_beforeEach server s) = inr s
  else exists e, snd (posts_beforeEach server s) = inl e.
Proof.
  unfold posts_beforeEach, Suites.request, Commands.cy_request, its_status_should_eq,
    Commands.expect_eq.
  cbn [failOnStatusCode andb bind emit fst snd app].
  destruct (Commands.ok_status (status (server probe))) eqn:Hok;
    destruct (Z.eqb_spec (status (server probe)) 200) as [H200|Hnot];
    cbn [negb bind emit ret throw fst snd app].
  - rewrite (proj2 (Z.eqb_eq _ _) H200). split; reflexivity.
  - rewrite (proj2 (Z.eqb_neq _ _) Hnot). split; [reflexivity|]. eauto.
  - rewrite H200 in Hok. discriminate.
  - split; [reflexivity|]. eauto.
Qed.

End PostsGuard.

(** X20.  The [beforeEach] hook of the posts suite guards every test with
    a GET of [/posts/1].  When the answer has status 200, every selected
    test is run and reported, in the order given.  With any other answer
    the hook fails: the first selected test is reported as failed, its
    body is never run, the remaining tests are skipped, and the run sends
    that one request only; [afterEach] and [after] still run. *)
Theorem posts_suite_runs_only_while_the_api_answers
    (runtime_member : JS.value -> string -> option JS.value)
    (server : Cy.request -> Cy.response) (ts : list (Suites.test JS.value)) :
  let posts := Suites.posts_suite runtime_member server in
  let probe := {| Cy.method := "GET";
                  Cy.url := [JS.Str (Suites.jsonplaceholder +:+ "/posts/1")];
                  Cy.body := None; Cy.failOnStatusCode := true |} in
  if Cy.status (server probe) =? 200
  then map Suites.of_test (Suites.reports posts ts) = map Suites.title ts
  else
    map Suites.of_test (Suites.reports posts ts) = map Suites.title (take 1 ts) /\
    Forall (fun r => Suites.body_calls r = [] /\
                     Suites.failure r <> None /\
                     Cy.requests (Suites.setup_calls r) = [probe] /\
                     Suites.cleanup_calls r =
                       [Cy.Log [JS.Str "afterEach(): no per-test cleanup required for this fake API"]])
           (Suites.reports posts ts) /\
    Suites.teardown posts ts =
      [Cy.Log [JS.Str "after(): reminder - JSONPlaceholder fakes writes only"]].
Proof.
  intros posts probe. subst posts.
  unfold Suites.reports, Suites.teardown, Suites.run_suite.
  cbn [Suites.before_ Suites.posts_suite Suites.posts_before Suites.initial
       Suites.after_ Suites.posts_after Cy.bind Cy.emit Cy.ret app fst snd].
  pose proof (posts_beforeEach_outcome server) as Hguard. fold probe in Hguard.
  destruct (Cy.status (server probe) =? 200) eqn:H200.
  - pose proof (run_tests_all (Suites.posts_suite runtime_member server) ts) as Hall.
    destruct (Suites.run_tests _ JS.Undefined ts) as [rs s] eqn:Hrun.
    cbn [fst]. specialize (Hall
      (fun s => ex_intro _ s (proj2 (Hguard s)))
      (fun s => ex_intro _ s eq_refl) JS.Undefined).
    now rewrite Hrun in Hall.
  - destruct ts as [|t rest]; [repeat split; constructor|].
    destruct (Hguard JS.Undefined) as [Hcalls [e He]].
    pose proof (run_tests_guarded (Suites.posts_suite runtime_member server) t rest
                  JS.Undefined e He) as Hfirst.
    destruct (Suites.run_tests _ JS.Undefined (t :: rest)) as [rs s] eqn:Hrun.
    cbn [fst snd] in *. subst rs. split; [reflexivity|]. split; [|reflexivity].
    constructor; [|constructor]. cbn [Suites.body_calls Suites.failure
      Suites.setup_calls Suites.cleanup_calls Suites.beforeEach Suites.afterEach
      Suites.posts_suite].
    split; [reflexivity|]. split; [discriminate|]. split; [|reflexivity].
    rewrite Hcalls. now destruct (Commands.ok_status _).
Qed.

(** X21.  In the users suite no hook can fail before the teardown, so
    every selected test is run and reported, in the order given, whatever
    the server answers: a failing test never keeps a later one from
    running.  Around each test the hooks only log. *)
Theorem users_suite_runs_every_selected_test
    (runtime_member : JS.value -> string -> option JS.value)
    (server : Cy.request -> Cy.response) (ts : list (Suites.test JS.value)) :
  let users := Suites.users_suite runtime_member server in
  map Suites.of_test (Suites.reports users ts) = map Suites.title ts /\
  Forall (fun r =>
            Suites.setup_calls r =
              [Cy.Log [JS.Str "beforeEach(): nothing heavy here; API is stateless for demo"]] /\
            Suites.cleanup_calls r =
              [Cy.Log [JS.Str "afterEach(): per-test cleanup (if needed)"]])
         (Suites.reports users ts).
Proof.
  intros users. subst users. unfold Suites.reports, Suites.run_suite.
  cbn [Suites.before_ Suites.users_suite Suites.users_before Suites.initial
       Cy.bind Cy.emit Cy.ret app fst snd].
  split.
  - pose proof (run_tests_all (Suites.users_suite runtime_member server) ts) as Hall.
    destruct (Suites.run_tests _ JS.Undefined ts) as [rs s] eqn:Hrun.
    cbn [fst]. specialize (Hall (fun s => ex_intro _ s eq_refl)
                                (fun s => ex_intro _ s eq_refl) JS.Undefined).
    now rewrite Hrun in Hall.
  - apply Forall_forall. intros r Hr.
    destruct (Suites.run_tests _ JS.Undefined ts) as [rs s] eqn:Hrun. cbn [fst] in Hr.
    destruct (run_tests_reports (Suites.users_suite runtime_member server) ts
                JS.Undefined r) as (t & s1 & _ & ->).
    { rewrite Hrun. now apply list_elem_of_In. }
    split; reflexivity.
Qed.

(** With the placeholder server, which answers [/posts/1] with 200, all
    four tests of the posts suite are reported; with one that answers
    503, only the first. *)
Example posts_suite_against_a_server_that_is_down :
  let down (_ : Cy.request) := {| Cy.status := 503; Cy.rbody := JS.Null |} in
  map Suites.of_test
    (Suites.reports (Suites.posts_suite JS.plain_runtime down)
       (Suites.tests (Suites.posts_suite JS.plain_runtime down)))
  = ["reads a single resource"].
Proof. reflexivity. Qed.
